(** * Session router of the clicker proxy: channels, sessions, teardown

    A shallow embedding of
    - [internal/bidi] [Connection] (engine-side message channel),
    - [internal/proxy] [ClientConn] and [Server] (client-side channel and
      connection acceptor),
    - [internal/proxy] [Router] and [BrowserSession] (session registry, relay
      loop and teardown),
    together with the properties the specification states about them.

    Each method that runs under a [sync.Mutex] is one atomic function on the
    object it locks.  The websocket library, the browser launcher and the
    dialer are collaborators outside the repository: their answers are read
    from scripts carried by the objects, so every statement below holds for
    every behaviour of these collaborators. *)

From stdpp Require Import base option list gmap strings.
From Stdlib Require Import ZArith Lia Sorted.

(** Addresses of heap objects ([*ClientConn], [*BrowserSession]). *)
Abbreviation loc := nat (only parsing).

(** ** Go error values

    An error value is identified by the place that creates it. *)
Inductive error : Type :=
| ErrConnectionClosed
    (* fmt.Errorf("connection closed") in Send and Receive *)
| ErrExpectedText (messageType : Z)
    (* fmt.Errorf("expected text message, got type %d", msgType) *)
| ErrWebsocket (e : string)
    (* an error returned by the websocket library *)
| ErrConnect (url : string) (cause : string)
    (* fmt.Errorf("failed to connect to %s: %w", url, err) *)
| ErrLaunch (e : string).
    (* an error returned by browser.Launch *)

#[global] Instance error_eq_dec : EqDecision error.
Proof. solve_decision. Defined.

(** ** Observable actions, in the order they happen *)
Inductive Event : Type :=
| EvWrite (conn : nat) (messageType : Z) (data : string) (err : option string)
    (* conn.WriteMessage(messageType, data) and what it returned *)
| EvSockClose (conn : nat)          (* conn.Close() on a websocket *)
| EvLaunch (headless : bool)        (* browser.Launch(LaunchOptions{Headless}) *)
| EvDial (url : string)             (* websocket.DefaultDialer.Dial(url, nil) *)
| EvLaunchClose (proc : nat)        (* launchResult.Close() *)
| EvStop (session : loc)            (* close(session.stopChan) *)
| EvGo (session : loc).             (* go r.routeBrowserToClient(session) *)

#[global] Instance Event_eq_dec : EqDecision Event.
Proof. solve_decision. Defined.

(** ** The websocket library (github.com/gorilla/websocket), as a script *)
Module websocket.

Definition TextMessage : Z := 1.
Definition BinaryMessage : Z := 2.
Definition CloseMessage : Z := 8.
Definition CloseNormalClosure : Z := 1000.

(** What one call of [ReadMessage] returns. *)
Inductive ReadResult : Type :=
| Frame (messageType : Z) (p : string)
| ReadErr (e : string).

(** A connection: its identity and what the peer and the network will
    answer to the coming calls.  An exhausted [reads] script is a peer that
    stays silent: [ReadMessage] blocks.  An exhausted [writes] or [closes]
    script answers with success. *)
Record Conn : Type := mkConn {
  id : nat;
  reads : list ReadResult;
  writes : list (option string);
  closes : list (option string)
}.

(** The answer a script gives to the next call. *)
Definition answer (script : list (option string)) : option string :=
  match script with [] => None | o :: _ => o end.

Definition ReadMessage (c : Conn) : option (ReadResult * Conn) :=
  match reads c with
  | [] => None
  | r :: rs => Some (r, mkConn (id c) rs (writes c) (closes c))
  end.

Definition WriteMessage (c : Conn) (messageType : Z) (data : string)
  : option string * Conn * list Event :=
  let r := answer (writes c) in
  (r, mkConn (id c) (reads c) (tail (writes c)) (closes c),
   [EvWrite (id c) messageType data r]).

Definition Close (c : Conn) : option string * Conn * list Event :=
  let r := answer (closes c) in
  (r, mkConn (id c) (reads c) (writes c) (tail (closes c)),
   [EvSockClose (id c)]).

(** [FormatCloseMessage(closeCode, text)]: the code as two big-endian bytes,
    then the text. *)
Definition FormatCloseMessage (closeCode : Z) (text : string) : string :=
  String (Ascii.ascii_of_N (Z.to_N (closeCode / 256 mod 256)))
    (String (Ascii.ascii_of_N (Z.to_N (closeCode mod 256))) text).

Definition wrap (o : option string) : option error := ErrWebsocket <$> o.

End websocket.

(** ** bidi.Connection: the engine-side channel *)
Module Connection.

Record t : Type := mk {
  conn : websocket.Conn;
  closed : bool
}.

(** [Connect(url)]; [dial] is what [DefaultDialer.Dial(url, nil)] returns. *)
Definition Connect (dial : string + websocket.Conn) (url : string)
  : (error + t) * list Event :=
  (match dial with
   | inl e => inl (ErrConnect url e)
   | inr ws => inr (mk ws false)
   end, [EvDial url]).

Definition Send (c : t) (msg : string) : option error * t * list Event :=
  if closed c then (Some ErrConnectionClosed, c, [])
  else
    let '(r, ws, evs) := websocket.WriteMessage (conn c) websocket.TextMessage msg in
    (websocket.wrap r, mk ws (closed c), evs).

(** [Receive()]; [None] when the call blocks for ever. *)
Definition Receive (c : t) : option ((string + error) * t) :=
  if closed c then Some (inr ErrConnectionClosed, c)
  else
    match websocket.ReadMessage (conn c) with
    | None => None
    | Some (websocket.ReadErr e, ws) => Some (inr (ErrWebsocket e), mk ws (closed c))
    | Some (websocket.Frame msgType msg, ws) =>
        if decide (msgType ≠ websocket.TextMessage)
        then Some (inr (ErrExpectedText msgType), mk ws (closed c))
        else Some (inl msg, mk ws (closed c))
    end.

Definition Close (c : t) : option error * t * list Event :=
  if closed c then (None, c, [])
  else
    let '(_, ws1, ev1) :=
      websocket.WriteMessage (conn c) websocket.CloseMessage
        (websocket.FormatCloseMessage websocket.CloseNormalClosure EmptyString) in
    let '(r, ws2, ev2) := websocket.Close ws1 in
    (websocket.wrap r, mk ws2 true, ev1 ++ ev2).

End Connection.

(** ** proxy.ClientConn: the client-side channel *)
Module ClientConn.

Record t : Type := mk {
  ID : Z;
  conn : websocket.Conn;
  closed : bool
}.

Definition Send (c : t) (msg : string) : option error * t * list Event :=
  if closed c then (Some ErrConnectionClosed, c, [])
  else
    let '(r, ws, evs) := websocket.WriteMessage (conn c) websocket.TextMessage msg in
    (websocket.wrap r, mk (ID c) ws (closed c), evs).

Definition Close (c : t) : option error * t * list Event :=
  if closed c then (None, c, [])
  else
    let '(_, ws1, ev1) :=
      websocket.WriteMessage (conn c) websocket.CloseMessage
        (websocket.FormatCloseMessage websocket.CloseNormalClosure EmptyString) in
    let '(r, ws2, ev2) := websocket.Close ws1 in
    (websocket.wrap r, mk (ID c) ws2 true, ev1 ++ ev2).

End ClientConn.

(** Histories of calls on one channel, to speak about what happened before
    a send. *)
Inductive ChanOp : Type :=
| OpSend (msg : string)
| OpReceive
| OpClose.

Definition Connection_apply (c : Connection.t) (o : ChanOp) : Connection.t :=
  match o with
  | OpSend msg => (Connection.Send c msg).1.2
  | OpReceive =>
      match Connection.Receive c with Some (_, c') => c' | None => c end
  | OpClose => (Connection.Close c).1.2
  end.

Definition ClientConn_apply (c : ClientConn.t) (o : ChanOp) : ClientConn.t :=
  match o with
  | OpSend msg => (ClientConn.Send c msg).1.2
  | OpReceive =>
      match websocket.ReadMessage (ClientConn.conn c) with
      | Some (_, ws) => ClientConn.mk (ClientConn.ID c) ws (ClientConn.closed c)
      | None => c
      end
  | OpClose => (ClientConn.Close c).1.2
  end.

Definition is_close (o : ChanOp) : bool :=
  match o with OpClose => true | _ => false end.

(** ** browser.LaunchResult: the handle of a launched engine process *)
Module browser.

Record LaunchResult : Type := mkLaunchResult {
  WebSocketURL : string;
  proc : nat
}.

(** Modelled from the spec: [LaunchResult.Close] belongs to the launcher
    package, which is not among the sources.  The specification gives it as
    [processHandle.close() → success], idempotent and tolerant of a process
    that has already exited: the call is recorded and always returns. *)
Definition Close (l : LaunchResult) : list Event := [EvLaunchClose (proc l)].

End browser.

(** ** proxy.BrowserSession *)
Module BrowserSession.

(** [LaunchResult] and [BidiConn] are pointers that [closeSession] tests
    against nil; [Client] points into the heap of client channels, which the
    acceptor shares; [stopChan] is [true] once the channel has been closed. *)
Record t : Type := mk {
  LaunchResult : option browser.LaunchResult;
  BidiConn : option Connection.t;
  Client : loc;
  closed : bool;
  stopChan : bool
}.

Definition set_closed (v : bool) (s : t) : t :=
  mk (LaunchResult s) (BidiConn s) (Client s) v (stopChan s).
Definition set_stopChan (v : bool) (s : t) : t :=
  mk (LaunchResult s) (BidiConn s) (Client s) (closed s) v.
Definition set_BidiConn (b : Connection.t) (s : t) : t :=
  mk (LaunchResult s) (Some b) (Client s) (closed s) (stopChan s).

(** The four atomic parts of [Router.closeSession], in source order. *)

(** [mu.Lock(); if closed { Unlock; return }; closed = true; mu.Unlock()]:
    the flag says whether the caller goes on with the body. *)
Definition guard (s : t) : bool * t :=
  if closed s then (false, s) else (true, set_closed true s).

(** [close(session.stopChan)]; closing a closed channel panics. *)
Definition signal (me : loc) (s : t) : option (t * list Event) :=
  if stopChan s then None else Some (set_stopChan true s, [EvStop me]).

(** [if session.BidiConn != nil { session.BidiConn.Close() }] *)
Definition closeBidi (s : t) : t * list Event :=
  match BidiConn s with
  | None => (s, [])
  | Some b => let '(_, b', evs) := Connection.Close b in (set_BidiConn b' s, evs)
  end.

(** [if session.LaunchResult != nil { session.LaunchResult.Close() }] *)
Definition closeBrowser (s : t) : t * list Event :=
  match LaunchResult s with
  | None => (s, [])
  | Some l => (s, browser.Close l)
  end.

End BrowserSession.

(** ** The shared store *)
Record Router : Type := mkRouter {
  sessions : gmap Z loc;      (* sync.Map: client ID -> *BrowserSession *)
  headless : bool
}.

Record Server : Type := mkServer {
  port : Z;
  httpServer : bool;          (* *http.Server: [true] once it is not nil *)
  nextID : Z;                 (* atomic.Uint64 *)
  srv_clients : gmap Z loc    (* sync.Map: client ID -> *ClientConn *)
}.

Record World : Type := mkWorld {
  clients : gmap loc ClientConn.t;      (* heap of ClientConn objects *)
  heap : gmap loc BrowserSession.t;     (* heap of BrowserSession objects *)
  router : Router;
  server : Server;
  trace : list Event
}.

(** ** State passing; [None] is a Go panic (nil dereference, double close) *)
Definition M (A : Type) : Type := World → option (A * World).

Definition ret {A} (a : A) : M A := λ w, Some (a, w).
Definition bind {A B} (m : M A) (k : A → M B) : M B :=
  λ w, match m w with
       | Some (a, w') => k a w'
       | None => None
       end.
Definition panic {A} : M A := λ _, None.

Notation "x <- m ;; k" := (bind m (λ x, k))
  (at level 100, m at next level, right associativity).
Notation "m ;;; k" := (bind m (λ _, k))
  (at level 100, right associativity).

Definition emit (evs : list Event) : M unit :=
  λ w, Some (tt, mkWorld (clients w) (heap w) (router w) (server w) (trace w ++ evs)).

Definition getClient (c : loc) : M ClientConn.t :=
  λ w, match clients w !! c with Some cc => Some (cc, w) | None => None end.
Definition putClient (c : loc) (cc : ClientConn.t) : M unit :=
  λ w, Some (tt, mkWorld (<[c := cc]> (clients w)) (heap w) (router w) (server w) (trace w)).

Definition getSession (s : loc) : M BrowserSession.t :=
  λ w, match heap w !! s with Some v => Some (v, w) | None => None end.
Definition putSession (s : loc) (v : BrowserSession.t) : M unit :=
  λ w, Some (tt, mkWorld (clients w) (<[s := v]> (heap w)) (router w) (server w) (trace w)).

Definition getRouter : M Router := λ w, Some (router w, w).
Definition putSessions (m : gmap Z loc) : M unit :=
  λ w, Some (tt, mkWorld (clients w) (heap w) (mkRouter m (headless (router w)))
                   (server w) (trace w)).

Definition getServer : M Server := λ w, Some (server w, w).
Definition putServer (sv : Server) : M unit :=
  λ w, Some (tt, mkWorld (clients w) (heap w) (router w) sv (trace w)).

(** A method of [ClientConn] called through its pointer. *)
Definition onClient {A} (c : loc)
    (f : ClientConn.t → A * ClientConn.t * list Event) : M A :=
  cc <- getClient c ;;
  let '(a, cc', evs) := f cc in
  putClient c cc' ;;; emit evs ;;; ret a.

(** An atomic part of a method on [BrowserSession], through its pointer. *)
Definition onSession {A} (s : loc)
    (f : BrowserSession.t → option (A * BrowserSession.t * list Event)) : M A :=
  v <- getSession s ;;
  match f v with
  | None => panic
  | Some (a, v', evs) => putSession s v' ;;; emit evs ;;; ret a
  end.

(** ** Error texts and the error frame *)
Definition decimal (z : Z) : string := pretty.pretty z.

(** [err.Error()] *)
Definition Error (e : error) : string :=
  match e with
  | ErrConnectionClosed => "connection closed"
  | ErrExpectedText ty => "expected text message, got type " +:+ decimal ty
  | ErrWebsocket m => m
  | ErrConnect url cause => "failed to connect to " +:+ url +:+ ": " +:+ cause
  | ErrLaunch m => m
  end.

(** The double quote character, as a string. *)
Definition dq : string := String (Ascii.ascii_of_nat 34) EmptyString.

(** [fmt.Sprintf(`{"error":{"code":-32000,"message":"<what>%s"}}`, text)] *)
Definition errorFrame (what text : string) : string :=
  "{" +:+ dq +:+ "error" +:+ dq +:+ ":{" +:+ dq +:+ "code" +:+ dq +:+ ":-32000,"
  +:+ dq +:+ "message" +:+ dq +:+ ":" +:+ dq +:+ what +:+ text +:+ dq +:+ "}}".

(** ** The router *)

(** [closeSession(session)]: the guard, then the body. *)
Definition closeSession (s : loc) : M unit :=
  go <- onSession s (λ v, let '(b, v') := BrowserSession.guard v in Some (b, v', [])) ;;
  if go : bool then
    onSession s (λ v, match BrowserSession.signal s v with
                      | Some (v', evs) => Some (tt, v', evs)
                      | None => None
                      end) ;;;
    onSession s (λ v, let '(v', evs) := BrowserSession.closeBidi v in Some (tt, v', evs)) ;;;
    onSession s (λ v, let '(v', evs) := BrowserSession.closeBrowser v in Some (tt, v', evs))
  else ret tt.

(** [OnClientConnect(client)].  [launch] is what [browser.Launch] returns to
    this call and [dial] what the dialer returns inside [bidi.Connect]. *)
Definition OnClientConnect
    (launch : string + browser.LaunchResult) (dial : string + websocket.Conn)
    (client : loc) : M unit :=
  cc <- getClient client ;;
  r <- getRouter ;;
  emit [EvLaunch (headless r)] ;;;
  match launch with
  | inl err =>
      onClient client (λ c, ClientConn.Send c
        (errorFrame "Failed to launch browser: " (Error (ErrLaunch err)))) ;;;
      onClient client ClientConn.Close ;;;
      ret tt
  | inr launchResult =>
      let '(res, evs) := Connection.Connect dial (browser.WebSocketURL launchResult) in
      emit evs ;;;
      match res with
      | inl err =>
          emit (browser.Close launchResult) ;;;
          onClient client (λ c, ClientConn.Send c
            (errorFrame "Failed to connect to browser: " (Error err))) ;;;
          onClient client ClientConn.Close ;;;
          ret tt
      | inr bidiConn =>
          w <- (λ w, Some (w, w)) ;;
          let s := fresh (dom (heap w)) in
          putSession s (BrowserSession.mk (Some launchResult) (Some bidiConn)
                          client false false) ;;;
          putSessions (<[ClientConn.ID cc := s]> (sessions r)) ;;;
          emit [EvGo s]
      end
  end.

(** [OnClientMessage(client, msg)] *)
Definition OnClientMessage (client : loc) (msg : string) : M unit :=
  cc <- getClient client ;;
  r <- getRouter ;;
  match sessions r !! ClientConn.ID cc with
  | None => ret tt
  | Some s =>
      session <- getSession s ;;
      if BrowserSession.closed session then ret tt
      else
        _ <- onSession s (λ v,
               match BrowserSession.BidiConn v with
               | None => None
               | Some b =>
                   let '(err, b', evs) := Connection.Send b msg in
                   Some (err, BrowserSession.set_BidiConn b' v, evs)
               end) ;;
        ret tt
  end.

(** [OnClientDisconnect(client)]; [LoadAndDelete] is one atomic step. *)
Definition OnClientDisconnect (client : loc) : M unit :=
  cc <- getClient client ;;
  r <- getRouter ;;
  match sessions r !! ClientConn.ID cc with
  | None => ret tt
  | Some s =>
      putSessions (delete (ClientConn.ID cc) (sessions r)) ;;;
      closeSession s
  end.

(** How one turn of the relay loop ends. *)
Inductive RelayExit : Type :=
| ExitStop                      (* case <-session.stopChan: return *)
| ExitReceive (err : error)     (* Receive failed *)
| ExitSend (err : error).       (* Client.Send failed *)

Inductive Turn : Type :=
| Continue
| Exit (why : RelayExit)
| Blocked.                      (* Receive never returns *)

(** One turn of the [for] loop of [routeBrowserToClient]. *)
Definition relayTurn (s : loc) : M Turn :=
  session <- getSession s ;;
  if BrowserSession.stopChan session then ret (Exit ExitStop)
  else
    match BrowserSession.BidiConn session with
    | None => panic
    | Some b =>
        match Connection.Receive b with
        | None => ret Blocked
        | Some (res, b') =>
            putSession s (BrowserSession.set_BidiConn b' session) ;;;
            match res with
            | inr err =>
                locked <- getSession s ;;
                let closed := BrowserSession.closed locked in
                (if negb closed
                 then _ <- onClient (BrowserSession.Client session) ClientConn.Close ;; ret tt
                 else ret tt) ;;;
                ret (Exit (ExitReceive err))
            | inl msg =>
                r <- onClient (BrowserSession.Client session)
                       (λ c, ClientConn.Send c msg) ;;
                match r with
                | Some err => ret (Exit (ExitSend err))
                | None => ret Continue
                end
            end
        end
    end.

Inductive LoopEnd : Type :=
| Returned (why : RelayExit)
| Waiting                       (* blocked in Receive *)
| OutOfFuel.

(** [routeBrowserToClient(session)], for at most [fuel] turns. *)
Fixpoint routeBrowserToClient (fuel : nat) (s : loc) : M LoopEnd :=
  match fuel with
  | O => ret OutOfFuel
  | S fuel' =>
      t <- relayTurn s ;;
      match t with
      | Continue => routeBrowserToClient fuel' s
      | Exit why => ret (Returned why)
      | Blocked => ret Waiting
      end
  end.

(** [CloseAll()]: [Range] visits the entries one after the other. *)
Definition CloseAll : M unit :=
  r <- getRouter ;;
  foldr (λ kv rest,
           closeSession kv.2 ;;;
           r' <- getRouter ;;
           putSessions (delete kv.1 (sessions r')) ;;;
           rest)
        (ret tt) (map_to_list (sessions r)).

(** ** The server (connection acceptor) *)

(** The callbacks [onConnect], [onMessage], [onClose] of [Server]; they act on
    the whole store, so they are kept beside it. *)
Record Callbacks : Type := mkCallbacks {
  onConnect : option (loc → M unit);
  onMessage : option (loc → string → M unit);
  onClose : option (loc → M unit)
}.

Definition uint64_modulus : Z := 2 ^ 64.

(** [s.nextID.Add(1)]: adds one, wraps at 64 bits, returns the new value. *)
Definition nextID_Add1 (sv : Server) : Z * Server :=
  let v := ((nextID sv + 1) mod uint64_modulus)%Z in
  (v, mkServer (port sv) (httpServer sv) v (srv_clients sv)).

(** The part of [handleWebSocket] that admits a connection: a fresh
    [ClientConn] with the next identifier, stored under it. *)
Definition accept (conn : websocket.Conn) : M loc :=
  sv <- getServer ;;
  let '(newID, sv1) := nextID_Add1 sv in
  w <- (λ w, Some (w, w)) ;;
  let client := fresh (dom (clients w)) in
  putClient client (ClientConn.mk newID conn false) ;;;
  putServer (mkServer (port sv1) (httpServer sv1) (nextID sv1)
               (<[newID := client]> (srv_clients sv1))) ;;;
  ret client.

Inductive ReadLoopEnd : Type :=
| ReadFailed                    (* ReadMessage returned an error *)
| ReadWaiting                   (* blocked in ReadMessage *)
| ReadOutOfFuel.

Definition call1 (f : option (loc → M unit)) (c : loc) : M unit :=
  match f with Some fn => fn c | None => ret tt end.

(** The [for] loop of [handleClient], for at most [fuel] turns. *)
Fixpoint readLoop (cb : Callbacks) (fuel : nat) (client : loc) : M ReadLoopEnd :=
  match fuel with
  | O => ret ReadOutOfFuel
  | S fuel' =>
      cc <- getClient client ;;
      match websocket.ReadMessage (ClientConn.conn cc) with
      | None => ret ReadWaiting
      | Some (res, ws) =>
          putClient client (ClientConn.mk (ClientConn.ID cc) ws (ClientConn.closed cc)) ;;;
          match res with
          | websocket.ReadErr _ => ret ReadFailed
          | websocket.Frame msgType msg =>
              if decide (msgType ≠ websocket.TextMessage)
              then readLoop cb fuel' client
              else
                match onMessage cb with
                | Some fn => fn client msg
                | None => ret tt
                end ;;;
                readLoop cb fuel' client
          end
      end
  end.

(** [handleClient(client)]: the loop, then the deferred function when the
    loop returns. *)
Definition handleClient (cb : Callbacks) (fuel : nat) (client : loc) : M ReadLoopEnd :=
  e <- readLoop cb fuel client ;;
  match e with
  | ReadFailed =>
      cc <- getClient client ;;
      sv <- getServer ;;
      putServer (mkServer (port sv) (httpServer sv) (nextID sv)
                   (delete (ClientConn.ID cc) (srv_clients sv))) ;;;
      _ <- onClient client ClientConn.Close ;;
      call1 (onClose cb) client ;;;
      ret e
  | _ => ret e
  end.

(** [handleWebSocket(w, r)]; [upgrade] is what [upgrader.Upgrade] returns. *)
Definition handleWebSocket (cb : Callbacks) (fuel : nat)
    (upgrade : string + websocket.Conn) : M (option (loc * ReadLoopEnd)) :=
  match upgrade with
  | inl _ => ret None
  | inr conn =>
      client <- accept conn ;;
      call1 (onConnect cb) client ;;;
      e <- handleClient cb fuel client ;;
      ret (Some (client, e))
  end.

(** [Start()]; [listen] is the error of [net.Listen], if any. *)
Definition Start (listen : option string) : M (option string) :=
  sv <- getServer ;;
  match listen with
  | Some e =>
      ret (Some ("failed to listen on port " +:+ decimal (port sv) +:+ ": " +:+ e))
  | None =>
      putServer (mkServer (port sv) true (nextID sv) (srv_clients sv)) ;;;
      ret None
  end.

(** [Stop(ctx)]: closes every stored client, then shuts the listener down;
    [shutdown] is what [httpServer.Shutdown(ctx)] returns. *)
Definition Stop (shutdown : option string) : M (option string) :=
  sv <- getServer ;;
  if negb (httpServer sv) then ret None
  else
    foldr (λ kv rest, _ <- onClient kv.2 ClientConn.Close ;; rest)
          (ret tt) (map_to_list (srv_clients sv)) ;;;
    ret shutdown.

(** The identifiers given to a sequence of requests, in the order in which
    their handlers reach [nextID.Add(1)]. *)
Fixpoint assignedIDs (upgrades : list (string + websocket.Conn)) : M (list Z) :=
  match upgrades with
  | [] => ret []
  | inl _ :: rest => assignedIDs rest
  | inr conn :: rest =>
      client <- accept conn ;;
      cc <- getClient client ;;
      ids <- assignedIDs rest ;;
      ret (ClientConn.ID cc :: ids)
  end.

(** A server that has just been created: [nextID] is zero. *)
Definition newWorld (hl : bool) : World :=
  mkWorld ∅ ∅ (mkRouter ∅ hl) (mkServer 9515 false 0 ∅) [].

(** The payload of the close notification. *)
Definition closePayload : string :=
  websocket.FormatCloseMessage websocket.CloseNormalClosure EmptyString.

(** The events of a full close sequence on a transport: the close
    notification, whatever its fate, then the close of the transport. *)
Definition closeEvents (ws : websocket.Conn) : list Event :=
  [EvWrite (websocket.id ws) websocket.CloseMessage closePayload
     (websocket.answer (websocket.writes ws));
   EvSockClose (websocket.id ws)].

(** What a send leaves of a transport: the peer's answer to the write is
    consumed, nothing else changes. *)
Definition afterWrite (ws : websocket.Conn) : websocket.Conn :=
  websocket.mkConn (websocket.id ws) (websocket.reads ws)
    (tail (websocket.writes ws)) (websocket.closes ws).

(** A client channel whose first write fails and whose second succeeds. *)
Definition flakyConn : websocket.Conn :=
  websocket.mkConn 7 [] [Some "broken pipe"; None] [].

(** * Vocabulary of the statements

    ** Client identifiers *)

(** The identifiers drawn by [k] successive [nextID.Add(1)] from counter
    value [n]. *)
Fixpoint idsFrom (n : Z) (k : nat) : list Z :=
  match k with
  | O => []
  | S k' => let v := ((n + 1) mod uint64_modulus)%Z in v :: idsFrom v k'
  end.

Definition accepted (u : string + websocket.Conn) : bool :=
  match u with inr _ => true | inl _ => false end.

Definition countAccepted (upgrades : list (string + websocket.Conn)) : nat :=
  length (filter (λ u, accepted u = true) upgrades).

(** A transport on which nothing happens. *)
Definition quietConn (i : nat) : websocket.Conn := websocket.mkConn i [] [] [].

(** A client channel and an engine channel on the flaky transport. *)
Definition flakyClient : ClientConn.t := ClientConn.mk 1 flakyConn false.
Definition flakyEngine : Connection.t := Connection.mk flakyConn false.

(** ** The relay loop *)

Ltac run :=
  repeat progress
    (unfold bind, ret, panic, getSession, putSession, getClient, putClient, emit,
       onClient, onSession, getRouter, putSessions, getServer, putServer;
     cbn [clients heap router server trace fst snd]).

(** The store after a turn of the relay that received something: the
    engine channel has moved on to [b'], the client channel is [cc'], and
    [evs] happened. *)
Definition afterTurn (w : World) (s : loc) (session : BrowserSession.t)
    (b' : Connection.t) (cc' : ClientConn.t) (evs : list Event) : World :=
  mkWorld (<[BrowserSession.Client session := cc']> (clients w))
          (<[s := BrowserSession.set_BidiConn b' session]> (heap w))
          (router w) (server w) (trace w ++ evs).

Definition afterReceive (w : World) (s : loc) (session : BrowserSession.t)
    (b' : Connection.t) : World :=
  mkWorld (clients w) (<[s := BrowserSession.set_BidiConn b' session]> (heap w))
          (router w) (server w) (trace w).

(** ** A live session, for the examples *)
Definition engineConn (reads : list websocket.ReadResult) : websocket.Conn :=
  websocket.mkConn 20 reads [] [].

Definition demoLaunch : browser.LaunchResult :=
  browser.mkLaunchResult "ws://127.0.0.1:9222/session" 5.

Definition liveSession (reads : list websocket.ReadResult) : BrowserSession.t :=
  BrowserSession.mk (Some demoLaunch) (Some (Connection.mk (engineConn reads) false))
    0 false false.

(** Client 1 at address 0, its session at address 0, registered;
    [fromClient] and [fromEngine] are what the two peers will deliver. *)
Definition liveWorldWith (fromClient fromEngine : list websocket.ReadResult) : World :=
  mkWorld {[ 0 := ClientConn.mk 1 (websocket.mkConn 10 fromClient [] []) false ]}
          {[ 0 := liveSession fromEngine ]}
          (mkRouter {[ 1%Z := 0 ]} true) (mkServer 9515 true 1 {[ 1%Z := 0 ]}) [].

Definition liveWorld (reads : list websocket.ReadResult) : World :=
  liveWorldWith [] reads.

Definition noCallbacks : Callbacks := mkCallbacks None None None.

(** Peers that begin with a binary frame. *)
Definition binFromClient : list websocket.ReadResult :=
  [websocket.Frame websocket.BinaryMessage "bin"; websocket.ReadErr "EOF"].
Definition binFromEngine : list websocket.ReadResult :=
  [websocket.Frame websocket.BinaryMessage "x"; websocket.Frame websocket.TextMessage "b"].
Definition binaryWorld : World := liveWorldWith binFromClient binFromEngine.

(** ** Frames that are not text *)

(** The store after the client's transport has delivered one frame. *)
Definition afterClientRead (w : World) (client : loc) (cc : ClientConn.t)
    (rest : list websocket.ReadResult) : World :=
  mkWorld (<[client := ClientConn.mk (ClientConn.ID cc)
                         (websocket.mkConn (websocket.id (ClientConn.conn cc)) rest
                            (websocket.writes (ClientConn.conn cc))
                            (websocket.closes (ClientConn.conn cc)))
                         (ClientConn.closed cc)]> (clients w))
          (heap w) (router w) (server w) (trace w).

Definition afterEngineRead (b : Connection.t) (rest : list websocket.ReadResult)
    : Connection.t :=
  Connection.mk (websocket.mkConn (websocket.id (Connection.conn b)) rest
                   (websocket.writes (Connection.conn b))
                   (websocket.closes (Connection.conn b)))
                (Connection.closed b).

(** ** Failing to establish a session *)

(** The text frames written to transport [conn] in a trace. *)
Definition textFramesTo (conn : nat) (tr : list Event) : list string :=
  omap (λ ev, match ev with
              | EvWrite c ty data _ =>
                  if decide (c = conn ∧ ty = websocket.TextMessage) then Some data else None
              | _ => None
              end) tr.

(** When [OnClientConnect] cannot establish a session: what happens between
    the launch and the error frame, and the frame. *)
Definition connectFailure (launch : string + browser.LaunchResult)
    (dial : string + websocket.Conn) : option (list Event * string) :=
  match launch with
  | inl e => Some ([], errorFrame "Failed to launch browser: " e)
  | inr lr =>
      match dial with
      | inl e =>
          Some ([EvDial (browser.WebSocketURL lr); EvLaunchClose (browser.proc lr)],
                errorFrame "Failed to connect to browser: "
                  ("failed to connect to " +:+ browser.WebSocketURL lr +:+ ": " +:+ e))
      | inr _ => None
      end
  end.

(** The client channel after the error frame and the close. *)
Definition refused (cc : ClientConn.t) (frame : string) : ClientConn.t :=
  (ClientConn.Close (ClientConn.Send cc frame).1.2).1.2.

Definition refusedEvents (cc : ClientConn.t) (frame : string) : list Event :=
  (ClientConn.Send cc frame).2 ++ (ClientConn.Close (ClientConn.Send cc frame).1.2).2.

(** The server stops while a connection is being set up: the handler has
    stored the new client, [Stop] closes it, then [onConnect] runs and the
    launch fails. *)
Definition stopDuringConnect : M unit :=
  Start None ;;;
  client <- accept (quietConn 10) ;;
  Stop None ;;;
  OnClientConnect (inl "port in use") (inl "unused") client.

(** A client whose channel is open, nothing registered. *)
Definition connectingWorld (alreadyClosed : bool) : World :=
  mkWorld {[ 0 := ClientConn.mk 1 (quietConn 10) alreadyClosed ]} ∅
          (mkRouter ∅ true) (mkServer 9515 true 1 {[ 1%Z := 0 ]}) [].

(** ** Teardown *)

(** The body of [closeSession] on a session whose stop channel is open: the
    session it leaves and the actions it performs, in order. *)
Definition teardownBody (me : loc) (v : BrowserSession.t)
    : BrowserSession.t * list Event :=
  let v2 := BrowserSession.set_stopChan true v in
  let '(v3, e3) := BrowserSession.closeBidi v2 in
  let '(v4, e4) := BrowserSession.closeBrowser v3 in
  (v4, [EvStop me] ++ e3 ++ e4).

(** The whole of [closeSession] on the session object. *)
Definition torn (me : loc) (v : BrowserSession.t) : BrowserSession.t * list Event :=
  if BrowserSession.closed v then (v, [])
  else teardownBody me (BrowserSession.set_closed true v).

(** A session is consistent when its stop channel is closed only after the
    session has been marked closed. *)
Definition consistent (v : BrowserSession.t) : Prop :=
  BrowserSession.closed v = false → BrowserSession.stopChan v = false.

(** What a trace holds of each release step. *)
Definition stops (tr : list Event) : list loc :=
  omap (λ ev, match ev with EvStop s => Some s | _ => None end) tr.
Definition sockCloses (tr : list Event) : list nat :=
  omap (λ ev, match ev with EvSockClose c => Some c | _ => None end) tr.
Definition launchCloses (tr : list Event) : list nat :=
  omap (λ ev, match ev with EvLaunchClose p => Some p | _ => None end) tr.

(** ** Concurrent callers of [closeSession]

    Any number of goroutines call [closeSession] on one session, any number
    of times each (from [OnClientDisconnect], from [CloseAll], from anywhere).
    A caller advances by the atomic parts of the function: the guard under
    the session's mutex, [close(stopChan)], [BidiConn.Close()] under the
    channel's mutex, [LaunchResult.Close()].  The scheduler interleaves the
    callers at will. *)
Module Teardown.

Inductive pc : Type :=
| Idle          (* outside the function: may call it *)
| AtSignal      (* past the guard, before close(stopChan) *)
| AtBidi        (* before BidiConn.Close() *)
| AtBrowser.    (* before LaunchResult.Close() *)

(** A caller: where it is, how many calls it has made, how many times it
    has run the body to its end. *)
Record thread : Type := mkThread {
  at_pc : pc;
  calls : nat;
  bodies : nat
}.

(** What the callers share: the session and the trace. *)
Definition Shared : Type := BrowserSession.t * list Event.

(** One atomic step of a caller; [None] is a panic. *)
Definition thread_step (me : loc) (th : thread) (st : Shared)
    : option (thread * Shared) :=
  match at_pc th with
  | Idle =>
      let '(go, v') := BrowserSession.guard st.1 in
      Some (mkThread (if go then AtSignal else Idle) (S (calls th)) (bodies th),
            (v', st.2))
  | AtSignal =>
      match BrowserSession.signal me st.1 with
      | None => None
      | Some (v', evs) => Some (mkThread AtBidi (calls th) (bodies th), (v', st.2 ++ evs))
      end
  | AtBidi =>
      let '(v', evs) := BrowserSession.closeBidi st.1 in
      Some (mkThread AtBrowser (calls th) (bodies th), (v', st.2 ++ evs))
  | AtBrowser =>
      let '(v', evs) := BrowserSession.closeBrowser st.1 in
      Some (mkThread Idle (calls th) (S (bodies th)), (v', st.2 ++ evs))
  end.

(** The scheduler picks a caller and lets it take one step. *)
Inductive step (me : loc) : Shared * list thread → Shared * list thread → Prop :=
| step_thread st st' l1 th th' l2 :
    thread_step me th st = Some (th', st') →
    step me (st, l1 ++ th :: l2) (st', l1 ++ th' :: l2).

(** [n] callers, none of which has called yet. *)
Definition initial (v0 : BrowserSession.t) (n : nat) : Shared * list thread :=
  ((v0, []), replicate n (mkThread Idle 0 0)).

(** One call, by a caller left alone, from the guard to the return. *)
Definition callAlone (me : loc) (st : Shared) : option Shared :=
  '(th1, st1) ← thread_step me (mkThread Idle 0 0) st;
  match at_pc th1 with
  | Idle => Some st1
  | _ =>
      '(th2, st2) ← thread_step me th1 st1;
      '(th3, st3) ← thread_step me th2 st2;
      '(th4, st4) ← thread_step me th3 st3;
      Some st4
  end.

(** The shared state after [k] atomic steps of the one execution of the
    body, on a session that starts open. *)
Definition stage (me : loc) (v0 : BrowserSession.t) (k : nat) : Shared :=
  let v1 := BrowserSession.set_closed true v0 in
  let v2 := BrowserSession.set_stopChan true v1 in
  match k with
  | 0 => (v0, [])
  | 1 => (v1, [])
  | 2 => (v2, [EvStop me])
  | 3 => let '(v3, e3) := BrowserSession.closeBidi v2 in (v3, [EvStop me] ++ e3)
  | _ => teardownBody me v1
  end.

(** How far a caller has carried the body. *)
Definition progress (th : thread) : nat :=
  match at_pc th with Idle => 0 | AtSignal => 1 | AtBidi => 2 | AtBrowser => 3 end
  + 4 * bodies th.

Definition total (ths : list thread) : nat := sum_list_with progress ths.

(** The invariant: the shared state is a stage of one single execution of
    the body, and that execution is carried by one caller. *)
Definition inv (me : loc) (v0 : BrowserSession.t) (cfg : Shared * list thread) : Prop :=
  total cfg.2 ≤ 4
  ∧ cfg.1 = stage me v0 (total cfg.2)
  ∧ Forall (λ th, progress th = 0 ∨ progress th = total cfg.2) cfg.2
  ∧ (total cfg.2 = 0 → Forall (λ th, calls th = 0) cfg.2).

End Teardown.

(** The actions of the two release steps on the resources of a session. *)
Definition bidiRelease (v : BrowserSession.t) : list Event :=
  match BrowserSession.BidiConn v with
  | None => []
  | Some b => (Connection.Close b).2
  end.

Definition browserRelease (v : BrowserSession.t) : list Event :=
  match BrowserSession.LaunchResult v with
  | None => []
  | Some l => [EvLaunchClose (browser.proc l)]
  end.

(** Two callers race on a live session: the first passes the guard, the
    second arrives and returns, the first runs the body to its end. *)
Definition raceEnd : Teardown.Shared * list Teardown.thread :=
  (torn 0 (liveSession []),
   [Teardown.mkThread Teardown.Idle 1 1; Teardown.mkThread Teardown.Idle 1 0]).

(** * Further vocabulary

    ** Sessions as [OnClientConnect] makes them *)

(** The session [OnClientConnect] stores when the launch and the dial have
    succeeded. *)
Definition newSession (lr : browser.LaunchResult) (ws : websocket.Conn) (client : loc)
    : BrowserSession.t :=
  BrowserSession.mk (Some lr) (Some (Connection.mk ws false)) client false false.

(** The store after a successful [OnClientConnect]. *)
Definition connected (w : World) (cc : ClientConn.t) (client : loc)
    (lr : browser.LaunchResult) (ws : websocket.Conn) : World :=
  let s := fresh (dom (heap w)) in
  mkWorld (clients w) (<[s := newSession lr ws client]> (heap w))
          (mkRouter (<[ClientConn.ID cc := s]> (sessions (router w))) (headless (router w)))
          (server w)
          (trace w ++ [EvLaunch (headless (router w)); EvDial (browser.WebSocketURL lr);
                       EvGo s]).

(** ** Relaying in order *)

(** The text frames [msgs], as the transport delivers them. *)
Definition textFrames (msgs : list string) : list websocket.ReadResult :=
  websocket.Frame websocket.TextMessage <$> msgs.

(** The relay of session [s] can run: the session is live (not marked
    closed, stop channel open), the engine channel is open and will deliver
    [fromEngine], the client channel (at [c], on transport [cid]) is open and
    its transport accepts every write. *)
Definition relayReady (w : World) (s c : loc) (cid : nat)
    (fromEngine : list websocket.ReadResult) : Prop :=
  ∃ session b cc,
    heap w !! s = Some session
    ∧ BrowserSession.closed session = false
    ∧ BrowserSession.stopChan session = false
    ∧ BrowserSession.Client session = c
    ∧ BrowserSession.BidiConn session = Some b
    ∧ Connection.closed b = false
    ∧ websocket.reads (Connection.conn b) = fromEngine
    ∧ clients w !! c = Some cc
    ∧ ClientConn.closed cc = false
    ∧ websocket.id (ClientConn.conn cc) = cid
    ∧ Forall (λ o, o = None) (websocket.writes (ClientConn.conn cc)).

(** The forwarding of [msgs] to transport [cid], as it shows in the trace. *)
Definition forwards (cid : nat) (msgs : list string) : list Event :=
  (λ m, EvWrite cid websocket.TextMessage m None) <$> msgs.

(** Frames of any type, as the transport delivers them. *)
Definition framesOf (l : list (Z * string)) : list websocket.ReadResult :=
  (λ f, websocket.Frame f.1 f.2) <$> l.

(** The payloads of the text frames among [l], in order. *)
Definition textsOf (l : list (Z * string)) : list string :=
  omap (λ f, if decide (f.1 = websocket.TextMessage) then Some f.2 else None) l.

(** The client at [client] has a live session [s] whose engine channel is
    open on transport [bid]; the client's transport will deliver
    [fromClient]. *)
Definition forwardReady (w : World) (client s : loc) (bid : nat)
    (fromClient : list websocket.ReadResult) : Prop :=
  ∃ cc session b,
    clients w !! client = Some cc
    ∧ websocket.reads (ClientConn.conn cc) = fromClient
    ∧ sessions (router w) !! ClientConn.ID cc = Some s
    ∧ heap w !! s = Some session
    ∧ BrowserSession.closed session = false
    ∧ BrowserSession.BidiConn session = Some b
    ∧ Connection.closed b = false
    ∧ websocket.id (Connection.conn b) = bid.

(** Text writes of [payloads] on transport [bid], with the answers they
    got. *)
Definition writesOf (bid : nat) (payloads : list string) (answers : list (option string))
    : list Event :=
  zip_with (λ p a, EvWrite bid websocket.TextMessage p a) payloads answers.

(** ** The router behind the server *)

(** The callbacks that put the router behind the server: each event of the
    acceptor goes to the router method made for it.  [launch] and [dial] are
    what the launcher and the dialer will answer to [OnClientConnect]. *)
Definition routerCallbacks (launch : string + browser.LaunchResult)
    (dial : string + websocket.Conn) : Callbacks :=
  mkCallbacks (Some (OnClientConnect launch dial)) (Some OnClientMessage)
              (Some OnClientDisconnect).

(** Frames of a client that sends two messages around a binary frame. *)
Definition chatter : list (Z * string) :=
  [(websocket.TextMessage, "x"); (websocket.BinaryMessage, "bin");
   (websocket.TextMessage, "y")].

(** ** Closing every session *)

(** The visit of [CloseAll] to the entries [l]: tear the session down, delete
    its key, go on. *)
Definition closeEach (l : list (Z * loc)) : M unit :=
  foldr (λ kv rest,
           closeSession kv.2 ;;;
           r' <- getRouter ;;
           putSessions (delete kv.1 (sessions r')) ;;;
           rest)
        (ret tt) l.

(** Every session of the store is consistent. *)
Definition allConsistent (w : World) : Prop :=
  ∀ s v, heap w !! s = Some v → consistent v.

(** Session [s] exists and is still open. *)
Definition openIn (w : World) (s : loc) : Prop :=
  ∃ v, heap w !! s = Some v ∧ BrowserSession.closed v = false.

(** ** The end of a client connection *)

(** A client channel after its transport has delivered one result. *)
Definition afterRead (cc : ClientConn.t) (rest : list websocket.ReadResult)
    : ClientConn.t :=
  ClientConn.mk (ClientConn.ID cc)
    (websocket.mkConn (websocket.id (ClientConn.conn cc)) rest
       (websocket.writes (ClientConn.conn cc)) (websocket.closes (ClientConn.conn cc)))
    (ClientConn.closed cc).

(** The server without the entry of identifier [i]. *)
Definition forget (i : Z) (sv : Server) : Server :=
  mkServer (port sv) (httpServer sv) (nextID sv) (delete i (srv_clients sv)).

(** ** Stopping the server *)

(** The visit of [Stop] to the stored clients [l]. *)
Definition closeClients (l : list (Z * loc)) : M unit :=
  foldr (λ kv rest, _ <- onClient kv.2 ClientConn.Close ;; rest) (ret tt) l.

(** The actions of closing channels: close notifications and transport
    closes, no text frame. *)
Definition closingOnly (evs : list Event) : Prop :=
  Forall (λ ev, match ev with
                | EvWrite _ ty _ _ => ty = websocket.CloseMessage
                | EvSockClose _ => True
                | _ => False
                end) evs.

(** ** A refused client, through the server *)

(** The identifier the next accepted client gets. *)
Definition upcomingID (w : World) : Z :=
  ((nextID (server w) + 1) mod uint64_modulus)%Z.

(** The store after [handleWebSocket] has admitted [conn]. *)
Definition admitted (w : World) (conn : websocket.Conn) : World :=
  mkWorld (<[fresh (dom (clients w)) := ClientConn.mk (upcomingID w) conn false]> (clients w))
          (heap w) (router w)
          (mkServer (port (server w)) (httpServer (server w)) (upcomingID w)
             (<[upcomingID w := fresh (dom (clients w))]> (srv_clients (server w))))
          (trace w).

(** ** Creating the server *)

(** A server being configured: the fields of [Server] that the acceptor
    keeps, and its three callbacks. *)
Definition ServerOption : Type := Server * Callbacks → Server * Callbacks.

Definition WithPort (p : Z) : ServerOption :=
  λ s, (mkServer p (httpServer s.1) (nextID s.1) (srv_clients s.1), s.2).

Definition WithOnConnect (fn : option (loc → M unit)) : ServerOption :=
  λ s, (s.1, mkCallbacks fn (onMessage s.2) (onClose s.2)).

Definition WithOnMessage (fn : option (loc → string → M unit)) : ServerOption :=
  λ s, (s.1, mkCallbacks (onConnect s.2) fn (onClose s.2)).

Definition WithOnClose (fn : option (loc → M unit)) : ServerOption :=
  λ s, (s.1, mkCallbacks (onConnect s.2) (onMessage s.2) fn).

(** [NewServer(opts...)] *)
Definition NewServer (opts : list ServerOption) : Server * Callbacks :=
  foldl (λ s opt, opt s) (mkServer 9515 false 0 ∅, mkCallbacks None None None) opts.

(** [Port()] *)
Definition Port (s : Server * Callbacks) : Z := port s.1.

(** The options a caller can write. *)
Inductive Setting : Type :=
| SetPort (p : Z)
| SetOnConnect (fn : option (loc → M unit))
| SetOnMessage (fn : option (loc → string → M unit))
| SetOnClose (fn : option (loc → M unit)).

Definition optionOf (o : Setting) : ServerOption :=
  match o with
  | SetPort p => WithPort p
  | SetOnConnect fn => WithOnConnect fn
  | SetOnMessage fn => WithOnMessage fn
  | SetOnClose fn => WithOnClose fn
  end.

(** The values the settings of each kind give, in order. *)
Definition portsOf (l : list Setting) : list Z :=
  omap (λ o, match o with SetPort p => Some p | _ => None end) l.
Definition connectsOf (l : list Setting) : list (option (loc → M unit)) :=
  omap (λ o, match o with SetOnConnect fn => Some fn | _ => None end) l.
Definition messagesOf (l : list Setting) : list (option (loc → string → M unit)) :=
  omap (λ o, match o with SetOnMessage fn => Some fn | _ => None end) l.
Definition closesOf (l : list Setting) : list (option (loc → M unit)) :=
  omap (λ o, match o with SetOnClose fn => Some fn | _ => None end) l.

(** * The tool handlers of the MCP server ([internal/mcp])

    [Handlers] keeps at most one browser session: the launched browser, the
    connection to its engine and the client built over that connection. *)
Module mcp.

(** The values of a [map[string]interface{}] of tool arguments. *)
Inductive Value : Type :=
| VBool (b : bool)
| VString (s : string)
| VNumber (z : Z)
| VNull.

Definition Args : Type := gmap string Value.

Record Content : Type := mkContent {
  Type_ : string;
  Text : string;
  Data : string;
  MimeType : string
}.

Record ToolsCallResult : Type := mkToolsCallResult {
  Contents : list Content
}.

(** A result made of one text. *)
Definition text (t : string) : ToolsCallResult :=
  mkToolsCallResult [mkContent "text" t "" ""].

(** [bidi.NewClient(conn)].  The client keeps the pointer to the connection
    it is given; the pointer is identified by the transport of the
    connection.  The constructor belongs to a file that is not among the
    sources: only the pointer it keeps is modelled. *)
Record Client : Type := mkClient {
  client_conn : nat
}.

Definition NewClient (c : Connection.t) : Client :=
  mkClient (websocket.id (Connection.conn c)).

Record Handlers : Type := mkHandlers {
  launchResult : option browser.LaunchResult;
  client : option Client;
  conn : option Connection.t;
  screenshotDir : string
}.

Definition NewHandlers (dir : string) : Handlers := mkHandlers None None None dir.

(** [Close()] *)
Definition Close (h : Handlers) : Handlers * list Event :=
  let ev1 := match conn h with
             | Some c => (Connection.Close c).2
             | None => []
             end in
  let ev2 := match launchResult h with
             | Some lr => browser.Close lr
             | None => []
             end in
  (mkHandlers None None None (screenshotDir h), ev1 ++ ev2).

(** [fmt.Sprintf("%v", b)] *)
Definition showBool (b : bool) : string := if b then "true" else "false".

(** [args["headless"].(bool)], with the default of [browserLaunch]. *)
Definition headlessOf (args : Args) : bool :=
  match args !! "headless" with
  | Some (VBool val) => val
  | _ => false
  end.

(** [browserLaunch(args)]; [launch] is what [browser.Launch] returns to this
    call and [dial] what the dialer returns inside [bidi.Connect]. *)
Definition browserLaunch (launch : string + browser.LaunchResult)
    (dial : string + websocket.Conn) (args : Args) (h : Handlers)
    : (string + ToolsCallResult) * Handlers * list Event :=
  let '(h0, ev0) := Close h in
  let headless := headlessOf args in
  match launch with
  | inl err =>
      (inl ("failed to launch browser: " +:+ err), h0, ev0 ++ [EvLaunch headless])
  | inr lr =>
      let '(res, evs) := Connection.Connect dial (browser.WebSocketURL lr) in
      match res with
      | inl err =>
          (inl ("failed to connect to browser: " +:+ Error err), h0,
           ev0 ++ [EvLaunch headless] ++ evs ++ browser.Close lr)
      | inr c =>
          (inr (text ("Browser launched (headless: " +:+ showBool headless +:+ ")")),
           mkHandlers (Some lr) (Some (NewClient c)) (Some c) (screenshotDir h0),
           ev0 ++ [EvLaunch headless] ++ evs)
      end
  end.

(** [browserQuit(args)] *)
Definition browserQuit (args : Args) (h : Handlers)
    : (string + ToolsCallResult) * Handlers * list Event :=
  match launchResult h with
  | None => (inr (text "No browser session to close"), h, [])
  | Some _ =>
      let '(h', evs) := Close h in
      (inr (text "Browser session closed"), h', evs)
  end.

(** [ensureBrowser()] *)
Definition ensureBrowser (h : Handlers) : option string :=
  match client h with
  | None => Some "no browser session. Call browser_launch first"
  | Some _ => None
  end.

(** The calls that begin and end sessions, as the owner of the handlers
    makes them. *)
Inductive Op : Type :=
| OpLaunch (launch : string + browser.LaunchResult) (dial : string + websocket.Conn)
           (args : Args)
| OpQuit (args : Args)
| OpClose.

Definition step (op : Op) (h : Handlers) : Handlers * list Event :=
  match op with
  | OpLaunch launch dial args =>
      let '(_, h', evs) := browserLaunch launch dial args h in (h', evs)
  | OpQuit args =>
      let '(_, h', evs) := browserQuit args h in (h', evs)
  | OpClose => Close h
  end.

(** A sequence of such calls, one after the other. *)
Fixpoint run (ops : list Op) (h : Handlers) : Handlers * list Event :=
  match ops with
  | [] => (h, [])
  | op :: rest =>
      let '(h1, ev1) := step op h in
      let '(h2, ev2) := run rest h1 in
      (h2, ev1 ++ ev2)
  end.

(** The browsers the launcher has handed out during [ops], in order. *)
Definition launched (ops : list Op) : list nat :=
  omap (λ op, match op with
              | OpLaunch (inr lr) _ _ => Some (browser.proc lr)
              | _ => None
              end) ops.

(** The transports the dialer has handed out during [ops], in order. *)
Definition dialed (ops : list Op) : list nat :=
  omap (λ op, match op with
              | OpLaunch (inr _) (inr ws) _ => Some (websocket.id ws)
              | _ => None
              end) ops.

(** The browser and the transport the handlers hold. *)
Definition heldBrowser (h : Handlers) : list nat :=
  match launchResult h with Some lr => [browser.proc lr] | None => [] end.

Definition heldTransport (h : Handlers) : list nat :=
  match conn h with Some c => [websocket.id (Connection.conn c)] | None => [] end.

(** No session at all. *)
Definition idle (h : Handlers) : Prop :=
  launchResult h = None ∧ client h = None ∧ conn h = None.

(** A whole session: a browser, an open connection to it and the client
    over that connection. *)
Definition inSession (h : Handlers) : Prop :=
  ∃ lr c, launchResult h = Some lr ∧ conn h = Some c ∧ client h = Some (NewClient c)
          ∧ Connection.closed c = false.

(** The handlers hold a whole session or none. *)
Definition coherent (h : Handlers) : Prop := idle h ∨ inSession h.

End mcp.

(** * The browsing-context commands of the BiDi client ([internal/bidi]) *)
Module BrowsingContext.

#[warnings="-register-all"]
Inductive BrowsingContextInfo : Type :=
| mkBrowsingContextInfo (context url : string) (children : list BrowsingContextInfo)
                        (parent : string).

Definition Context (i : BrowsingContextInfo) : string :=
  match i with mkBrowsingContextInfo c _ _ _ => c end.

Definition URL (i : BrowsingContextInfo) : string :=
  match i with mkBrowsingContextInfo _ u _ _ => u end.

Record GetTreeResult : Type := mkGetTreeResult {
  Contexts : list BrowsingContextInfo
}.

Record NavigateResult : Type := mkNavigateResult {
  Navigation : string;
  NavigateURL : string
}.

Record CaptureScreenshotResult : Type := mkCaptureScreenshotResult {
  Data : string
}.

(** The [params] of a command: a [map[string]interface{}] whose values are
    strings here. *)
Definition Params : Type := gmap string string.

Section Commands.

(** [json.RawMessage] and [json.Unmarshal] into each of the result types
    belong to the standard library of the language: the statements hold for
    every decoder. *)
Variable RawMessage : Type.
Variable unmarshalTree : RawMessage → string + GetTreeResult.
Variable unmarshalNavigate : RawMessage → string + NavigateResult.
Variable unmarshalScreenshot : RawMessage → string + CaptureScreenshotResult.

(** The client, as these methods see it.  [SendCommand] belongs to a file
    that is not among the sources: it is modelled by what it shows here, a
    call that takes a method and parameters and returns the [Result] of the
    reply or an error.  [replies] is what the coming calls will return and
    [sent] the commands issued so far; with no reply left the call blocks. *)
Record Client : Type := mkClient {
  replies : list (string + RawMessage);
  sent : list (string * Params)
}.

Definition SendCommand (c : Client) (method : string) (params : Params)
    : option ((string + RawMessage) * Client) :=
  match replies c with
  | [] => None
  | r :: rs => Some (r, mkClient rs (sent c ++ [(method, params)]))
  end.

(** [GetTree()] *)
Definition GetTree (c : Client) : option ((string + GetTreeResult) * Client) :=
  match SendCommand c "browsingContext.getTree" ∅ with
  | None => None
  | Some (inl err, c') => Some (inl err, c')
  | Some (inr result, c') =>
      match unmarshalTree result with
      | inl err =>
          Some (inl ("failed to parse browsingContext.getTree result: " +:+ err), c')
      | inr result => Some (inr result, c')
      end
  end.

(** [Navigate(context, url)] *)
Definition Navigate (c : Client) (context url : string)
    : option ((string + NavigateResult) * Client) :=
  match (if decide (context = "") then
           match GetTree c with
           | None => None
           | Some (inl err, c1) =>
               Some (inl ("failed to get browsing context: " +:+ err), c1)
           | Some (inr tree, c1) =>
               match Contexts tree with
               | [] => Some (inl "no browsing contexts available", c1)
               | first :: _ => Some (inr (Context first), c1)
               end
           end
         else Some (inr context, c)) with
  | None => None
  | Some (inl err, c1) => Some (inl err, c1)
  | Some (inr context, c1) =>
      match SendCommand c1 "browsingContext.navigate"
              {[ "context" := context; "url" := url; "wait" := "complete" ]} with
      | None => None
      | Some (inl err, c2) => Some (inl err, c2)
      | Some (inr result, c2) =>
          match unmarshalNavigate result with
          | inl err =>
              Some (inl ("failed to parse browsingContext.navigate result: " +:+ err), c2)
          | inr result => Some (inr result, c2)
          end
      end
  end.

(** [GetCurrentURL()] *)
Definition GetCurrentURL (c : Client) : option ((string + string) * Client) :=
  match GetTree c with
  | None => None
  | Some (inl err, c1) => Some (inl err, c1)
  | Some (inr tree, c1) =>
      match Contexts tree with
      | [] => Some (inl "no browsing contexts available", c1)
      | first :: _ => Some (inr (URL first), c1)
      end
  end.

(** [CaptureScreenshot(context)] *)
Definition CaptureScreenshot (c : Client) (context : string)
    : option ((string + string) * Client) :=
  match (if decide (context = "") then
           match GetTree c with
           | None => None
           | Some (inl err, c1) =>
               Some (inl ("failed to get browsing context: " +:+ err), c1)
           | Some (inr tree, c1) =>
               match Contexts tree with
               | [] => Some (inl "no browsing contexts available", c1)
               | first :: _ => Some (inr (Context first), c1)
               end
           end
         else Some (inr context, c)) with
  | None => None
  | Some (inl err, c1) => Some (inl err, c1)
  | Some (inr context, c1) =>
      match SendCommand c1 "browsingContext.captureScreenshot"
              {[ "context" := context ]} with
      | None => None
      | Some (inl err, c2) => Some (inl err, c2)
      | Some (inr result, c2) =>
          match unmarshalScreenshot result with
          | inl err =>
              Some (inl ("failed to parse browsingContext.captureScreenshot result: "
                         +:+ err), c2)
          | inr result => Some (inr (Data result), c2)
          end
      end
  end.

(** The first browsing context a reply to [getTree] names, if the reply is
    a tree that has one. *)
Definition firstContext (reply : string + RawMessage) : option BrowsingContextInfo :=
  match reply with
  | inl _ => None
  | inr result =>
      match unmarshalTree result with
      | inl _ => None
      | inr tree => head (Contexts tree)
      end
  end.

(** The client after its next reply has answered a [getTree]. *)
Definition afterGetTree (c : Client) : Client :=
  mkClient (tail (replies c)) (sent c ++ [("browsingContext.getTree", ∅)]).

End Commands.

Arguments replies {RawMessage} _.
Arguments sent {RawMessage} _.
Arguments mkClient {RawMessage} _ _.
Arguments SendCommand {RawMessage} _ _ _.
Arguments GetTree {RawMessage} _ _.
Arguments Navigate {RawMessage} _ _ _ _ _.
Arguments GetCurrentURL {RawMessage} _ _.
Arguments CaptureScreenshot {RawMessage} _ _ _ _.
Arguments firstContext {RawMessage} _ _.
Arguments afterGetTree {RawMessage} _.

(** A decoder for the examples: the raw result is the list of contexts, or
    the URL reached, or the picture. *)
Inductive DemoRaw : Type :=
| RawTree (contexts : list BrowsingContextInfo)
| RawNavigate (navigation url : string)
| RawScreenshot (data : string).

Definition demoTree (r : DemoRaw) : string + GetTreeResult :=
  match r with
  | RawTree l => inr (mkGetTreeResult l)
  | _ => inr (mkGetTreeResult [])
  end.

Definition demoNavigate (r : DemoRaw) : string + NavigateResult :=
  match r with
  | RawNavigate n u => inr (mkNavigateResult n u)
  | _ => inr (mkNavigateResult "" "")
  end.

Definition demoScreenshot (r : DemoRaw) : string + CaptureScreenshotResult :=
  match r with
  | RawScreenshot d => inr (mkCaptureScreenshotResult d)
  | _ => inr (mkCaptureScreenshotResult "")
  end.

End BrowsingContext.

(** * Properties

    ** The message channels *)

(** The close notification carries status 1000 as two bytes. *)
Example close_frame_payload :
  websocket.FormatCloseMessage websocket.CloseNormalClosure EmptyString
  = String (Ascii.ascii_of_nat 3) (String (Ascii.ascii_of_nat 232) EmptyString).
Proof. reflexivity. Qed.

Section Channels.

Implicit Types (c : ClientConn.t) (b : Connection.t) (msg : string).

Lemma ClientConn_Close_closed c : ClientConn.closed (ClientConn.Close c).1.2 = true.
Proof. unfold ClientConn.Close. by destruct (ClientConn.closed c) eqn:E. Qed.

Lemma Connection_Close_closed b : Connection.closed (Connection.Close b).1.2 = true.
Proof. unfold Connection.Close. by destruct (Connection.closed b) eqn:E. Qed.

Lemma ClientConn_Close_again c :
  ClientConn.closed c = true → ClientConn.Close c = (None, c, []).
Proof. intros H. unfold ClientConn.Close. by rewrite H. Qed.

Lemma Connection_Close_again b :
  Connection.closed b = true → Connection.Close b = (None, b, []).
Proof. intros H. unfold Connection.Close. by rewrite H. Qed.

Lemma ClientConn_Send_closed c msg :
  ClientConn.closed (ClientConn.Send c msg).1.2 = ClientConn.closed c.
Proof. unfold ClientConn.Send. by destruct (ClientConn.closed c) eqn:E. Qed.

Lemma Connection_Send_closed b msg :
  Connection.closed (Connection.Send b msg).1.2 = Connection.closed b.
Proof. unfold Connection.Send. by destruct (Connection.closed b) eqn:E. Qed.

Lemma ClientConn_Send_ID c msg :
  ClientConn.ID (ClientConn.Send c msg).1.2 = ClientConn.ID c.
Proof. unfold ClientConn.Send. by destruct (ClientConn.closed c). Qed.

Lemma Connection_Receive_closed b r b' :
  Connection.Receive b = Some (r, b') → Connection.closed b' = Connection.closed b.
Proof.
  unfold Connection.Receive. destruct (Connection.closed b) eqn:E.
  - intros [= <- <-]. done.
  - destruct (websocket.ReadMessage _) as [[[ty p|e] ws]|]; [|naive_solver..].
    case_decide; naive_solver.
Qed.

Lemma wrap_not_closed o : websocket.wrap o ≠ Some ErrConnectionClosed.
Proof. by destruct o. Qed.

Lemma ClientConn_Send_ErrClosed c msg :
  (ClientConn.Send c msg).1.1 = Some ErrConnectionClosed ↔ ClientConn.closed c = true.
Proof.
  unfold ClientConn.Send. destruct (ClientConn.closed c); simpl; [done|].
  split; [|done]. intros H. by apply wrap_not_closed in H.
Qed.

Lemma Connection_Send_ErrClosed b msg :
  (Connection.Send b msg).1.1 = Some ErrConnectionClosed ↔ Connection.closed b = true.
Proof.
  unfold Connection.Send. destruct (Connection.closed b); simpl; [done|].
  split; [|done]. intros H. by apply wrap_not_closed in H.
Qed.

(** The flag after a history of calls: set exactly when a close is in it. *)
Lemma ClientConn_history c ops :
  ClientConn.closed (foldl ClientConn_apply c ops)
  = ClientConn.closed c || existsb is_close ops.
Proof.
  revert c. induction ops as [|o ops IH]; intros c; simpl.
  - by rewrite orb_false_r.
  - rewrite IH. destruct o; simpl.
    + by rewrite ClientConn_Send_closed.
    + by destruct (websocket.ReadMessage _) as [[? ?]|].
    + rewrite ClientConn_Close_closed. by rewrite orb_true_r.
Qed.

Lemma Connection_history b ops :
  Connection.closed (foldl Connection_apply b ops)
  = Connection.closed b || existsb is_close ops.
Proof.
  revert b. induction ops as [|o ops IH]; intros b; simpl.
  - by rewrite orb_false_r.
  - rewrite IH. destruct o; simpl.
    + by rewrite Connection_Send_closed.
    + destruct (Connection.Receive b) as [[r b']|] eqn:E; [|done].
      by rewrite (Connection_Receive_closed _ _ _ E).
    + rewrite Connection_Close_closed. by rewrite orb_true_r.
Qed.

Lemma existsb_is_close ops : existsb is_close ops = true ↔ OpClose ∈ ops.
Proof.
  rewrite existsb_exists. split.
  - intros (o & Hin & Ho). destruct o; try done. by apply list_elem_of_In.
  - intros Hin. exists OpClose. split; [by apply list_elem_of_In|done].
Qed.

End Channels.

Lemma ClientConn_Close_open i ws :
  ∃ r ws', ClientConn.Close (ClientConn.mk i ws false)
           = (r, ClientConn.mk i ws' true, closeEvents ws)
           ∧ websocket.id ws' = websocket.id ws ∧ websocket.reads ws' = websocket.reads ws.
Proof.
  unfold ClientConn.Close, closeEvents; simpl. eexists _, _. by split; [|split].
Qed.

Lemma Connection_Close_open ws :
  ∃ r ws', Connection.Close (Connection.mk ws false)
           = (r, Connection.mk ws' true, closeEvents ws)
           ∧ websocket.id ws' = websocket.id ws ∧ websocket.reads ws' = websocket.reads ws.
Proof.
  unfold Connection.Close, closeEvents; simpl. eexists _, _. by split; [|split].
Qed.

(** C9. Closing a message channel is idempotent, on the client side
    ([ClientConn.Close]) and on the engine side ([Connection.Close]): a second
    close returns no error, leaves the channel exactly as the first close left
    it, and performs no action, so the close notification is not sent again
    and the transport is not closed again. *)
Theorem Close_idempotent :
  (∀ c : ClientConn.t,
     ClientConn.Close (ClientConn.Close c).1.2 = (None, (ClientConn.Close c).1.2, []))
  ∧ (∀ b : Connection.t,
     Connection.Close (Connection.Close b).1.2 = (None, (Connection.Close b).1.2, [])).
Proof.
  split.
  - intros c. apply ClientConn_Close_again, ClientConn_Close_closed.
  - intros b. apply Connection_Close_again, Connection_Close_closed.
Qed.

Lemma ClientConn_Send_open i ws msg :
  ClientConn.Send (ClientConn.mk i ws false) msg
  = (websocket.wrap (websocket.answer (websocket.writes ws)),
     ClientConn.mk i (afterWrite ws) false,
     [EvWrite (websocket.id ws) websocket.TextMessage msg
        (websocket.answer (websocket.writes ws))]).
Proof. reflexivity. Qed.

Lemma Connection_Send_open ws msg :
  Connection.Send (Connection.mk ws false) msg
  = (websocket.wrap (websocket.answer (websocket.writes ws)),
     Connection.mk (afterWrite ws) false,
     [EvWrite (websocket.id ws) websocket.TextMessage msg
        (websocket.answer (websocket.writes ws))]).
Proof. reflexivity. Qed.

(** C10. A send that fails leaves the channel as it was, on both sides: only
    [Close] sets the closed flag.  After a failed send on an open channel the
    channel is still open (the transport has merely consumed the answer to the
    write), the next send is again handed to the transport, and the next
    close runs the whole close sequence.  A send returns the channel-closed
    error exactly when the channel is closed, that is, for a channel fresh
    from its constructor, exactly when a close is among the calls made on it
    before. *)
Theorem Send_failure_keeps_channel :
  (∀ (c : ClientConn.t) (msg : string),
     ClientConn.closed (ClientConn.Send c msg).1.2 = ClientConn.closed c
     ∧ ((ClientConn.Send c msg).1.1 = Some ErrConnectionClosed
        ↔ ClientConn.closed c = true))
  ∧ (∀ (i : Z) (ws : websocket.Conn) (ops : list ChanOp) (msg : string),
       (ClientConn.Send (foldl ClientConn_apply (ClientConn.mk i ws false) ops) msg).1.1
         = Some ErrConnectionClosed
       ↔ OpClose ∈ ops)
  ∧ (∀ (c : ClientConn.t) (msg : string) (e : error),
       ClientConn.closed c = false →
       (ClientConn.Send c msg).1.1 = Some e →
       let c' := (ClientConn.Send c msg).1.2 in
       c' = ClientConn.mk (ClientConn.ID c) (afterWrite (ClientConn.conn c)) false
       ∧ (∀ msg2, (ClientConn.Send c' msg2).2
                  = [EvWrite (websocket.id (ClientConn.conn c')) websocket.TextMessage msg2
                       (websocket.answer (websocket.writes (ClientConn.conn c')))])
       ∧ (ClientConn.Close c').2 = closeEvents (ClientConn.conn c')
       ∧ ClientConn.closed (ClientConn.Close c').1.2 = true)
  ∧ (∀ (b : Connection.t) (msg : string),
       Connection.closed (Connection.Send b msg).1.2 = Connection.closed b
       ∧ ((Connection.Send b msg).1.1 = Some ErrConnectionClosed
          ↔ Connection.closed b = true))
  ∧ (∀ (ws : websocket.Conn) (ops : list ChanOp) (msg : string),
       (Connection.Send (foldl Connection_apply (Connection.mk ws false) ops) msg).1.1
         = Some ErrConnectionClosed
       ↔ OpClose ∈ ops)
  ∧ (∀ (b : Connection.t) (msg : string) (e : error),
       Connection.closed b = false →
       (Connection.Send b msg).1.1 = Some e →
       let b' := (Connection.Send b msg).1.2 in
       b' = Connection.mk (afterWrite (Connection.conn b)) false
       ∧ (∀ msg2, (Connection.Send b' msg2).2
                  = [EvWrite (websocket.id (Connection.conn b')) websocket.TextMessage msg2
                       (websocket.answer (websocket.writes (Connection.conn b')))])
       ∧ (Connection.Close b').2 = closeEvents (Connection.conn b')
       ∧ Connection.closed (Connection.Close b').1.2 = true).
Proof.
  repeat apply conj.
  - intros c msg. split; [apply ClientConn_Send_closed|apply ClientConn_Send_ErrClosed].
  - intros i ws ops msg. rewrite ClientConn_Send_ErrClosed, ClientConn_history. simpl.
    apply existsb_is_close.
  - intros [i ws cl] msg e Hc _. simpl in Hc. subst cl.
    rewrite ClientConn_Send_open. cbn [fst snd]. by repeat apply conj.
  - intros b msg. split; [apply Connection_Send_closed|apply Connection_Send_ErrClosed].
  - intros ws ops msg. rewrite Connection_Send_ErrClosed, Connection_history. simpl.
    apply existsb_is_close.
  - intros [ws cl] msg e Hc _. simpl in Hc. subst cl.
    rewrite Connection_Send_open. cbn [fst snd]. by repeat apply conj.
Qed.

Lemma Send_failure_keeps_channel_witness :
  (ClientConn.Send flakyClient "a").1.1 = Some (ErrWebsocket "broken pipe")
  ∧ (ClientConn.Send (ClientConn.Send flakyClient "a").1.2 "b").2
    = [EvWrite 7 websocket.TextMessage "b" None]
  ∧ (Connection.Send flakyEngine "a").1.1 = Some (ErrWebsocket "broken pipe")
  ∧ (Connection.Send (Connection.Send flakyEngine "a").1.2 "b").2
    = [EvWrite 7 websocket.TextMessage "b" None].
Proof.
  destruct Send_failure_keeps_channel as (_ & _ & Hc & _ & _ & Hb).
  specialize (Hc flakyClient "a" (ErrWebsocket "broken pipe") eq_refl eq_refl).
  specialize (Hb flakyEngine "a" (ErrWebsocket "broken pipe") eq_refl eq_refl).
  destruct Hc as (_ & Hc & _). destruct Hb as (_ & Hb & _).
  split; [reflexivity|]. split; [exact (Hc "b")|].
  split; [reflexivity|exact (Hb "b")].
Defined.

(** ** Client identifiers *)

Lemma accept_spec conn w :
  ∃ c w', accept conn w = Some (c, w')
    ∧ clients w' !! c
      = Some (ClientConn.mk ((nextID (server w) + 1) mod uint64_modulus)%Z conn false)
    ∧ nextID (server w') = ((nextID (server w) + 1) mod uint64_modulus)%Z
    ∧ router w' = router w ∧ heap w' = heap w ∧ trace w' = trace w.
Proof.
  unfold accept, bind, getServer, putClient, putServer, ret, nextID_Add1. simpl.
  eexists _, _. split; [reflexivity|]. simpl.
  rewrite lookup_insert_eq. done.
Qed.

Lemma assignedIDs_spec upgrades : ∀ w,
  ∃ w', assignedIDs upgrades w
        = Some (idsFrom (nextID (server w)) (countAccepted upgrades), w').
Proof.
  induction upgrades as [|[e|conn] rest IH]; intros w.
  - by eexists.
  - apply IH.
  - destruct (accept_spec conn w) as (c & w1 & Hacc & Hc & Hn & _).
    destruct (IH w1) as (w2 & Hrest).
    exists w2. cbn [assignedIDs]. unfold bind at 1. rewrite Hacc.
    unfold bind at 1, getClient at 1. rewrite Hc.
    unfold bind at 1. rewrite Hrest. unfold ret.
    unfold countAccepted. rewrite filter_cons_True by done.
    cbn [length idsFrom ClientConn.ID]. by rewrite Hn.
Qed.

Lemma idsFrom_length n k : length (idsFrom n k) = k.
Proof. revert n. induction k as [|k IH]; intros n; simpl; [done|]. by rewrite IH. Qed.

Lemma idsFrom_lookup k : ∀ n (j : nat),
  (0 ≤ n < uint64_modulus)%Z → (j < k)%nat →
  idsFrom n k !! j = Some ((n + 1 + Z.of_nat j) mod uint64_modulus)%Z.
Proof.
  induction k as [|k IH]; intros n j Hn Hj; [lia|].
  destruct j as [|j]; cbn [idsFrom lookup list_lookup].
  - simpl. by rewrite Z.add_0_r.
  - change ((idsFrom ((n + 1) mod uint64_modulus)%Z k) !! j
            = Some ((n + 1 + Z.of_nat (S j)) mod uint64_modulus)%Z).
    rewrite IH; [|by apply Z.mod_pos_bound|lia].
    f_equal. rewrite <- Z.add_assoc, Zplus_mod_idemp_l. f_equal. lia.
Qed.

(** Below the wrap the identifiers are [n+1, n+2, ...]. *)
Lemma idsFrom_small_gen k : ∀ n m (i : nat),
  (0 ≤ n)%Z → (n + Z.of_nat k < uint64_modulus)%Z → (n + 1 = m + Z.of_nat i)%Z →
  idsFrom n k = (λ j, m + Z.of_nat j)%Z <$> seq i k.
Proof.
  induction k as [|k IH]; intros n m i H0 Hk Hm; [done|].
  cbn [idsFrom seq fmap list_fmap].
  rewrite Z.mod_small by lia. f_equal; [done|].
  apply IH; lia.
Qed.

Lemma idsFrom_small k n :
  (0 ≤ n)%Z → (n + Z.of_nat k < uint64_modulus)%Z →
  idsFrom n k = (λ j, n + Z.of_nat j)%Z <$> seq 1 k.
Proof. intros. apply idsFrom_small_gen; lia. Qed.

Lemma increasing_sorted (n : Z) (k i : nat) :
  StronglySorted Z.lt ((λ j, n + Z.of_nat j)%Z <$> seq i k).
Proof.
  revert i. induction k as [|k IH]; intros i; simpl; constructor; [apply IH|].
  apply Forall_fmap, Forall_forall. intros j Hj.
  apply list_elem_of_In, in_seq in Hj. simpl. lia.
Qed.

Lemma sorted_lt_NoDup (l : list Z) : StronglySorted Z.lt l → NoDup l.
Proof.
  induction 1 as [|x l Hs IH Hall]; constructor; [|done].
  intros Hin. rewrite Forall_forall in Hall. specialize (Hall x Hin). lia.
Qed.

Lemma countAccepted_repeat conn (k : nat) : countAccepted (repeat (inr conn) k) = k.
Proof.
  unfold countAccepted. induction k as [|k IH]; [done|].
  simpl repeat. rewrite filter_cons_True by done. simpl. by rewrite IH.
Qed.

(** C2 (as amended). As long as fewer than 2^64 connections have been
    accepted since the server was created, the identifiers given to the
    accepted connections are 1, 2, 3, ... in the order of acceptance: strictly
    increasing, pairwise distinct, one per accepted connection; a request
    whose upgrade fails draws no identifier. *)
Theorem identifiers_increasing (w : World) (upgrades : list (string + websocket.Conn)) :
  nextID (server w) = 0%Z →
  (Z.of_nat (countAccepted upgrades) < uint64_modulus)%Z →
  ∃ ids w', assignedIDs upgrades w = Some (ids, w')
    ∧ ids = Z.of_nat <$> seq 1 (countAccepted upgrades)
    ∧ length ids = countAccepted upgrades
    ∧ StronglySorted Z.lt ids
    ∧ NoDup ids.
Proof.
  intros H0 Hk. destruct (assignedIDs_spec upgrades w) as (w' & Hrun).
  rewrite H0 in Hrun. rewrite idsFrom_small in Hrun by lia.
  eexists _, w'. split; [exact Hrun|].
  split; [apply list_fmap_ext; intros; simpl; lia|].
  split; [by rewrite length_fmap, length_seq|].
  split; [apply increasing_sorted|apply sorted_lt_NoDup, increasing_sorted].
Qed.

Lemma identifiers_increasing_witness :
  ∃ w', assignedIDs [inr (quietConn 1); inl "bad handshake"; inr (quietConn 2)]
          (newWorld true) = Some ([1; 2]%Z, w').
Proof.
  destruct (identifiers_increasing (newWorld true)
              [inr (quietConn 1); inl "bad handshake"; inr (quietConn 2)])
    as (ids & w' & Hrun & Hids & _).
  - reflexivity.
  - vm_compute. reflexivity.
  - exists w'. rewrite Hrun, Hids. reflexivity.
Defined.

(** C2, counterexample: the counter has 64 bits.  Of 2^64 + 1 accepted
    connections, the first and the last both receive identifier 1, so the
    identifiers are neither pairwise distinct nor increasing. *)
Lemma identifier_reused_after_wrap :
  ∃ ids w', assignedIDs (repeat (inr (quietConn 0)) (N.to_nat (2 ^ 64 + 1)))
              (newWorld true) = Some (ids, w')
    ∧ ids !! 0%nat = Some 1%Z
    ∧ ids !! N.to_nat (2 ^ 64) = Some 1%Z
    ∧ ¬ NoDup ids
    ∧ ¬ StronglySorted Z.lt ids.
Proof.
  destruct (assignedIDs_spec (repeat (inr (quietConn 0)) (N.to_nat (2 ^ 64 + 1)))
              (newWorld true)) as (w' & Hrun).
  rewrite countAccepted_repeat in Hrun.
  change (nextID (server (newWorld true))) with 0%Z in Hrun.
  eexists _, w'. split; [exact Hrun|].
  assert (H1 : idsFrom 0 (N.to_nat (2 ^ 64 + 1)) !! 0%nat = Some 1%Z).
  { rewrite idsFrom_lookup; [reflexivity|unfold uint64_modulus; lia|lia]. }
  assert (H2 : idsFrom 0 (N.to_nat (2 ^ 64 + 1)) !! N.to_nat (2 ^ 64) = Some 1%Z).
  { rewrite idsFrom_lookup; [|unfold uint64_modulus; lia|lia].
    rewrite N_nat_Z. reflexivity. }
  assert (Hdup : ¬ NoDup (idsFrom 0 (N.to_nat (2 ^ 64 + 1)))).
  { intros Hnd. pose proof (NoDup_lookup _ _ _ _ Hnd H1 H2) as Heq. lia. }
  split; [exact H1|]. split; [exact H2|]. split; [exact Hdup|].
  intros Hs. apply Hdup, sorted_lt_NoDup, Hs.
Qed.

(** ** The relay loop *)

Section RelayTurn.

Variables (w : World) (s : loc) (session : BrowserSession.t)
          (b : Connection.t) (cc : ClientConn.t).
Hypothesis Hs : heap w !! s = Some session.
Hypothesis Hb : BrowserSession.BidiConn session = Some b.
Hypothesis Hc : clients w !! BrowserSession.Client session = Some cc.

Lemma relayTurn_stop :
  BrowserSession.stopChan session = true →
  relayTurn s w = Some (Exit ExitStop, w).
Proof. intros H. unfold relayTurn. run. by rewrite Hs, H. Qed.

Lemma relayTurn_blocked :
  BrowserSession.stopChan session = false →
  Connection.Receive b = None →
  relayTurn s w = Some (Blocked, w).
Proof. intros H Hr. unfold relayTurn. run. by rewrite Hs, H, Hb, Hr. Qed.

Lemma relayTurn_receive_failed err b' :
  BrowserSession.stopChan session = false →
  Connection.Receive b = Some (inr err, b') →
  relayTurn s w
  = Some (Exit (ExitReceive err),
          if BrowserSession.closed session
          then afterReceive w s session b'
          else afterTurn w s session b' (ClientConn.Close cc).1.2 (ClientConn.Close cc).2).
Proof.
  intros H Hr. unfold relayTurn. run. rewrite Hs, H, Hb, Hr. run.
  rewrite lookup_insert_eq. cbn [BrowserSession.set_BidiConn BrowserSession.closed].
  destruct (BrowserSession.closed session); run; [done|].
  cbn [negb clients heap router server trace]. rewrite Hc.
  by destruct (ClientConn.Close cc) as [[r cc'] evs].
Qed.

Lemma relayTurn_forward msg b' :
  BrowserSession.stopChan session = false →
  Connection.Receive b = Some (inl msg, b') →
  relayTurn s w
  = Some (match (ClientConn.Send cc msg).1.1 with
          | Some err => Exit (ExitSend err)
          | None => Continue
          end,
          afterTurn w s session b' (ClientConn.Send cc msg).1.2 (ClientConn.Send cc msg).2).
Proof.
  intros H Hr. unfold relayTurn. run. rewrite Hs, H, Hb, Hr. run.
  rewrite Hc. by destruct (ClientConn.Send cc msg) as [[[e|] cc'] evs].
Qed.

End RelayTurn.

Lemma routeBrowserToClient_unfold fuel s w :
  routeBrowserToClient (S fuel) s w
  = match relayTurn s w with
    | Some (Continue, w') => routeBrowserToClient fuel s w'
    | Some (Exit why, w') => Some (Returned why, w')
    | Some (Blocked, w') => Some (Waiting, w')
    | None => None
    end.
Proof.
  cbn [routeBrowserToClient]. unfold bind at 1.
  by destruct (relayTurn s w) as [[[] ?]|].
Qed.

Lemma Connection_Receive_text_shorter b msg b' :
  Connection.Receive b = Some (inl msg, b') →
  length (websocket.reads (Connection.conn b'))
  < length (websocket.reads (Connection.conn b)).
Proof.
  unfold Connection.Receive, websocket.ReadMessage.
  destruct (Connection.closed b); [done|].
  destruct (websocket.reads (Connection.conn b)) as [|[ty p|e] rs]; [done| |done].
  case_decide; [done|]. intros [= _ <-]. simpl. lia.
Qed.

(** With more fuel than the engine has frames to deliver, the loop does not
    run out of fuel: it returns or waits in [Receive]. *)
Lemma routeBrowserToClient_fuel fuel : ∀ w s session b cc,
  heap w !! s = Some session →
  BrowserSession.BidiConn session = Some b →
  clients w !! BrowserSession.Client session = Some cc →
  length (websocket.reads (Connection.conn b)) < fuel →
  ∃ e w', routeBrowserToClient fuel s w = Some (e, w') ∧ e ≠ OutOfFuel.
Proof.
  induction fuel as [|fuel IH]; intros w s session b cc Hs Hb Hc Hlen; [lia|].
  rewrite routeBrowserToClient_unfold.
  destruct (BrowserSession.stopChan session) eqn:Hstop.
  { rewrite (relayTurn_stop _ _ _ Hs Hstop). by eexists _, _. }
  destruct (Connection.Receive b) as [[[msg|err] b']|] eqn:Hr.
  - rewrite (relayTurn_forward _ _ _ _ _ Hs Hb Hc _ _ Hstop Hr).
    destruct ((ClientConn.Send cc msg).1.1); [by eexists _, _|].
    eapply (IH _ s (BrowserSession.set_BidiConn b' session) b').
    + unfold afterTurn; simpl. apply lookup_insert_eq.
    + done.
    + unfold afterTurn; simpl. apply lookup_insert_eq.
    + apply Connection_Receive_text_shorter in Hr. lia.
  - rewrite (relayTurn_receive_failed _ _ _ _ _ Hs Hb Hc _ _ Hstop Hr). by eexists _, _.
  - rewrite (relayTurn_blocked _ _ _ _ Hs Hb Hstop Hr). by eexists _, _.
Qed.

(** C5. The engine-to-client relay repeats one turn (receive from the engine,
    forward to the client) for as long as the turn says to continue, and a
    turn ends the loop in exactly three ways.  (a) The stop signal is
    observed: the loop returns at once, the store untouched.  (b) The receive
    fails: the loop returns, after closing the client channel when, and only
    when, the session is not yet marked closed.  (c) The forward fails: the
    loop returns and nothing is closed.  Otherwise the frame has been handed
    to the client and the loop goes on; with more fuel than the engine has
    frames the loop never runs out of fuel. *)
Theorem relay_loop_exits (w : World) (s : loc) (session : BrowserSession.t)
    (b : Connection.t) (cc : ClientConn.t) :
  heap w !! s = Some session →
  BrowserSession.BidiConn session = Some b →
  clients w !! BrowserSession.Client session = Some cc →
  (∀ fuel, routeBrowserToClient (S fuel) s w
           = match relayTurn s w with
             | Some (Continue, w') => routeBrowserToClient fuel s w'
             | Some (Exit why, w') => Some (Returned why, w')
             | Some (Blocked, w') => Some (Waiting, w')
             | None => None
             end)
  ∧ (∀ fuel, length (websocket.reads (Connection.conn b)) < fuel →
       ∃ e w', routeBrowserToClient fuel s w = Some (e, w') ∧ e ≠ OutOfFuel)
  ∧ (BrowserSession.stopChan session = true →
       relayTurn s w = Some (Exit ExitStop, w))
  ∧ (BrowserSession.stopChan session = false →
       match Connection.Receive b with
       | None => relayTurn s w = Some (Blocked, w)
       | Some (inr err, b') =>
           relayTurn s w
           = Some (Exit (ExitReceive err),
                   if BrowserSession.closed session
                   then afterReceive w s session b'
                   else afterTurn w s session b'
                          (ClientConn.Close cc).1.2 (ClientConn.Close cc).2)
           ∧ ClientConn.closed (ClientConn.Close cc).1.2 = true
       | Some (inl msg, b') =>
           relayTurn s w
           = Some (match (ClientConn.Send cc msg).1.1 with
                   | Some err => Exit (ExitSend err)
                   | None => Continue
                   end,
                   afterTurn w s session b'
                     (ClientConn.Send cc msg).1.2 (ClientConn.Send cc msg).2)
           ∧ ClientConn.closed (ClientConn.Send cc msg).1.2 = ClientConn.closed cc
           ∧ Connection.closed b' = Connection.closed b
           ∧ Forall (λ ev, ∃ i r, ev = EvWrite i websocket.TextMessage msg r)
               (ClientConn.Send cc msg).2
       end).
Proof.
  intros Hs Hb Hc. split; [intros; apply routeBrowserToClient_unfold|].
  split; [intros fuel Hlen; by eapply routeBrowserToClient_fuel|].
  split; [by apply relayTurn_stop|].
  intros Hstop. destruct (Connection.Receive b) as [[[msg|err] b']|] eqn:Hr.
  - split; [by eapply relayTurn_forward|].
    split; [apply ClientConn_Send_closed|].
    split; [by eapply Connection_Receive_closed|].
    unfold ClientConn.Send. destruct (ClientConn.closed cc); simpl; [constructor|].
    repeat constructor. by eexists _, _.
  - split; [by eapply relayTurn_receive_failed|apply ClientConn_Close_closed].
  - by eapply relayTurn_blocked.
Qed.

Lemma relay_loop_exits_witness :
  ∃ e w', routeBrowserToClient 3 0
            (liveWorld [websocket.Frame 1 "a"; websocket.ReadErr "EOF"]) = Some (e, w')
          ∧ e ≠ OutOfFuel.
Proof.
  destruct (relay_loop_exits
              (liveWorld [websocket.Frame 1 "a"; websocket.ReadErr "EOF"]) 0
              (liveSession [websocket.Frame 1 "a"; websocket.ReadErr "EOF"])
              (Connection.mk (engineConn [websocket.Frame 1 "a"; websocket.ReadErr "EOF"]) false)
              (ClientConn.mk 1 (quietConn 10) false))
    as (_ & Hfuel & _).
  - reflexivity.
  - reflexivity.
  - reflexivity.
  - apply Hfuel. simpl. lia.
Defined.

(** ** Frames that are not text *)

Lemma readLoop_skips cb fuel client w cc ty p rest :
  clients w !! client = Some cc →
  websocket.reads (ClientConn.conn cc) = websocket.Frame ty p :: rest →
  ty ≠ websocket.TextMessage →
  readLoop cb (S fuel) client w = readLoop cb fuel client (afterClientRead w client cc rest).
Proof.
  intros Hc Hr Hty. cbn [readLoop]. run. rewrite Hc.
  unfold websocket.ReadMessage. rewrite Hr. run.
  rewrite decide_True by done. reflexivity.
Qed.

Lemma Receive_non_text b ty p rest :
  Connection.closed b = false →
  websocket.reads (Connection.conn b) = websocket.Frame ty p :: rest →
  ty ≠ websocket.TextMessage →
  Connection.Receive b = Some (inr (ErrExpectedText ty), afterEngineRead b rest).
Proof.
  intros Hcl Hr Hty. unfold Connection.Receive, websocket.ReadMessage, afterEngineRead.
  rewrite Hcl, Hr. rewrite decide_True by done. reflexivity.
Qed.

(** C8 (as amended). A frame that is not a text message is skipped by the
    client-side read loop, which goes on reading: no callback runs and
    nothing but the consumed frame changes.  On the engine side [Receive]
    reports such a frame as an error, and the relay treats it as any failed
    receive: it closes the client channel (the session not being marked
    closed) and returns. *)
Theorem non_text_frames
    (cb : Callbacks) (fuel : nat) (w : World) (client : loc) (cc : ClientConn.t)
    (s : loc) (session : BrowserSession.t) (b : Connection.t) (scc : ClientConn.t)
    (ty : Z) (p : string) (rest : list websocket.ReadResult) :
  ty ≠ websocket.TextMessage →
  (clients w !! client = Some cc →
   websocket.reads (ClientConn.conn cc) = websocket.Frame ty p :: rest →
   readLoop cb (S fuel) client w
   = readLoop cb fuel client (afterClientRead w client cc rest))
  ∧ (Connection.closed b = false →
     websocket.reads (Connection.conn b) = websocket.Frame ty p :: rest →
     Connection.Receive b = Some (inr (ErrExpectedText ty), afterEngineRead b rest)
     ∧ (heap w !! s = Some session →
        BrowserSession.BidiConn session = Some b →
        clients w !! BrowserSession.Client session = Some scc →
        BrowserSession.stopChan session = false →
        BrowserSession.closed session = false →
        routeBrowserToClient (S fuel) s w
        = Some (Returned (ExitReceive (ErrExpectedText ty)),
                afterTurn w s session (afterEngineRead b rest)
                  (ClientConn.Close scc).1.2 (ClientConn.Close scc).2)
        ∧ ClientConn.closed (ClientConn.Close scc).1.2 = true)).
Proof.
  intros Hty. split.
  - intros Hc Hr. by eapply readLoop_skips.
  - intros Hcl Hr. pose proof (Receive_non_text _ _ _ _ Hcl Hr Hty) as Hrecv.
    split; [done|]. intros Hs Hb Hc Hstop Hopen.
    split; [|apply ClientConn_Close_closed].
    rewrite routeBrowserToClient_unfold.
    rewrite (relayTurn_receive_failed _ _ _ _ _ Hs Hb Hc _ _ Hstop Hrecv).
    by rewrite Hopen.
Qed.

Lemma non_text_frames_witness :
  readLoop noCallbacks 2 0 binaryWorld
  = readLoop noCallbacks 1 0
      (afterClientRead binaryWorld 0
         (ClientConn.mk 1 (websocket.mkConn 10 binFromClient [] []) false)
         [websocket.ReadErr "EOF"])
  ∧ ∃ w', routeBrowserToClient 2 0 binaryWorld
          = Some (Returned (ExitReceive (ErrExpectedText 2)), w').
Proof.
  destruct (non_text_frames noCallbacks 1 binaryWorld 0
              (ClientConn.mk 1 (websocket.mkConn 10 binFromClient [] []) false)
              0 (liveSession binFromEngine)
              (Connection.mk (engineConn binFromEngine) false)
              (ClientConn.mk 1 (websocket.mkConn 10 binFromClient [] []) false)
              2%Z "bin" [websocket.ReadErr "EOF"])
    as [Hclient _]; [done|].
  destruct (non_text_frames noCallbacks 1 binaryWorld 0
              (ClientConn.mk 1 (websocket.mkConn 10 binFromClient [] []) false)
              0 (liveSession binFromEngine)
              (Connection.mk (engineConn binFromEngine) false)
              (ClientConn.mk 1 (websocket.mkConn 10 binFromClient [] []) false)
              2%Z "x" [websocket.Frame websocket.TextMessage "b"])
    as [_ Hengine]; [done|].
  split.
  - apply Hclient; reflexivity.
  - destruct Hengine as [_ Hrelay]; [reflexivity|reflexivity|].
    destruct Hrelay as [Hrelay _]; try reflexivity.
    eexists. exact Hrelay.
Defined.

(** C8, counterexample: the engine delivers a binary frame, then a text
    frame.  [Receive] reports the binary frame as an error; the relay closes
    the client channel and returns; the text frame behind it is never
    forwarded.  The frame was not dropped with the session going on. *)
Lemma binary_frame_ends_relay :
  (∃ b', Connection.Receive (Connection.mk (engineConn binFromEngine) false)
         = Some (inr (ErrExpectedText 2), b'))
  ∧ ∃ w', routeBrowserToClient 5 0 (liveWorld binFromEngine)
          = Some (Returned (ExitReceive (ErrExpectedText 2)), w')
      ∧ clients w' !! 0 = Some (ClientConn.mk 1 (quietConn 10) true)
      ∧ trace w' = closeEvents (quietConn 10).
Proof.
  split; [by eexists|].
  eexists. split; [vm_compute; reflexivity|]. split; reflexivity.
Qed.

(** ** Failing to establish a session *)

Lemma send_then_close w client cc frame :
  clients w !! client = Some cc →
  (onClient client (λ c, ClientConn.Send c frame) ;;;
   onClient client ClientConn.Close ;;; ret tt) w
  = Some (tt, mkWorld (<[client := refused cc frame]> (clients w)) (heap w) (router w)
                (server w) (trace w ++ refusedEvents cc frame)).
Proof.
  intros Hc. unfold refused, refusedEvents. run. rewrite Hc.
  destruct (ClientConn.Send cc frame) as [[r1 c1] ev1]. run.
  rewrite lookup_insert_eq.
  destruct (ClientConn.Close c1) as [[r2 c2] ev2]. run.
  by rewrite insert_insert_eq, <- app_assoc.
Qed.

Lemma OnClientConnect_failure w client cc launch dial pre frame :
  clients w !! client = Some cc →
  connectFailure launch dial = Some (pre, frame) →
  OnClientConnect launch dial client w
  = Some (tt, mkWorld (<[client := refused cc frame]> (clients w)) (heap w) (router w)
                (server w)
                (trace w ++ [EvLaunch (headless (router w))] ++ pre
                   ++ refusedEvents cc frame)).
Proof.
  intros Hc Hf. unfold OnClientConnect.
  unfold bind at 1, getClient at 1. rewrite Hc.
  unfold bind at 1, getRouter at 1.
  unfold bind at 1, emit at 1.
  destruct launch as [e|lr]; simpl in Hf.
  - injection Hf as <- <-.
    rewrite (send_then_close _ _ cc) by done. cbn [clients heap router server trace].
    by rewrite app_nil_l, <- app_assoc.
  - destruct dial as [e|ws]; [|done]. injection Hf as <- <-.
    cbn [Connection.Connect]. unfold bind at 1, emit at 1.
    unfold bind at 1, emit at 1. cbn [clients heap router server trace].
    rewrite (send_then_close _ _ cc) by done. cbn [clients heap router server trace Error browser.Close].
    by rewrite <- !app_assoc.
Qed.

Lemma textFramesTo_app conn t1 t2 :
  textFramesTo conn (t1 ++ t2) = textFramesTo conn t1 ++ textFramesTo conn t2.
Proof. unfold textFramesTo. apply omap_app. Qed.

Lemma refused_closed cc frame : ClientConn.closed (refused cc frame) = true.
Proof. apply ClientConn_Close_closed. Qed.

Lemma refusedEvents_cases cc frame :
  refusedEvents cc frame
  = if ClientConn.closed cc then []
    else EvWrite (websocket.id (ClientConn.conn cc)) websocket.TextMessage frame
           (websocket.answer (websocket.writes (ClientConn.conn cc)))
         :: closeEvents (afterWrite (ClientConn.conn cc)).
Proof.
  unfold refusedEvents. destruct cc as [i ws [|]]; [reflexivity|].
  rewrite ClientConn_Send_open. cbn [fst snd ClientConn.closed ClientConn.conn].
  destruct (ClientConn_Close_open i (afterWrite ws)) as (r & ws' & -> & _). done.
Qed.

Lemma textFramesTo_closeEvents ws : textFramesTo (websocket.id ws) (closeEvents ws) = [].
Proof.
  unfold textFramesTo, closeEvents. cbn [omap list_omap].
  rewrite decide_False; [done|]. intros [_ H]. discriminate H.
Qed.

(** C3 (as amended). When [OnClientConnect] cannot establish a session
    (the launch fails, or the launch succeeds and opening the engine channel
    fails), it sends the structured error frame to the client once, provided
    the client channel is still open (a client channel that is already closed
    receives nothing), then closes the client channel, so that the channel
    ends closed; the registry and the sessions are left as they were.  When
    it is the engine channel that fails, the launched engine is released
    before the frame is sent. *)
Theorem connect_failure_refuses (w : World) (client : loc) (cc : ClientConn.t)
    (launch : string + browser.LaunchResult) (dial : string + websocket.Conn)
    (pre : list Event) (frame : string) :
  clients w !! client = Some cc →
  connectFailure launch dial = Some (pre, frame) →
  ∃ w', OnClientConnect launch dial client w = Some (tt, w')
    ∧ router w' = router w
    ∧ heap w' = heap w
    ∧ clients w' = <[client := refused cc frame]> (clients w)
    ∧ ClientConn.closed (refused cc frame) = true
    ∧ trace w' = trace w ++ [EvLaunch (headless (router w))] ++ pre
                   ++ refusedEvents cc frame
    ∧ refusedEvents cc frame
      = (if ClientConn.closed cc then []
         else EvWrite (websocket.id (ClientConn.conn cc)) websocket.TextMessage frame
                (websocket.answer (websocket.writes (ClientConn.conn cc)))
              :: closeEvents (afterWrite (ClientConn.conn cc)))
    ∧ textFramesTo (websocket.id (ClientConn.conn cc)) (refusedEvents cc frame)
      = (if ClientConn.closed cc then [] else [frame])
    ∧ match launch, dial with
      | inl e, _ => pre = [] ∧ frame = errorFrame "Failed to launch browser: " e
      | inr lr, inl e =>
          pre = [EvDial (browser.WebSocketURL lr); EvLaunchClose (browser.proc lr)]
          ∧ frame = errorFrame "Failed to connect to browser: "
                      (Error (ErrConnect (browser.WebSocketURL lr) e))
      | inr _, inr _ => False
      end.
Proof.
  intros Hc Hf. eexists. split; [by eapply OnClientConnect_failure|].
  cbn [router heap clients trace].
  do 3 (split; [reflexivity|]). split; [apply refused_closed|].
  split; [reflexivity|]. split; [apply refusedEvents_cases|].
  split.
  - rewrite refusedEvents_cases. destruct (ClientConn.closed cc); [done|].
    change (EvWrite ?i ?t ?d ?r :: ?l) with ([EvWrite i t d r] ++ l).
    rewrite textFramesTo_app.
    change (websocket.id (ClientConn.conn cc))
      with (websocket.id (afterWrite (ClientConn.conn cc))) at 3.
    rewrite textFramesTo_closeEvents. unfold textFramesTo. cbn [omap list_omap].
    by rewrite decide_True.
  - destruct launch as [e|lr]; simpl in Hf.
    + by injection Hf as <- <-.
    + destruct dial as [e|ws]; [|done]. by injection Hf as <- <-.
Qed.

Lemma connect_failure_refuses_witness :
  ∃ w', OnClientConnect (inl "port in use") (inl "unused") 0 (connectingWorld false)
        = Some (tt, w')
    ∧ textFramesTo 10 (trace w')
      = [errorFrame "Failed to launch browser: " "port in use"]
    ∧ sessions (router w') = ∅.
Proof.
  destruct (connect_failure_refuses (connectingWorld false) 0
              (ClientConn.mk 1 (quietConn 10) false)
              (inl "port in use") (inl "unused") []
              (errorFrame "Failed to launch browser: " "port in use")
              eq_refl eq_refl)
    as (w' & Hrun & Hr & _ & _ & _ & Htr & _ & Htext & _).
  exists w'. split; [exact Hrun|]. split.
  - rewrite Htr. vm_compute. reflexivity.
  - rewrite Hr. reflexivity.
Defined.

(** The frame of Scenario B. *)
Example scenarioB_frame :
  errorFrame "Failed to launch browser: " "port in use"
  = "{" +:+ dq +:+ "error" +:+ dq +:+ ":{" +:+ dq +:+ "code" +:+ dq +:+ ":-32000,"
    +:+ dq +:+ "message" +:+ dq +:+ ":" +:+ dq
    +:+ "Failed to launch browser: port in use" +:+ dq +:+ "}}".
Proof. reflexivity. Qed.

(** [OnClientConnect] on a client channel that is already closed. *)
Example connect_failure_on_closed_client :
  ∃ w', OnClientConnect (inl "port in use") (inl "unused") 0 (connectingWorld true)
        = Some (tt, w')
    ∧ trace w' = [EvLaunch true].
Proof. eexists. split; [vm_compute; reflexivity|]. reflexivity. Qed.

(** C3, counterexample: the server is stopped while a connection is being
    set up.  The handler has stored the new client; [Stop] closes every stored
    client; then [OnClientConnect] runs and the launch fails.  The client
    channel was closed before the error frame could be sent: the trace holds
    the close by [Stop] and the launch, and no text frame to the client at
    all, where the claim promises exactly one. *)
Lemma closed_client_gets_no_frame :
  ∃ w', stopDuringConnect (newWorld true) = Some (tt, w')
    ∧ trace w' = closeEvents (quietConn 10) ++ [EvLaunch true]
    ∧ textFramesTo 10 (trace w') = []
    ∧ length (textFramesTo 10 (trace w')) ≠ 1
    ∧ sessions (router w') = ∅.
Proof.
  eexists. split; [vm_compute; reflexivity|]. by repeat split.
Qed.

(** ** Teardown of one session *)

Lemma World_eta w :
  mkWorld (clients w) (heap w) (router w) (server w) (trace w) = w.
Proof. by destruct w. Qed.

Lemma closeSession_closed w s v :
  heap w !! s = Some v →
  BrowserSession.closed v = true →
  closeSession s w = Some (tt, w).
Proof.
  intros Hs Hcl. unfold closeSession. run. rewrite Hs.
  unfold BrowserSession.guard. rewrite Hcl. run.
  rewrite insert_id by done. rewrite app_nil_r. by rewrite World_eta.
Qed.

Lemma closeSession_open w s v :
  heap w !! s = Some v →
  BrowserSession.closed v = false →
  BrowserSession.stopChan v = false →
  closeSession s w
  = Some (tt, mkWorld (clients w) (<[s := (torn s v).1]> (heap w)) (router w) (server w)
                (trace w ++ (torn s v).2)).
Proof.
  intros Hs Hcl Hst. unfold closeSession, torn, teardownBody. run. rewrite Hs.
  unfold BrowserSession.guard. rewrite Hcl. run.
  rewrite lookup_insert_eq. unfold BrowserSession.signal.
  cbn [BrowserSession.set_closed BrowserSession.stopChan]. rewrite Hst. run.
  rewrite lookup_insert_eq.
  destruct (BrowserSession.closeBidi _) as [v3 e3]. run.
  rewrite lookup_insert_eq.
  destruct (BrowserSession.closeBrowser _) as [v4 e4]. run.
  rewrite !insert_insert_eq. rewrite app_nil_r. by rewrite <- !app_assoc.
Qed.

Lemma closeSession_total w s v :
  heap w !! s = Some v → consistent v →
  closeSession s w
  = Some (tt, if BrowserSession.closed v then w
              else mkWorld (clients w) (<[s := (torn s v).1]> (heap w)) (router w)
                     (server w) (trace w ++ (torn s v).2)).
Proof.
  intros Hs Hcons. destruct (BrowserSession.closed v) eqn:Hcl.
  - by eapply closeSession_closed.
  - apply closeSession_open; auto.
Qed.

Lemma torn_closed me v : BrowserSession.closed (torn me v).1 = true.
Proof.
  unfold torn, teardownBody. destruct (BrowserSession.closed v) eqn:E; [done|].
  unfold BrowserSession.closeBidi, BrowserSession.closeBrowser.
  destruct v as [[l|] [b|] c cl st]; simpl;
    try destruct (Connection.Close b) as [[? ?] ?]; done.
Qed.

(** The session a full teardown leaves and what it does, for a session that
    has both its engine channel and its engine process. *)
Lemma torn_full me l b c :
  torn me (BrowserSession.mk (Some l) (Some b) c false false)
  = (BrowserSession.mk (Some l) (Some (Connection.Close b).1.2) c true true,
     [EvStop me] ++ (Connection.Close b).2 ++ [EvLaunchClose (browser.proc l)]).
Proof.
  unfold torn, teardownBody, BrowserSession.closeBidi, BrowserSession.closeBrowser. simpl.
  by destruct (Connection.Close b) as [[? ?] ?].
Qed.

(** ** Disconnecting clients *)

Lemma OnClientDisconnect_absent w client cc :
  clients w !! client = Some cc →
  sessions (router w) !! ClientConn.ID cc = None →
  OnClientDisconnect client w = Some (tt, w).
Proof. intros Hc Hr. unfold OnClientDisconnect. run. by rewrite Hc, Hr. Qed.

Lemma OnClientDisconnect_present w client cc s v :
  clients w !! client = Some cc →
  sessions (router w) !! ClientConn.ID cc = Some s →
  heap w !! s = Some v →
  consistent v →
  OnClientDisconnect client w
  = Some (tt, mkWorld (clients w) (<[s := (torn s v).1]> (heap w))
                (mkRouter (delete (ClientConn.ID cc) (sessions (router w)))
                   (headless (router w)))
                (server w) (trace w ++ (torn s v).2)).
Proof.
  intros Hc Hr Hs Hcons. unfold OnClientDisconnect.
  unfold bind at 1, getClient at 1. rewrite Hc.
  unfold bind at 1, getRouter at 1. rewrite Hr.
  unfold bind at 1, putSessions at 1.
  erewrite closeSession_total; [|exact Hs|exact Hcons].
  unfold torn. destruct (BrowserSession.closed v); [|done].
  cbn [clients heap router server trace fst snd].
  by rewrite insert_id, app_nil_r.
Qed.

(** C6. [OnClientDisconnect] takes the session of the client out of the
    registry in one atomic step and tears it down if, and only if, there was
    one: for an identifier without an entry nothing happens at all; else the
    entry is gone, the session has been through [closeSession], and a second
    disconnect finds nothing and does nothing.  For a client that disconnects
    in the middle of a session, the stop signal is given, the engine channel
    is closed and the close of the engine process is invoked, each exactly
    once. *)
Theorem disconnect_takes_once (w : World) (client : loc) (cc : ClientConn.t) :
  clients w !! client = Some cc →
  (sessions (router w) !! ClientConn.ID cc = None →
   OnClientDisconnect client w = Some (tt, w))
  ∧ (∀ s v,
       sessions (router w) !! ClientConn.ID cc = Some s →
       heap w !! s = Some v →
       consistent v →
       ∃ w', OnClientDisconnect client w = Some (tt, w')
         ∧ sessions (router w') = delete (ClientConn.ID cc) (sessions (router w))
         ∧ sessions (router w') !! ClientConn.ID cc = None
         ∧ clients w' = clients w
         ∧ heap w' = <[s := (torn s v).1]> (heap w)
         ∧ BrowserSession.closed (torn s v).1 = true
         ∧ trace w' = trace w ++ (torn s v).2
         ∧ OnClientDisconnect client w' = Some (tt, w')
         ∧ (∀ l b c,
              v = BrowserSession.mk (Some l) (Some b) c false false →
              Connection.closed b = false →
              (torn s v).2 = [EvStop s] ++ closeEvents (Connection.conn b)
                               ++ [EvLaunchClose (browser.proc l)]
              ∧ stops (torn s v).2 = [s]
              ∧ sockCloses (torn s v).2 = [websocket.id (Connection.conn b)]
              ∧ launchCloses (torn s v).2 = [browser.proc l]
              ∧ (BrowserSession.BidiConn (torn s v).1 ≫= λ b', Some (Connection.closed b'))
                = Some true)).
Proof.
  intros Hc. split; [by apply OnClientDisconnect_absent|].
  intros s v Hr Hs Hcons. eexists.
  split; [by eapply OnClientDisconnect_present|].
  cbn [router sessions clients heap trace].
  split; [done|]. split; [apply lookup_delete_eq|].
  split; [done|]. split; [done|]. split; [apply torn_closed|]. split; [done|].
  split.
  - apply (OnClientDisconnect_absent _ _ cc); [done|]. apply lookup_delete_eq.
  - intros l b c -> Hb. rewrite torn_full. cbn [fst snd].
    destruct b as [ws cl]. simpl in Hb. subst cl.
    destruct (Connection_Close_open ws) as (r & ws' & -> & _). by cbn.
Qed.

Lemma disconnect_takes_once_witness :
  ∃ w', OnClientDisconnect 0 (liveWorld []) = Some (tt, w')
    ∧ sessions (router w') !! 1%Z = None
    ∧ launchCloses (trace w') = [5]
    ∧ OnClientDisconnect 0 w' = Some (tt, w').
Proof.
  destruct (disconnect_takes_once (liveWorld []) 0
              (ClientConn.mk 1 (websocket.mkConn 10 [] [] []) false) eq_refl)
    as [_ H].
  destruct (H 0 (liveSession []) eq_refl eq_refl ltac:(done))
    as (w' & Hrun & _ & Hgone & _ & _ & _ & Htr & Hagain & _).
  exists w'. split; [exact Hrun|]. split; [exact Hgone|]. split; [|exact Hagain].
  rewrite Htr. reflexivity.
Defined.

(** ** Messages from the client *)

Lemma OnClientMessage_absent w client cc msg :
  clients w !! client = Some cc →
  sessions (router w) !! ClientConn.ID cc = None →
  OnClientMessage client msg w = Some (tt, w).
Proof. intros Hc Hr. unfold OnClientMessage. run. by rewrite Hc, Hr. Qed.

Lemma OnClientMessage_closed w client cc msg s v :
  clients w !! client = Some cc →
  sessions (router w) !! ClientConn.ID cc = Some s →
  heap w !! s = Some v →
  BrowserSession.closed v = true →
  OnClientMessage client msg w = Some (tt, w).
Proof.
  intros Hc Hr Hs Hcl. unfold OnClientMessage. run. by rewrite Hc, Hr, Hs, Hcl.
Qed.

Lemma OnClientMessage_forward w client cc msg s v b :
  clients w !! client = Some cc →
  sessions (router w) !! ClientConn.ID cc = Some s →
  heap w !! s = Some v →
  BrowserSession.closed v = false →
  BrowserSession.BidiConn v = Some b →
  OnClientMessage client msg w
  = Some (tt, mkWorld (clients w)
                (<[s := BrowserSession.set_BidiConn (Connection.Send b msg).1.2 v]> (heap w))
                (router w) (server w) (trace w ++ (Connection.Send b msg).2)).
Proof.
  intros Hc Hr Hs Hcl Hb. unfold OnClientMessage. run.
  rewrite Hc, Hr, Hs, Hcl, Hs, Hb.
  by destruct (Connection.Send b msg) as [[r b'] evs].
Qed.

Lemma Connection_Send_events b msg :
  stops (Connection.Send b msg).2 = []
  ∧ sockCloses (Connection.Send b msg).2 = []
  ∧ launchCloses (Connection.Send b msg).2 = [].
Proof. unfold Connection.Send. by destruct (Connection.closed b). Qed.

(** C4. [OnClientMessage] for a client without a live session is a silent
    no-op: when the registry has no entry for the identifier, or the
    registered session is marked closed, the call returns leaving the store
    as it was, so nothing is forwarded and no session is created.  That is
    the situation after any teardown: after [OnClientDisconnect] the entry is
    gone, after [closeSession] the session is marked closed.  When the
    session is live the payload is handed to the engine channel, and whether
    or not that send fails, the registry, the session's closed flag and stop
    channel are untouched and no release step is performed. *)
Theorem message_without_session_is_noop
    (w : World) (client : loc) (cc : ClientConn.t) (msg : string) :
  clients w !! client = Some cc →
  (sessions (router w) !! ClientConn.ID cc = None →
   OnClientMessage client msg w = Some (tt, w))
  ∧ (∀ s v,
       sessions (router w) !! ClientConn.ID cc = Some s →
       heap w !! s = Some v →
       (BrowserSession.closed v = true →
        OnClientMessage client msg w = Some (tt, w))
       ∧ (consistent v →
          ∃ w1, OnClientDisconnect client w = Some (tt, w1)
                ∧ OnClientMessage client msg w1 = Some (tt, w1))
       ∧ (consistent v →
          ∃ w1, closeSession s w = Some (tt, w1)
                ∧ OnClientMessage client msg w1 = Some (tt, w1))
       ∧ (∀ b,
            BrowserSession.closed v = false →
            BrowserSession.BidiConn v = Some b →
            ∃ w', OnClientMessage client msg w = Some (tt, w')
              ∧ router w' = router w
              ∧ clients w' = clients w
              ∧ heap w' = <[s := BrowserSession.set_BidiConn
                                   (Connection.Send b msg).1.2 v]> (heap w)
              ∧ BrowserSession.closed
                  (BrowserSession.set_BidiConn (Connection.Send b msg).1.2 v) = false
              ∧ BrowserSession.stopChan
                  (BrowserSession.set_BidiConn (Connection.Send b msg).1.2 v)
                = BrowserSession.stopChan v
              ∧ Connection.closed (Connection.Send b msg).1.2 = Connection.closed b
              ∧ trace w' = trace w ++ (Connection.Send b msg).2
              ∧ stops (Connection.Send b msg).2 = []
              ∧ sockCloses (Connection.Send b msg).2 = []
              ∧ launchCloses (Connection.Send b msg).2 = [])).
Proof.
  intros Hc. split; [by apply OnClientMessage_absent|].
  intros s v Hr Hs. split; [by eapply OnClientMessage_closed|].
  split; [|split].
  - intros Hcons. eexists. split; [by eapply OnClientDisconnect_present|].
    eapply OnClientMessage_absent; [exact Hc|]. apply lookup_delete_eq.
  - intros Hcons. eexists. split; [by eapply closeSession_total|].
    destruct (BrowserSession.closed v) eqn:Hcl.
    + by eapply OnClientMessage_closed.
    + eapply OnClientMessage_closed; [exact Hc|exact Hr|apply lookup_insert_eq|].
      apply torn_closed.
  - intros b Hcl Hb. eexists. split; [by eapply OnClientMessage_forward|].
    cbn [router clients heap trace].
    do 3 (split; [done|]). split; [done|]. split; [done|].
    split; [apply Connection_Send_closed|]. split; [done|].
    apply Connection_Send_events.
Qed.

Lemma message_without_session_is_noop_witness :
  OnClientMessage 0 "late" (connectingWorld false) = Some (tt, connectingWorld false)
  ∧ ∃ w1, OnClientDisconnect 0 (liveWorld []) = Some (tt, w1)
          ∧ OnClientMessage 0 "late" w1 = Some (tt, w1).
Proof.
  split.
  - destruct (message_without_session_is_noop (connectingWorld false) 0
                (ClientConn.mk 1 (quietConn 10) false) "late" eq_refl) as [H _].
    apply H. reflexivity.
  - destruct (message_without_session_is_noop (liveWorld []) 0
                (ClientConn.mk 1 (websocket.mkConn 10 [] [] []) false) "late" eq_refl)
      as [_ H].
    destruct (H 0 (liveSession []) eq_refl eq_refl) as (_ & Hd & _).
    apply Hd. done.
Defined.

(** ** Concurrent callers of [closeSession] *)

Section TeardownProofs.

Import Teardown.

Variables (me : loc) (v0 : BrowserSession.t).
Hypothesis Hopen : BrowserSession.closed v0 = false.
Hypothesis Hstop : BrowserSession.stopChan v0 = false.

Lemma total_app l1 th l2 :
  total (l1 ++ th :: l2) = total l1 + progress th + total l2.
Proof. unfold total. rewrite sum_list_with_app. simpl. lia. Qed.

Lemma total_zero l : total l = 0 → Forall (λ th, progress th = 0) l.
Proof.
  unfold total. induction l as [|th l IH]; simpl; intros H; constructor.
  - lia.
  - apply IH. lia.
Qed.

Lemma closeBidi_closed v :
  BrowserSession.closed (BrowserSession.closeBidi v).1 = BrowserSession.closed v
  ∧ BrowserSession.stopChan (BrowserSession.closeBidi v).1 = BrowserSession.stopChan v.
Proof.
  unfold BrowserSession.closeBidi. destruct (BrowserSession.BidiConn v) as [b|]; [|done].
  by destruct (Connection.Close b) as [[? ?] ?].
Qed.

Lemma stage_closed k :
  BrowserSession.closed (stage me v0 k).1 = negb (Nat.eqb k 0).
Proof.
  destruct k as [|[|[|[|k]]]]; simpl; try done.
  - pose proof (closeBidi_closed
      (BrowserSession.set_stopChan true (BrowserSession.set_closed true v0))) as [H _].
    destruct (BrowserSession.closeBidi _) as [v3 e3]. exact H.
  - pose proof (torn_closed me v0) as H. unfold torn in H. by rewrite Hopen in H.
Qed.

Lemma stage_0 : stage me v0 0 = (v0, []).
Proof. reflexivity. Qed.

Lemma stage_4 : stage me v0 4 = torn me v0.
Proof. unfold torn. by rewrite Hopen. Qed.

Lemma inv_initial n : inv me v0 (initial v0 n).
Proof.
  assert (Ht : total (replicate n (mkThread Idle 0 0)) = 0).
  { unfold total. induction n as [|n IH]; simpl; [done|]. by rewrite IH. }
  unfold inv, initial. cbn [fst snd]. rewrite Ht.
  split; [lia|]. split; [done|]. split.
  - apply Forall_forall. intros th Hin. apply elem_of_replicate in Hin as [-> _]. by left.
  - intros _. apply Forall_forall. intros th Hin.
    by apply elem_of_replicate in Hin as [-> _].
Qed.

(** A configuration that results from a step which moved the body on. *)
Lemma inv_advance l1 th' l2 st' k :
  total l1 = 0 → total l2 = 0 →
  progress th' = k → 1 ≤ k ≤ 4 → st' = stage me v0 k →
  inv me v0 (st', l1 ++ th' :: l2).
Proof.
  intros H1 H2 Hp Hk Hst. unfold inv. cbn [fst snd].
  rewrite total_app, H1, H2, Hp. replace (0 + k + 0) with k by lia.
  split; [lia|]. split; [done|]. split; [|lia].
  apply Forall_app. split; [|constructor].
  - eapply Forall_impl; [by apply total_zero|]. intros; by left.
  - by right.
  - eapply Forall_impl; [by apply total_zero|]. intros; by left.
Qed.

Lemma inv_step cfg cfg' : inv me v0 cfg → step me cfg cfg' → inv me v0 cfg'.
Proof.
  intros (Hle & Hst & Hall & Hcalls) Hstep.
  destruct Hstep as [st st' l1 th th' l2 Hth]. cbn [fst snd] in *.
  rewrite total_app in Hle, Hst.
  pose proof Hall as Hall'. rewrite total_app in Hall'.
  apply Forall_app in Hall' as [_ Hth0]. apply Forall_cons in Hth0 as [Hp _].
  assert (Hothers : progress th ≠ 0 → total l1 = 0 ∧ total l2 = 0) by lia.
  unfold thread_step in Hth. unfold progress in Hp, Hothers, Hle, Hst.
  destruct th as [p c b]. cbn [at_pc calls bodies] in *.
  destruct p.
  - (* the guard *)
    unfold BrowserSession.guard in Hth.
    pose proof (stage_closed (total l1 + (0 + 4 * b) + total l2)) as Hcl.
    rewrite <- Hst in Hcl. rewrite Hcl in Hth.
    destruct (Nat.eqb_spec (total l1 + (0 + 4 * b) + total l2) 0) as [Hz|Hnz];
      cbn [negb] in Hth; injection Hth as <- <-.
    + apply (inv_advance _ _ _ _ 1); [lia|lia| |lia|].
      * unfold progress. cbn [at_pc bodies]. lia.
      * rewrite Hst, Hz. reflexivity.
    + assert (Ht : total (l1 ++ mkThread Idle (S c) b :: l2)
                   = total (l1 ++ mkThread Idle c b :: l2)).
      { by rewrite !total_app. }
      unfold inv. cbn [fst snd]. rewrite Ht.
      assert (Hnz' : total (l1 ++ mkThread Idle c b :: l2) ≠ 0).
      { rewrite total_app. unfold progress. cbn [at_pc bodies]. lia. }
      split; [rewrite total_app; unfold progress; cbn [at_pc bodies]; lia|].
      split; [rewrite total_app; unfold progress; cbn [at_pc bodies]; by destruct st|].
      split; [|done].
      apply Forall_app in Hall as [Ha Hb]. apply Forall_cons in Hb as [Hb0 Hb].
      apply Forall_app. split; [done|]. constructor; [|done]. exact Hb0.
  - (* close(stopChan) *)
    destruct Hothers as [H1 H2]; [lia|].
    assert (b = 0) by lia. subst b.
    rewrite H1, H2 in Hst. cbn in Hst. rewrite Hst in Hth.
    unfold BrowserSession.signal in Hth. cbn in Hth. rewrite Hstop in Hth.
    injection Hth as <- <-.
    by apply (inv_advance _ _ _ _ 2); [done|done|done|lia|].
  - (* BidiConn.Close() *)
    destruct Hothers as [H1 H2]; [lia|].
    assert (b = 0) by lia. subst b.
    rewrite H1, H2 in Hst. cbn -[BrowserSession.closeBidi] in Hst. rewrite Hst in Hth.
    cbn -[BrowserSession.closeBidi] in Hth.
    apply (inv_advance _ _ _ _ 3); [done|done| |lia|].
    + destruct (BrowserSession.closeBidi _) as [v3 e3]. by injection Hth as <- <-.
    + cbn -[BrowserSession.closeBidi].
      destruct (BrowserSession.closeBidi _) as [v3 e3]. by injection Hth as <- <-.
  - (* LaunchResult.Close() *)
    destruct Hothers as [H1 H2]; [lia|].
    assert (b = 0) by lia. subst b.
    rewrite H1, H2 in Hst.
    cbn -[BrowserSession.closeBidi BrowserSession.closeBrowser] in Hst.
    apply (inv_advance _ _ _ _ 4); [done|done| |lia|].
    + destruct (BrowserSession.closeBrowser _) as [v4 e4]. by injection Hth as <- <-.
    + unfold stage, teardownBody.
      destruct (BrowserSession.closeBidi _) as [v3 e3]. subst st. cbn [fst snd] in Hth.
      destruct (BrowserSession.closeBrowser v3) as [v4 e4]. injection Hth as <- <-.
      reflexivity.
Qed.

Lemma inv_reachable n cfg : rtc (step me) (initial v0 n) cfg → inv me v0 cfg.
Proof.
  revert cfg. apply rtc_ind_r.
  - apply inv_initial.
  - intros y z _ Hyz IH. by eapply inv_step.
Qed.

End TeardownProofs.

Section TeardownConsequences.

Import Teardown.

Variables (me : loc) (v0 : BrowserSession.t).
Hypothesis Hopen : BrowserSession.closed v0 = false.
Hypothesis Hstop : BrowserSession.stopChan v0 = false.

Lemma inv_no_panic cfg th :
  inv me v0 cfg → th ∈ cfg.2 → is_Some (thread_step me th cfg.1).
Proof.
  intros (Hle & Hst & Hall & _) Hin.
  rewrite Forall_forall in Hall. specialize (Hall th Hin).
  unfold thread_step, progress in *. destruct th as [[] c b]; cbn [at_pc bodies] in *.
  - by destruct (BrowserSession.guard _).
  - assert (Ht : total cfg.2 = 1) by lia. rewrite Ht in Hst. rewrite Hst.
    unfold BrowserSession.signal. cbn. by rewrite Hstop.
  - by destruct (BrowserSession.closeBidi _).
  - by destruct (BrowserSession.closeBrowser _).
Qed.

Lemma Connection_Close_counts b :
  length (stops (Connection.Close b).2) = 0
  ∧ length (sockCloses (Connection.Close b).2) ≤ 1
  ∧ length (launchCloses (Connection.Close b).2) = 0.
Proof.
  destruct b as [ws [|]]; [cbn; repeat split; lia|].
  destruct (Connection_Close_open ws) as (r & ws' & -> & _). cbn. repeat split; lia.
Qed.

Lemma torn_counts :
  stops (torn me v0).2 = [me]
  ∧ length (sockCloses (torn me v0).2) ≤ 1
  ∧ length (launchCloses (torn me v0).2) ≤ 1.
Proof.
  unfold torn, teardownBody, BrowserSession.closeBidi, BrowserSession.closeBrowser.
  rewrite Hopen. destruct v0 as [[l|] [b|] c cl st]; cbn;
    try (pose proof (Connection_Close_counts b) as (H1 & H2 & H3);
         destruct (Connection.Close b) as [[r b'] evs]; cbn in *;
         unfold stops, sockCloses, launchCloses in *;
         rewrite ?omap_app, ?length_app; cbn;
         destruct (omap _ evs); [|done]); repeat split; try done; try lia.
Qed.

Lemma stage_prefix k : (stage me v0 k).2 `prefix_of` (torn me v0).2.
Proof.
  rewrite <- stage_4 by done. unfold stage, teardownBody.
  destruct (BrowserSession.closeBidi _) as [v3 e3].
  destruct (BrowserSession.closeBrowser v3) as [v4 e4].
  destruct k as [|[|[|[|k]]]]; cbn [snd].
  - apply prefix_nil.
  - apply prefix_nil.
  - by exists (e3 ++ e4).
  - by exists e4.
  - done.
Qed.

Lemma prefix_omap {A B} (f : A → option B) (l1 l2 : list A) :
  l1 `prefix_of` l2 → length (omap f l1) ≤ length (omap f l2).
Proof. intros [k ->]. rewrite omap_app, length_app. lia. Qed.

Lemma bodies_le_total l : 4 * sum_list_with bodies l ≤ total l.
Proof.
  unfold total. induction l as [|th l IH]; [done|].
  change (4 * (bodies th + sum_list_with bodies l)
          ≤ progress th + sum_list_with progress l).
  unfold progress at 1. lia.
Qed.

Lemma total_idle l :
  Forall (λ th, at_pc th = Idle) l → total l = 4 * sum_list_with bodies l.
Proof.
  unfold total. induction 1 as [|th l Hth _ IH]; [done|].
  change (progress th + sum_list_with progress l
          = 4 * (bodies th + sum_list_with bodies l)).
  unfold progress at 1. rewrite Hth. lia.
Qed.

Lemma inv_alone cfg l1 th l2 :
  inv me v0 cfg → cfg.2 = l1 ++ th :: l2 →
  at_pc th ≠ Idle ∨ 0 < bodies th →
  Forall (λ o, at_pc o = Idle ∧ bodies o = 0) (l1 ++ l2).
Proof.
  intros (Hle & _ & Hall & _) Heq Hth. rewrite Heq in Hle, Hall.
  rewrite total_app in *.
  apply Forall_app in Hall as [_ Hall]. apply Forall_cons in Hall as [Hp _].
  assert (Hnz : progress th ≠ 0).
  { unfold progress. destruct Hth as [Hth|Hth]; [by destruct (at_pc th)|lia]. }
  assert (H1 : total l1 = 0) by lia. assert (H2 : total l2 = 0) by lia.
  apply Forall_app. split; (eapply Forall_impl; [by apply total_zero|]);
    unfold progress; intros [[] c b]; cbn; intros; split; (done || lia).
Qed.

Lemma inv_finished cfg :
  inv me v0 cfg →
  Forall (λ th, at_pc th = Idle) cfg.2 →
  Exists (λ th, 0 < calls th) cfg.2 →
  cfg.1 = torn me v0 ∧ sum_list_with bodies cfg.2 = 1.
Proof.
  intros (Hle & Hst & _ & Hcalls) Hidle Hcalled.
  pose proof (total_idle _ Hidle) as Ht.
  assert (Hnz : total cfg.2 ≠ 0).
  { intros Hz. specialize (Hcalls Hz). apply Exists_exists in Hcalled as (th & Hin & Hc).
    rewrite Forall_forall in Hcalls. specialize (Hcalls th Hin). lia. }
  assert (H4 : total cfg.2 = 4) by lia.
  split; [|lia]. rewrite Hst, H4. by apply stage_4.
Qed.

End TeardownConsequences.

(** ** The order of the release steps *)

(** [closeSession] on the store is one call by a caller left alone. *)
Lemma closeSession_callAlone w s v :
  heap w !! s = Some v →
  closeSession s w
  = match Teardown.callAlone s (v, trace w) with
    | Some (v', tr') =>
        Some (tt, mkWorld (clients w) (<[s := v']> (heap w)) (router w) (server w) tr')
    | None => None
    end.
Proof.
  intros Hs. unfold Teardown.callAlone, Teardown.thread_step.
  cbn [Teardown.at_pc Teardown.calls Teardown.bodies fst snd mbind option_bind].
  destruct (BrowserSession.closed v) eqn:Hcl.
  - rewrite (closeSession_closed _ _ _ Hs Hcl).
    unfold BrowserSession.guard. rewrite Hcl. cbn.
    by rewrite insert_id, World_eta.
  - unfold BrowserSession.guard. rewrite Hcl. cbn.
    destruct (BrowserSession.stopChan v) eqn:Hst.
    + unfold BrowserSession.signal. cbn. rewrite Hst. cbn.
      unfold closeSession. run. rewrite Hs. unfold BrowserSession.guard. rewrite Hcl.
      run. rewrite lookup_insert_eq. unfold BrowserSession.signal. cbn. by rewrite Hst.
    + rewrite (closeSession_open _ _ _ Hs Hcl Hst).
      unfold torn, teardownBody, BrowserSession.signal. rewrite Hcl. cbn. rewrite Hst. cbn.
      destruct (BrowserSession.closeBidi _) as [v3 e3]. cbn.
      destruct (BrowserSession.closeBrowser v3) as [v4 e4]. cbn.
      by rewrite <- !app_assoc.
Qed.

Lemma torn_events me v :
  BrowserSession.closed v = false →
  (torn me v).2 = [EvStop me] ++ bidiRelease v ++ browserRelease v
  ∧ BrowserSession.Client (torn me v).1 = BrowserSession.Client v
  ∧ BrowserSession.stopChan (torn me v).1 = true.
Proof.
  intros Hcl. unfold torn, teardownBody, bidiRelease, browserRelease,
    BrowserSession.closeBidi, BrowserSession.closeBrowser. rewrite Hcl.
  destruct v as [[l|] [b|] c cl st]; cbn;
    try destruct (Connection.Close b) as [[? ?] ?]; done.
Qed.

Lemma closeBidi_spec v :
  BrowserSession.closeBidi v
  = (match BrowserSession.BidiConn v with
     | None => v
     | Some b => BrowserSession.set_BidiConn (Connection.Close b).1.2 v
     end, bidiRelease v).
Proof.
  unfold BrowserSession.closeBidi, bidiRelease.
  destruct (BrowserSession.BidiConn v) as [b|]; [|done].
  by destruct (Connection.Close b) as [[? ?] ?].
Qed.

Lemma closeBrowser_spec v : BrowserSession.closeBrowser v = (v, browserRelease v).
Proof.
  unfold BrowserSession.closeBrowser, browserRelease.
  by destruct (BrowserSession.LaunchResult v).
Qed.

Lemma browserRelease_closeBidi v :
  browserRelease (BrowserSession.closeBidi v).1 = browserRelease v.
Proof.
  rewrite closeBidi_spec. cbn [fst]. unfold browserRelease.
  by destruct (BrowserSession.BidiConn v).
Qed.

Lemma bidiRelease_cases b v :
  BrowserSession.BidiConn v = Some b →
  (Connection.closed b = true → bidiRelease v = [])
  ∧ (Connection.closed b = false → bidiRelease v = closeEvents (Connection.conn b)).
Proof.
  intros Hb. unfold bidiRelease. rewrite Hb. destruct b as [ws cl]. cbn.
  split; intros ->; [done|].
  by destruct (Connection_Close_open ws) as (r & ws' & -> & _).
Qed.

(** C7. The body of [closeSession] runs its steps in this order: the
    session is marked closed (under the mutex, nothing released yet), the
    stop channel is closed, the engine channel is closed, the engine process
    handle is closed.  The client channels are left as they are.  Whatever
    the state of the resources (no engine channel or no process handle at
    all, an engine channel that is already closed, a transport that refuses
    the close notification or fails to close), the function returns: a
    release on a resource that is already released does nothing. *)
Theorem teardown_order (w : World) (s : loc) (v : BrowserSession.t) :
  heap w !! s = Some v →
  consistent v →
  is_Some (closeSession s w)
  ∧ (BrowserSession.closed v = true → closeSession s w = Some (tt, w))
  ∧ (BrowserSession.closed v = false →
     let v1 := BrowserSession.set_closed true v in
     let v2 := BrowserSession.set_stopChan true v1 in
     let v3 := (BrowserSession.closeBidi v2).1 in
     let t0 := trace w in
     let t2 := t0 ++ [EvStop s] in
     let t3 := t2 ++ bidiRelease v in
     let t4 := t3 ++ browserRelease v in
     Teardown.thread_step s (Teardown.mkThread Teardown.Idle 0 0) (v, t0)
       = Some (Teardown.mkThread Teardown.AtSignal 1 0, (v1, t0))
     ∧ Teardown.thread_step s (Teardown.mkThread Teardown.AtSignal 1 0) (v1, t0)
       = Some (Teardown.mkThread Teardown.AtBidi 1 0, (v2, t2))
     ∧ Teardown.thread_step s (Teardown.mkThread Teardown.AtBidi 1 0) (v2, t2)
       = Some (Teardown.mkThread Teardown.AtBrowser 1 0, (v3, t3))
     ∧ Teardown.thread_step s (Teardown.mkThread Teardown.AtBrowser 1 0) (v3, t3)
       = Some (Teardown.mkThread Teardown.Idle 1 1, (v3, t4))
     ∧ Teardown.callAlone s (v, t0) = Some (v3, t4)
     ∧ closeSession s w
       = Some (tt, mkWorld (clients w) (<[s := v3]> (heap w)) (router w) (server w) t4)
     ∧ BrowserSession.closed v1 = true ∧ BrowserSession.stopChan v1 = false
     ∧ BrowserSession.stopChan v2 = true
     ∧ (∀ b, BrowserSession.BidiConn v = Some b →
             BrowserSession.BidiConn v3 = Some (Connection.Close b).1.2
             ∧ Connection.closed (Connection.Close b).1.2 = true
             ∧ (Connection.closed b = true → bidiRelease v = [])
             ∧ (Connection.closed b = false →
                bidiRelease v = closeEvents (Connection.conn b)))).
Proof.
  intros Hs Hcons. split; [by erewrite closeSession_total|].
  split; [by apply closeSession_closed|].
  intros Hcl. specialize (Hcons Hcl).
  assert (H1 :
    Teardown.thread_step s (Teardown.mkThread Teardown.Idle 0 0) (v, trace w)
      = Some (Teardown.mkThread Teardown.AtSignal 1 0,
              (BrowserSession.set_closed true v, trace w))).
  { unfold Teardown.thread_step, BrowserSession.guard. cbn. by rewrite Hcl. }
  assert (H2 :
    Teardown.thread_step s (Teardown.mkThread Teardown.AtSignal 1 0)
        (BrowserSession.set_closed true v, trace w)
      = Some (Teardown.mkThread Teardown.AtBidi 1 0,
              (BrowserSession.set_stopChan true (BrowserSession.set_closed true v),
               trace w ++ [EvStop s]))).
  { unfold Teardown.thread_step, BrowserSession.signal. cbn. by rewrite Hcons. }
  assert (H3 : ∀ t,
    Teardown.thread_step s (Teardown.mkThread Teardown.AtBidi 1 0)
        (BrowserSession.set_stopChan true (BrowserSession.set_closed true v), t)
      = Some (Teardown.mkThread Teardown.AtBrowser 1 0,
              ((BrowserSession.closeBidi
                  (BrowserSession.set_stopChan true (BrowserSession.set_closed true v))).1,
               t ++ bidiRelease v))).
  { intros t. unfold Teardown.thread_step. cbn [Teardown.at_pc fst snd].
    by rewrite closeBidi_spec. }
  assert (H4 : ∀ t,
    Teardown.thread_step s (Teardown.mkThread Teardown.AtBrowser 1 0)
        ((BrowserSession.closeBidi
            (BrowserSession.set_stopChan true (BrowserSession.set_closed true v))).1, t)
      = Some (Teardown.mkThread Teardown.Idle 1 1,
              ((BrowserSession.closeBidi
                  (BrowserSession.set_stopChan true (BrowserSession.set_closed true v))).1,
               t ++ browserRelease v))).
  { intros t. unfold Teardown.thread_step. cbn [Teardown.at_pc fst snd].
    rewrite closeBrowser_spec. cbn [Teardown.calls Teardown.bodies].
    by rewrite browserRelease_closeBidi. }
  cbv zeta.
  split; [exact H1|]. split; [exact H2|]. split; [apply H3|]. split; [apply H4|].
  assert (Halone : Teardown.callAlone s (v, trace w)
    = Some ((BrowserSession.closeBidi
               (BrowserSession.set_stopChan true (BrowserSession.set_closed true v))).1,
            ((trace w ++ [EvStop s]) ++ bidiRelease v) ++ browserRelease v)).
  { unfold Teardown.callAlone. rewrite H1. cbn [mbind option_bind Teardown.at_pc].
    rewrite H2. cbn [mbind option_bind]. rewrite H3. cbn [mbind option_bind].
    by rewrite H4. }
  split; [exact Halone|].
  split; [by rewrite (closeSession_callAlone _ _ _ Hs), Halone|].
  split; [done|]. split; [done|]. split; [done|].
  intros b Hb. rewrite closeBidi_spec. cbn [fst BrowserSession.set_stopChan
    BrowserSession.set_closed BrowserSession.BidiConn]. rewrite Hb.
  split; [done|]. split; [apply Connection_Close_closed|].
  by apply bidiRelease_cases.
Qed.

Lemma teardown_order_witness :
  ∃ w', closeSession 0 (liveWorld []) = Some (tt, w')
    ∧ trace w' = [EvStop 0] ++ closeEvents (engineConn []) ++ [EvLaunchClose 5]
    ∧ clients w' = clients (liveWorld []).
Proof.
  destruct (teardown_order (liveWorld []) 0 (liveSession []) eq_refl ltac:(done))
    as (_ & _ & H).
  destruct (H eq_refl) as (_ & _ & _ & _ & _ & Hrun & _).
  eexists. split; [exact Hrun|]. split; reflexivity.
Defined.

(** C1. However many goroutines call [closeSession] on a session, however
    often and however interleaved, the body runs at most once.  In every
    reachable configuration: no caller can panic or fail (so the stop channel
    is never closed twice); a caller that arrives when the session is marked
    closed returns at once and changes nothing; what has happened so far is
    an initial part of the one release sequence (stop signal, engine channel,
    engine process), so the stop signal has been given at most once and the
    engine channel and the engine process have been closed at most once; a
    caller that is in the body or has completed it is alone in that; and once
    every caller has returned and at least one call was made, exactly one
    body has been completed and the session is as one call alone leaves
    it.  On the store, [closeSession] performs the release sequence and a
    second [closeSession] changes nothing. *)
Theorem teardown_at_most_once
    (me : loc) (v0 : BrowserSession.t) (n : nat)
    (cfg : Teardown.Shared * list Teardown.thread) :
  BrowserSession.closed v0 = false →
  BrowserSession.stopChan v0 = false →
  rtc (Teardown.step me) (Teardown.initial v0 n) cfg →
  (∀ th, th ∈ cfg.2 → is_Some (Teardown.thread_step me th cfg.1))
  ∧ (∀ th, th ∈ cfg.2 → Teardown.at_pc th = Teardown.Idle →
       BrowserSession.closed cfg.1.1 = true →
       Teardown.thread_step me th cfg.1
       = Some (Teardown.mkThread Teardown.Idle (S (Teardown.calls th)) (Teardown.bodies th),
               cfg.1))
  ∧ cfg.1.2 `prefix_of` (torn me v0).2
  ∧ (torn me v0).2 = [EvStop me] ++ bidiRelease v0 ++ browserRelease v0
  ∧ length (stops cfg.1.2) ≤ 1
  ∧ length (sockCloses cfg.1.2) ≤ 1
  ∧ length (launchCloses cfg.1.2) ≤ 1
  ∧ sum_list_with Teardown.bodies cfg.2 ≤ 1
  ∧ (∀ l1 th l2, cfg.2 = l1 ++ th :: l2 →
       Teardown.at_pc th ≠ Teardown.Idle ∨ 0 < Teardown.bodies th →
       Forall (λ o, Teardown.at_pc o = Teardown.Idle ∧ Teardown.bodies o = 0) (l1 ++ l2))
  ∧ (Forall (λ th, Teardown.at_pc th = Teardown.Idle) cfg.2 →
     Exists (λ th, 0 < Teardown.calls th) cfg.2 →
     cfg.1 = torn me v0 ∧ sum_list_with Teardown.bodies cfg.2 = 1)
  ∧ (∀ w, heap w !! me = Some v0 →
       ∃ w', closeSession me w = Some (tt, w')
         ∧ trace w' = trace w ++ (torn me v0).2
         ∧ closeSession me w' = Some (tt, w')).
Proof.
  intros Hopen Hstop Hreach.
  pose proof (inv_reachable me v0 Hopen Hstop n cfg Hreach) as Hinv.
  pose proof Hinv as (Hle & Hst & _ & _).
  pose proof (stage_prefix me v0 Hopen (Teardown.total cfg.2)) as Hpre.
  rewrite <- Hst in Hpre.
  pose proof (torn_counts me v0 Hopen Hstop) as (Hs1 & Hs2 & Hs3).
  split; [intros th Hin; by eapply inv_no_panic|].
  split.
  { intros [p c b] _ Hp Hcl. cbn in Hp. subst p.
    unfold Teardown.thread_step, BrowserSession.guard. cbn. rewrite Hcl.
    by destruct cfg as [[v tr] ths]. }
  split; [exact Hpre|].
  split; [by apply torn_events|].
  split; [etrans; [by apply prefix_omap|]; unfold stops in Hs1; by rewrite Hs1|].
  split; [etrans; [by apply prefix_omap|]; exact Hs2|].
  split; [etrans; [by apply prefix_omap|]; exact Hs3|].
  split; [pose proof (bodies_le_total cfg.2); lia|].
  split; [intros l1 th l2; by eapply inv_alone|].
  split; [by eapply inv_finished|].
  intros w Hw. eexists. split; [by apply closeSession_open|].
  cbn [trace]. split; [done|].
  eapply closeSession_closed; [apply lookup_insert_eq|apply torn_closed].
Qed.

Lemma race_reachable :
  rtc (Teardown.step 0) (Teardown.initial (liveSession []) 2) raceEnd.
Proof.
  eapply rtc_l.
  { eapply (Teardown.step_thread 0 _ _ [] (Teardown.mkThread Teardown.Idle 0 0) _
              [Teardown.mkThread Teardown.Idle 0 0]). reflexivity. }
  eapply rtc_l.
  { eapply (Teardown.step_thread 0 _ _ [Teardown.mkThread Teardown.AtSignal 1 0]
              (Teardown.mkThread Teardown.Idle 0 0) _ []). reflexivity. }
  eapply rtc_l.
  { eapply (Teardown.step_thread 0 _ _ [] (Teardown.mkThread Teardown.AtSignal 1 0) _
              [Teardown.mkThread Teardown.Idle 1 0]). reflexivity. }
  eapply rtc_l.
  { eapply (Teardown.step_thread 0 _ _ [] (Teardown.mkThread Teardown.AtBidi 1 0) _
              [Teardown.mkThread Teardown.Idle 1 0]). reflexivity. }
  eapply rtc_l.
  { eapply (Teardown.step_thread 0 _ _ [] (Teardown.mkThread Teardown.AtBrowser 1 0) _
              [Teardown.mkThread Teardown.Idle 1 0]). reflexivity. }
  apply rtc_refl.
Qed.

Lemma teardown_at_most_once_witness :
  raceEnd.1 = torn 0 (liveSession [])
  ∧ sum_list_with Teardown.bodies raceEnd.2 = 1
  ∧ stops raceEnd.1.2 = [0].
Proof.
  destruct (teardown_at_most_once 0 (liveSession []) 2 raceEnd eq_refl eq_refl
              race_reachable)
    as (_ & _ & _ & _ & _ & _ & _ & _ & _ & Hdone & _).
  destruct Hdone as [H1 H2].
  - repeat constructor.
  - constructor. cbn. lia.
  - split; [exact H1|]. split; [exact H2|reflexivity].
Defined.

(** * Further properties

    ** Establishing a session *)

Lemma OnClientConnect_success w client cc lr ws :
  clients w !! client = Some cc →
  OnClientConnect (inr lr) (inr ws) client w = Some (tt, connected w cc client lr ws).
Proof.
  intros Hc. unfold OnClientConnect, connected, newSession. run. rewrite Hc.
  cbn [Connection.Connect]. run. by rewrite <- !app_assoc.
Qed.

Lemma fresh_session w : heap w !! fresh (dom (heap w)) = None.
Proof. apply not_elem_of_dom, is_fresh. Qed.

(** X1. When the launch and the dial succeed, [OnClientConnect] stores a new
    open session at an address that held no session, registers it under the
    client's identifier and then starts the relay; every session that existed
    keeps its state, every other registry entry and every client channel is
    left as it was, and nothing is sent to the client. *)
Theorem connect_registers (w : World) (client : loc) (cc : ClientConn.t)
    (lr : browser.LaunchResult) (ws : websocket.Conn) :
  clients w !! client = Some cc →
  ∃ s w', OnClientConnect (inr lr) (inr ws) client w = Some (tt, w')
    ∧ heap w !! s = None
    ∧ heap w' !! s = Some (newSession lr ws client)
    ∧ (∀ s' v, heap w !! s' = Some v → heap w' !! s' = Some v)
    ∧ sessions (router w') !! ClientConn.ID cc = Some s
    ∧ (∀ k, k ≠ ClientConn.ID cc →
         sessions (router w') !! k = sessions (router w) !! k)
    ∧ clients w' = clients w
    ∧ trace w' = trace w ++ [EvLaunch (headless (router w));
                             EvDial (browser.WebSocketURL lr); EvGo s].
Proof.
  intros Hc. exists (fresh (dom (heap w))), (connected w cc client lr ws).
  split; [by apply OnClientConnect_success|].
  pose proof (fresh_session w) as Hfresh.
  unfold connected. cbn [heap router sessions clients trace].
  split; [done|]. split; [apply lookup_insert_eq|]. split.
  { intros s' v Hs'. rewrite lookup_insert_ne; [done|]. intros <-. congruence. }
  split; [apply lookup_insert_eq|]. split; [|done].
  intros k Hk. by rewrite lookup_insert_ne.
Qed.

Lemma connect_registers_witness :
  ∃ s w', OnClientConnect (inr demoLaunch) (inr (engineConn [])) 0 (connectingWorld false)
          = Some (tt, w')
    ∧ sessions (router w') !! 1%Z = Some s
    ∧ heap w' !! s = Some (liveSession []).
Proof.
  destruct (connect_registers (connectingWorld false) 0
              (ClientConn.mk 1 (quietConn 10) false) demoLaunch (engineConn []) eq_refl)
    as (s & w' & Hrun & _ & Hs & _ & Hreg & _).
  exists s, w'. split; [exact Hrun|]. split; [exact Hreg|exact Hs].
Defined.

Lemma torn_newSession s lr ws client :
  ∃ ws', torn s (newSession lr ws client)
         = (BrowserSession.mk (Some lr) (Some (Connection.mk ws' true)) client true true,
            [EvStop s] ++ closeEvents ws ++ [EvLaunchClose (browser.proc lr)])
         ∧ websocket.id ws' = websocket.id ws.
Proof.
  unfold newSession. rewrite torn_full.
  destruct (Connection_Close_open ws) as (r & ws' & -> & Hid & _).
  by exists ws'.
Qed.

(** X2. A session that is established and then disconnected leaves nothing
    behind: [OnClientConnect] followed by [OnClientDisconnect] for the same
    client removes the registry entry again (the registry is the one before
    the connect when the identifier was not registered), releases what the
    connect acquired (stop signal, engine channel, engine process, each once
    and in this order), and leaves the client channels and all earlier
    sessions as they were. *)
Theorem connect_then_disconnect (w : World) (client : loc) (cc : ClientConn.t)
    (lr : browser.LaunchResult) (ws : websocket.Conn) :
  clients w !! client = Some cc →
  ∃ s w1 w2,
    OnClientConnect (inr lr) (inr ws) client w = Some (tt, w1)
    ∧ OnClientDisconnect client w1 = Some (tt, w2)
    ∧ sessions (router w2) = delete (ClientConn.ID cc) (sessions (router w))
    ∧ (sessions (router w) !! ClientConn.ID cc = None →
       sessions (router w2) = sessions (router w))
    ∧ clients w2 = clients w
    ∧ (∀ s' v, heap w !! s' = Some v → heap w2 !! s' = Some v)
    ∧ (∃ v, heap w2 !! s = Some v ∧ BrowserSession.closed v = true
            ∧ BrowserSession.stopChan v = true)
    ∧ trace w2 = trace w ++ [EvLaunch (headless (router w));
                             EvDial (browser.WebSocketURL lr); EvGo s; EvStop s]
                   ++ closeEvents ws ++ [EvLaunchClose (browser.proc lr)].
Proof.
  intros Hc. set (s := fresh (dom (heap w))).
  destruct (torn_newSession s lr ws client) as (ws' & Htorn & _).
  exists s, (connected w cc client lr ws). eexists.
  split; [by apply OnClientConnect_success|].
  split.
  { eapply (OnClientDisconnect_present _ _ cc s (newSession lr ws client)).
    - done.
    - apply lookup_insert_eq.
    - apply lookup_insert_eq.
    - done. }
  fold s. rewrite Htorn. cbn [router sessions clients heap trace connected fst snd].
  fold s. split; [apply delete_insert_eq|].
  split; [intros Hnone; by rewrite delete_insert_eq, delete_id|].
  split; [done|]. split.
  { intros s' v Hs'. rewrite !lookup_insert_ne; [done|..];
      intros <-; pose proof (fresh_session w); unfold s in *; congruence. }
  split; [eexists; split; [apply lookup_insert_eq|done]|].
  by rewrite <- !app_assoc.
Qed.

Lemma connect_then_disconnect_witness :
  ∃ w1 w2,
    OnClientConnect (inr demoLaunch) (inr (engineConn [])) 0 (connectingWorld false)
      = Some (tt, w1)
    ∧ OnClientDisconnect 0 w1 = Some (tt, w2)
    ∧ sessions (router w2) = ∅
    ∧ launchCloses (trace w2) = [5].
Proof.
  destruct (connect_then_disconnect (connectingWorld false) 0
              (ClientConn.mk 1 (quietConn 10) false) demoLaunch (engineConn []) eq_refl)
    as (s & w1 & w2 & H1 & H2 & _ & Hreg & _ & _ & _ & Htr).
  exists w1, w2. split; [exact H1|]. split; [exact H2|]. split.
  - rewrite Hreg; reflexivity.
  - rewrite Htr. reflexivity.
Defined.

(** ** Relaying in order *)

Lemma answer_all_None (script : list (option string)) :
  Forall (λ o, o = None) script →
  websocket.answer script = None ∧ Forall (λ o, o = None) (tail script).
Proof. intros H. destruct H as [|o l -> Hl]; by split. Qed.

(** One turn on a text frame. *)
Lemma relayReady_turn w s c cid m rest :
  relayReady w s c cid (websocket.Frame websocket.TextMessage m :: rest) →
  ∃ w', relayTurn s w = Some (Continue, w')
    ∧ relayReady w' s c cid rest
    ∧ trace w' = trace w ++ [EvWrite cid websocket.TextMessage m None]
    ∧ router w' = router w ∧ server w' = server w.
Proof.
  intros (session & b & cc & Hs & Hlive & Hstop & Hcl & Hb & Hbo & Hreads & Hc & Hco
          & Hid & Hw).
  subst c. destruct b as [wsb clb]. cbn in Hbo, Hreads. subst clb.
  destruct cc as [i wsc clc]. cbn in Hco, Hid, Hw. subst clc.
  destruct (answer_all_None _ Hw) as [Hans Hw'].
  assert (Hrecv : Connection.Receive (Connection.mk wsb false)
    = Some (inl m, Connection.mk
                     (websocket.mkConn (websocket.id wsb) rest (websocket.writes wsb)
                        (websocket.closes wsb)) false)).
  { unfold Connection.Receive, websocket.ReadMessage. cbn. rewrite Hreads.
    by rewrite decide_False by (intros H; by apply H). }
  eexists. split.
  { rewrite (relayTurn_forward _ _ _ _ _ Hs Hb Hc _ _ Hstop Hrecv).
    rewrite ClientConn_Send_open. cbn [fst snd]. rewrite Hans. reflexivity. }
  unfold afterTurn. cbn [heap clients router server trace].
  split; [|by rewrite Hid].
  eexists _, _, _. split; [apply lookup_insert_eq|].
  cbn. split; [done|]. split; [done|]. split; [done|]. split; [done|]. split; [done|].
  split; [done|]. split; [apply lookup_insert_eq|]. by cbn.
Qed.

Lemma relay_forwards_prefix msgs : ∀ w s c cid rest fuel,
  relayReady w s c cid (textFrames msgs ++ rest) →
  ∃ w', routeBrowserToClient (length msgs + fuel) s w = routeBrowserToClient fuel s w'
    ∧ relayReady w' s c cid rest
    ∧ trace w' = trace w ++ forwards cid msgs
    ∧ router w' = router w ∧ server w' = server w.
Proof.
  induction msgs as [|m msgs IH]; intros w s c cid rest fuel Hready.
  - exists w. by rewrite app_nil_r.
  - destruct (relayReady_turn _ _ _ _ _ _ Hready) as (w1 & Hturn & Hready1 & Htr1 & Hr1 & Hs1).
    destruct (IH _ _ _ _ _ fuel Hready1) as (w2 & Hloop & Hready2 & Htr2 & Hr2 & Hs2).
    exists w2. split.
    { cbn [length Nat.add]. rewrite routeBrowserToClient_unfold, Hturn. exact Hloop. }
    split; [done|]. split; [|split; congruence].
    rewrite Htr2, Htr1. cbn. by rewrite <- app_assoc.
Qed.

(** X3. Frames from the engine reach the client in the order of receipt and
    unmodified.  On a live session whose engine and client channels are open,
    with the client's transport accepting writes: if the engine delivers the
    text frames [msgs] and then stays silent, the relay writes exactly these
    payloads, in this order, as text frames to the client and then waits in
    [Receive]; if the engine's channel fails after them, the relay forwards
    them first, then closes the client channel and returns. *)
Theorem relay_forwards_in_order (w : World) (s c : loc) (cid : nat)
    (msgs : list string) (rest : list websocket.ReadResult) (extra : nat) :
  relayReady w s c cid (textFrames msgs ++ rest) →
  (rest = [] →
   ∃ w', routeBrowserToClient (S (length msgs + extra)) s w = Some (Waiting, w')
     ∧ trace w' = trace w ++ forwards cid msgs)
  ∧ (∀ e rest', rest = websocket.ReadErr e :: rest' →
       ∃ w' ws, routeBrowserToClient (S (length msgs + extra)) s w
                = Some (Returned (ExitReceive (ErrWebsocket e)), w')
         ∧ websocket.id ws = cid
         ∧ trace w' = trace w ++ forwards cid msgs ++ closeEvents ws
         ∧ ClientConn.closed <$> clients w' !! c = Some true).
Proof.
  intros Hready.
  destruct (relay_forwards_prefix msgs _ _ _ _ rest (S extra) Hready)
    as (w1 & Hloop & Hready1 & Htr1 & _).
  replace (S (length msgs + extra)) with (length msgs + S extra) by lia.
  rewrite Hloop.
  destruct Hready1 as (session & b & cc & Hs & Hlive & Hstop & Hcl & Hb & Hbo & Hreads
                       & Hc & Hco & Hid & Hw).
  split.
  - intros ->. exists w1. split; [|done].
    rewrite routeBrowserToClient_unfold.
    rewrite (relayTurn_blocked _ _ _ _ Hs Hb Hstop); [done|].
    unfold Connection.Receive, websocket.ReadMessage. by rewrite Hbo, Hreads.
  - intros e rest' ->.
    assert (Hrecv : ∃ b', Connection.Receive b = Some (inr (ErrWebsocket e), b')).
    { unfold Connection.Receive, websocket.ReadMessage. rewrite Hbo, Hreads. by eexists. }
    destruct Hrecv as (b' & Hrecv). subst c.
    destruct cc as [i wsc clc]. cbn in Hco, Hid. subst clc.
    destruct (ClientConn_Close_open i wsc) as (r & ws' & Hclose & _).
    eexists _, wsc. split.
    { rewrite routeBrowserToClient_unfold.
      rewrite (relayTurn_receive_failed _ _ _ _ _ Hs Hb Hc _ _ Hstop Hrecv).
      rewrite Hlive. reflexivity. }
    split; [done|]. unfold afterTurn. cbn [trace clients]. rewrite Hclose. cbn [fst snd].
    split; [by rewrite Htr1, <- app_assoc|].
    by rewrite lookup_insert_eq.
Qed.

(** A session fresh from [OnClientConnect] is ready to relay. *)
Lemma connected_relayReady w client i wsc lr ws :
  clients w !! client = Some (ClientConn.mk i wsc false) →
  Forall (λ o, o = None) (websocket.writes wsc) →
  relayReady (connected w (ClientConn.mk i wsc false) client lr ws)
    (fresh (dom (heap w))) client (websocket.id wsc) (websocket.reads ws).
Proof.
  intros Hc Hw. eexists _, _, _. unfold connected. cbn [heap clients].
  split; [apply lookup_insert_eq|]. unfold newSession. cbn.
  repeat (split; [done|]). done.
Qed.

Lemma relay_forwards_in_order_witness :
  ∃ w', routeBrowserToClient 3 0 (liveWorld (textFrames ["a"; "b"])) = Some (Waiting, w')
    ∧ trace w' = forwards 10 ["a"; "b"].
Proof.
  destruct (relay_forwards_in_order (liveWorld (textFrames ["a"; "b"])) 0 0 10
              ["a"; "b"] [] 0) as [H _].
  - eexists _, _, _. repeat (split; [reflexivity|]). constructor.
  - destruct (H eq_refl) as (w' & Hrun & Htr). exists w'. split; [exact Hrun|exact Htr].
Defined.

Lemma readLoop_text cb fuel client w cc p rest :
  clients w !! client = Some cc →
  websocket.reads (ClientConn.conn cc) = websocket.Frame websocket.TextMessage p :: rest →
  onMessage cb = Some OnClientMessage →
  readLoop cb (S fuel) client w
  = (OnClientMessage client p ;;; readLoop cb fuel client) (afterClientRead w client cc rest).
Proof.
  intros Hc Hr Hcb. cbn [readLoop]. unfold bind at 1, getClient at 1. rewrite Hc.
  unfold websocket.ReadMessage. rewrite Hr.
  unfold bind at 1, putClient at 1. rewrite decide_False by (intros H; by apply H).
  by rewrite Hcb.
Qed.

Lemma forwardReady_step cb w client s bid ty p rest fuel :
  onMessage cb = Some OnClientMessage →
  forwardReady w client s bid (websocket.Frame ty p :: rest) →
  ∃ w' evs,
    readLoop cb (S fuel) client w = readLoop cb fuel client w'
    ∧ forwardReady w' client s bid rest
    ∧ trace w' = trace w ++ evs
    ∧ (if decide (ty = websocket.TextMessage)
       then ∃ a, evs = [EvWrite bid websocket.TextMessage p a]
       else evs = [])
    ∧ router w' = router w ∧ server w' = server w.
Proof.
  intros Hcb (cc & session & b & Hc & Hreads & Hreg & Hs & Hlive & Hb & Hbo & Hid).
  destruct b as [wsb clb]. cbn in Hbo, Hid. subst clb bid.
  set (cc' := ClientConn.mk (ClientConn.ID cc)
                (websocket.mkConn (websocket.id (ClientConn.conn cc)) rest
                   (websocket.writes (ClientConn.conn cc))
                   (websocket.closes (ClientConn.conn cc)))
                (ClientConn.closed cc)).
  assert (Hc' : clients (afterClientRead w client cc rest) !! client = Some cc').
  { unfold afterClientRead. cbn [clients]. apply lookup_insert_eq. }
  case_decide as Hty.
  - subst ty. eexists _, _. split.
    { rewrite (readLoop_text _ _ _ _ cc p rest Hc Hreads Hcb).
      unfold bind at 1.
      rewrite (OnClientMessage_forward _ _ cc' p s session (Connection.mk wsb false));
        [reflexivity|done..]. }
    rewrite Connection_Send_open. cbn [fst snd heap clients router server trace afterClientRead].
    split; [|split; [reflexivity|split; [by eexists|by split]]].
    eexists cc', _, _. split; [apply lookup_insert_eq|]. split; [done|].
    split; [done|]. split; [apply lookup_insert_eq|]. by cbn.
  - exists (afterClientRead w client cc rest), [].
    split; [by eapply readLoop_skips|].
    split; [|by rewrite app_nil_r].
    by eexists cc', session, (Connection.mk wsb false).
Qed.

Lemma textsOf_cons ty p l :
  textsOf ((ty, p) :: l)
  = if decide (ty = websocket.TextMessage) then p :: textsOf l else textsOf l.
Proof. unfold textsOf. cbn. by case_decide. Qed.

Lemma client_frames_prefix cb l : ∀ w client s bid rest fuel,
  onMessage cb = Some OnClientMessage →
  forwardReady w client s bid (framesOf l ++ rest) →
  ∃ w' answers,
    readLoop cb (length l + fuel) client w = readLoop cb fuel client w'
    ∧ forwardReady w' client s bid rest
    ∧ length answers = length (textsOf l)
    ∧ trace w' = trace w ++ writesOf bid (textsOf l) answers
    ∧ router w' = router w ∧ server w' = server w.
Proof.
  induction l as [|[ty p] l IH]; intros w client s bid rest fuel Hcb Hready.
  - exists w, []. by rewrite app_nil_r.
  - destruct (forwardReady_step cb w client s bid ty p (framesOf l ++ rest)
                (length l + fuel) Hcb Hready)
      as (w1 & evs & Hstep & Hready1 & Htr1 & Hevs & Hr1 & Hs1).
    destruct (IH _ _ _ _ _ fuel Hcb Hready1)
      as (w2 & answers & Hloop & Hready2 & Hlen & Htr2 & Hr2 & Hs2).
    cbn [length Nat.add]. rewrite Hstep, Hloop. rewrite textsOf_cons.
    destruct (decide (ty = websocket.TextMessage)) as [Hty|Hty].
    + destruct Hevs as [a ->]. exists w2, (a :: answers).
      split; [done|]. split; [done|]. split; [cbn [length]; by rewrite Hlen|].
      split; [|split; congruence].
      rewrite Htr2, Htr1. cbn. by rewrite <- app_assoc.
    + subst evs. exists w2, answers.
      split; [done|]. split; [done|]. split; [done|].
      split; [|split; congruence].
      rewrite Htr2, Htr1. by rewrite app_nil_r.
Qed.

(** X4. Messages from the client reach the engine in the order of receipt
    and unmodified, whatever becomes of the individual sends.  With
    [OnClientMessage] as the message callback and a live session for the
    client: while the client delivers frames, the read loop hands the
    payload of every text frame, in order, to the engine channel (one text
    write each), skips every other frame, does nothing else, and, when the
    client falls silent, waits in [ReadMessage]; a send that fails does not
    stop the loop. *)
Theorem client_frames_forwarded_in_order (cb : Callbacks) (w : World) (client s : loc)
    (bid : nat) (l : list (Z * string)) (extra : nat) :
  onMessage cb = Some OnClientMessage →
  forwardReady w client s bid (framesOf l) →
  ∃ w' answers,
    readLoop cb (S (length l + extra)) client w = Some (ReadWaiting, w')
    ∧ length answers = length (textsOf l)
    ∧ trace w' = trace w ++ writesOf bid (textsOf l) answers
    ∧ textFramesTo bid (writesOf bid (textsOf l) answers) = textsOf l
    ∧ forwardReady w' client s bid []
    ∧ router w' = router w.
Proof.
  intros Hcb Hready.
  destruct (client_frames_prefix cb l w client s bid [] (S extra) Hcb)
    as (w' & answers & Hloop & Hready' & Hlen & Htr & Hr & _).
  { by rewrite app_nil_r. }
  exists w', answers.
  replace (S (length l + extra)) with (length l + S extra) by lia.
  rewrite Hloop. split.
  { destruct Hready' as (cc & session & b & Hc & Hreads & _).
    cbn [readLoop]. run. rewrite Hc. unfold websocket.ReadMessage. by rewrite Hreads. }
  split; [done|]. split; [done|]. split; [|done].
  clear -Hlen. revert answers Hlen.
  induction (textsOf l) as [|p ps IH]; intros [|a answers] Hlen; try done.
  cbn. rewrite decide_True by done. f_equal. apply IH. by injection Hlen.
Qed.

Lemma client_frames_forwarded_in_order_witness :
  ∃ w', readLoop (routerCallbacks (inl "unused") (inl "unused")) 4 0
          (liveWorldWith (framesOf chatter) []) = Some (ReadWaiting, w')
    ∧ textFramesTo 20 (trace w') = ["x"; "y"].
Proof.
  destruct (client_frames_forwarded_in_order
              (routerCallbacks (inl "unused") (inl "unused"))
              (liveWorldWith (framesOf chatter) []) 0 0 20 chatter 0 eq_refl)
    as (w' & answers & Hrun & _ & Htr & Htext & _).
  - eexists _, _, _. repeat (split; [reflexivity|]). reflexivity.
  - exists w'. split; [exact Hrun|]. rewrite Htr. exact Htext.
Defined.

(** ** Closing every session *)

Lemma closeSession_uniform w s v :
  heap w !! s = Some v → consistent v →
  closeSession s w
  = Some (tt, mkWorld (clients w) (<[s := (torn s v).1]> (heap w)) (router w) (server w)
                (trace w ++ (torn s v).2)).
Proof.
  intros Hs Hcons. rewrite (closeSession_total _ _ _ Hs Hcons).
  unfold torn. destruct (BrowserSession.closed v); [|done].
  cbn [fst snd]. by rewrite insert_id, app_nil_r, World_eta.
Qed.

Lemma torn_of_closed s v : BrowserSession.closed v = true → torn s v = (v, []).
Proof. intros H. unfold torn. by rewrite H. Qed.

Lemma torn_stops s v :
  consistent v →
  stops (torn s v).2 = if BrowserSession.closed v then [] else [s].
Proof.
  intros Hcons. destruct (BrowserSession.closed v) eqn:Hcl.
  - by rewrite torn_of_closed.
  - by destruct (torn_counts s v Hcl (Hcons Hcl)) as (H & _).
Qed.

Lemma stops_app t1 t2 : stops (t1 ++ t2) = stops t1 ++ stops t2.
Proof. unfold stops. apply omap_app. Qed.

Lemma closeEach_spec l : ∀ w,
  allConsistent w →
  Forall (λ kv, is_Some (heap w !! kv.2)) l →
  ∃ w' evs,
    closeEach l w = Some (tt, w')
    ∧ trace w' = trace w ++ evs
    ∧ clients w' = clients w ∧ server w' = server w
    ∧ headless (router w') = headless (router w)
    ∧ (∀ k, sessions (router w') !! k
            = if decide (k ∈ l.*1) then None else sessions (router w) !! k)
    ∧ allConsistent w'
    ∧ (∀ s v, heap w !! s = Some v → BrowserSession.closed v = true →
              heap w' !! s = Some v)
    ∧ (∀ s v, heap w !! s = Some v → s ∉ l.*2 → heap w' !! s = Some v)
    ∧ (∀ s, s ∈ l.*2 → ∃ v', heap w' !! s = Some v' ∧ BrowserSession.closed v' = true)
    ∧ NoDup (stops evs)
    ∧ (∀ s, s ∈ stops evs ↔ s ∈ l.*2 ∧ openIn w s).
Proof.
  induction l as [|[k s] l IH]; intros w Hcons Hpres.
  - exists w, []. cbn. rewrite app_nil_r. repeat (split; [done|]).
    split; [intros s; by rewrite elem_of_nil|]. split; [constructor|].
    intros s. rewrite !elem_of_nil. split; [done|by intros [[] _]].
  - apply Forall_cons in Hpres as [[v Hs] Hpres]. cbn [fst snd] in Hs.
    pose proof (Hcons _ _ Hs) as Hv.
    set (t := (torn s v).1). set (e1 := (torn s v).2).
    set (w1 := mkWorld (clients w) (<[s := t]> (heap w))
                 (mkRouter (delete k (sessions (router w))) (headless (router w)))
                 (server w) (trace w ++ e1)).
    assert (Ht : BrowserSession.closed t = true) by apply torn_closed.
    destruct (IH w1) as (w' & evs & Hrun & Htr & Hcl & Hsv & Hhl & Hreg & Hcons'
                         & Hkeep & Hout & Hin & Hnd & Hiff).
    { intros s0 v0. unfold w1. cbn [heap]. rewrite lookup_insert.
      case_decide; [|by apply Hcons]. intros Heq Hopen. congruence. }
    { eapply Forall_impl; [exact Hpres|]. intros [k0 s0]. unfold w1. cbn [heap fst snd].
      rewrite lookup_insert. by case_decide. }
    assert (Hs1 : heap w1 !! s = Some t) by apply lookup_insert_eq.
    exists w', (e1 ++ evs).
    split.
    { cbn [closeEach foldr fst snd]. unfold bind at 1.
      rewrite (closeSession_uniform _ _ _ Hs Hv). exact Hrun. }
    split; [rewrite Htr; unfold w1; cbn [trace]; by rewrite <- app_assoc|].
    split; [done|]. split; [done|]. split; [done|].
    split.
    { intros k0. rewrite Hreg. unfold w1. cbn [router sessions fmap list_fmap fst].
      destruct (decide (k0 = k)) as [->|Hne].
      - rewrite lookup_delete_eq. rewrite (decide_True (P := k ∈ k :: l.*1)); [|left].
        by case_decide.
      - rewrite lookup_delete_ne by done.
        destruct (decide (k0 ∈ l.*1)) as [Hin0|Hnin0].
        + by rewrite decide_True by (by right).
        + rewrite decide_False; [done|]. rewrite elem_of_cons. by intros [?|?]. }
    split; [done|].
    assert (Hother : ∀ s0, s0 ≠ s → heap w1 !! s0 = heap w !! s0).
    { intros s0 Hne. unfold w1. cbn [heap]. by rewrite lookup_insert_ne. }
    split.
    { intros s0 v0 Hs0 Hclosed. apply Hkeep; [|done].
      destruct (decide (s0 = s)) as [->|Hne]; [|by rewrite Hother].
      rewrite Hs1. f_equal. unfold t. assert (v0 = v) as -> by congruence.
      by rewrite torn_of_closed. }
    split.
    { intros s0 v0 Hs0 Hnin. cbn [fmap list_fmap snd] in Hnin.
      rewrite elem_of_cons in Hnin. apply Hout; [|intros ?; apply Hnin; by right].
      rewrite Hother; [done|intros ->; apply Hnin; by left]. }
    split.
    { intros s0 Hs0. cbn [fmap list_fmap snd] in Hs0. rewrite elem_of_cons in Hs0.
      destruct (decide (s0 ∈ l.*2)) as [Hl|Hl]; [by apply Hin|].
      destruct Hs0 as [->|?]; [|done]. exists t. split; [|done]. by apply Hkeep. }
    assert (Hs_not : s ∉ stops evs).
    { intros Hmem. apply Hiff in Hmem as (_ & v1 & Hv1 & Hopen1). congruence. }
    assert (He1 : stops e1 = if BrowserSession.closed v then [] else [s])
      by (by apply torn_stops).
    split.
    { rewrite stops_app, He1. destruct (BrowserSession.closed v); [done|].
      cbn. by apply NoDup_cons. }
    intros s0. rewrite stops_app, elem_of_app, Hiff, He1.
    cbn [fmap list_fmap snd]. rewrite elem_of_cons. unfold openIn. split.
    + intros [Hfirst|(Hl & v1 & Hv1 & Hopen1)].
      * destruct (BrowserSession.closed v) eqn:Hclv; [by apply elem_of_nil in Hfirst|].
        apply list_elem_of_singleton in Hfirst as ->. split; [by left|by exists v].
      * split; [by right|]. exists v1. split; [|done].
        rewrite <- Hother; [done|]. intros ->. congruence.
    + intros (Hmem & v0 & Hv0 & Hopen0).
      destruct (decide (s0 = s)) as [->|Hne].
      * left. assert (v0 = v) as -> by congruence. rewrite Hopen0.
        by apply list_elem_of_singleton.
      * right. split; [by destruct Hmem|]. exists v0. by rewrite Hother.
Qed.

Lemma elem_of_registry (m : gmap Z loc) s :
  s ∈ (map_to_list m).*2 ↔ ∃ k, m !! k = Some s.
Proof.
  rewrite list_elem_of_fmap. split.
  - intros ([k s'] & -> & Hin). exists k. by apply elem_of_map_to_list.
  - intros (k & Hk). exists (k, s). split; [done|]. by apply elem_of_map_to_list.
Qed.

(** X5. [CloseAll] empties the registry and closes every registered
    session.  On a store whose sessions are consistent and whose registry
    entries point to sessions: when [CloseAll] returns the registry is
    empty; every session that was registered is marked closed; the stop
    signal has been given exactly once to each registered session that was
    still open, and to no other session; sessions that were already closed
    and sessions that are not registered are left exactly as they were; no
    client channel is touched; and a second [CloseAll] changes nothing. *)
Theorem CloseAll_closes_every_session (w : World) :
  allConsistent w →
  (∀ k s, sessions (router w) !! k = Some s → is_Some (heap w !! s)) →
  ∃ w' evs,
    CloseAll w = Some (tt, w')
    ∧ sessions (router w') = ∅
    ∧ trace w' = trace w ++ evs
    ∧ clients w' = clients w
    ∧ (∀ k s, sessions (router w) !! k = Some s →
         ∃ v', heap w' !! s = Some v' ∧ BrowserSession.closed v' = true)
    ∧ NoDup (stops evs)
    ∧ (∀ s, s ∈ stops evs ↔ (∃ k, sessions (router w) !! k = Some s) ∧ openIn w s)
    ∧ (∀ s v, heap w !! s = Some v → BrowserSession.closed v = true →
         heap w' !! s = Some v)
    ∧ (∀ s v, heap w !! s = Some v → (∀ k, sessions (router w) !! k ≠ Some s) →
         heap w' !! s = Some v)
    ∧ CloseAll w' = Some (tt, w').
Proof.
  intros Hcons Hpres.
  destruct (closeEach_spec (map_to_list (sessions (router w))) w Hcons)
    as (w' & evs & Hrun & Htr & Hcl & _ & _ & Hreg & _ & Hkeep & Hout & Hin & Hnd & Hiff).
  { apply Forall_forall. intros [k s] Hks. apply elem_of_map_to_list in Hks.
    by eapply Hpres. }
  assert (Hempty : sessions (router w') = ∅).
  { apply map_empty. intros k. rewrite Hreg. case_decide as Hk; [done|].
    destruct (sessions (router w) !! k) as [s|] eqn:Hks; [|done].
    exfalso. apply Hk. apply list_elem_of_fmap. exists (k, s).
    split; [done|]. by apply elem_of_map_to_list. }
  exists w', evs. split; [exact Hrun|]. split; [done|]. split; [done|]. split; [done|].
  split.
  { intros k s Hks. apply Hin, elem_of_registry. by exists k. }
  split; [done|]. split.
  { intros s. rewrite Hiff. by rewrite elem_of_registry. }
  split; [done|]. split.
  { intros s v Hs Hnot. apply Hout; [done|]. rewrite elem_of_registry.
    intros (k & Hk). by eapply Hnot. }
  unfold CloseAll. run. rewrite Hempty. by rewrite map_to_list_empty.
Qed.

Lemma CloseAll_closes_every_session_witness :
  ∃ w', CloseAll (liveWorld []) = Some (tt, w')
    ∧ sessions (router w') = ∅
    ∧ stops (trace w') = [0].
Proof.
  destruct (CloseAll_closes_every_session (liveWorld [])) as (w' & evs & Hrun & Hreg & _).
  - intros s v Hs. destruct (decide (s = 0)) as [->|Hne].
    + injection Hs as <-. done.
    + unfold liveWorld, liveWorldWith in Hs. cbn [heap] in Hs.
      by rewrite lookup_singleton_ne in Hs.
  - intros k s Hks. destruct (decide (k = 1%Z)) as [->|Hne].
    + injection Hks as <-. by eexists.
    + unfold liveWorld, liveWorldWith in Hks. cbn [router sessions] in Hks.
      by rewrite lookup_singleton_ne in Hks.
  - exists w'. split; [exact Hrun|]. split; [exact Hreg|].
    assert (Hw : CloseAll (liveWorld []) = Some (tt, w')) by exact Hrun.
    vm_compute in Hw. injection Hw as <-. reflexivity.
Defined.

(** ** The end of a client connection *)

Lemma readLoop_failed cb fuel client w cc e rest :
  clients w !! client = Some cc →
  websocket.reads (ClientConn.conn cc) = websocket.ReadErr e :: rest →
  readLoop cb (S fuel) client w = Some (ReadFailed, afterClientRead w client cc rest).
Proof.
  intros Hc Hr. cbn [readLoop]. run. rewrite Hc.
  unfold websocket.ReadMessage. by rewrite Hr.
Qed.

(** [handleClient] when the read fails: the deferred function has closed the
    client and forgotten it, and [onClose] gets the store so left. *)
Lemma handleClient_failed cb fuel client w cc e rest :
  clients w !! client = Some cc →
  websocket.reads (ClientConn.conn cc) = websocket.ReadErr e :: rest →
  handleClient cb (S fuel) client w
  = (call1 (onClose cb) client ;;; ret ReadFailed)
      (mkWorld (<[client := (ClientConn.Close (afterRead cc rest)).1.2]> (clients w))
               (heap w) (router w) (forget (ClientConn.ID cc) (server w))
               (trace w ++ (ClientConn.Close (afterRead cc rest)).2)).
Proof.
  intros Hc Hr. unfold handleClient. unfold bind at 1.
  rewrite (readLoop_failed _ _ _ _ _ _ _ Hc Hr).
  unfold afterClientRead. fold (afterRead cc rest). run.
  rewrite lookup_insert_eq. run. rewrite lookup_insert_eq.
  cbn [afterRead ClientConn.ID].
  destruct (ClientConn.Close _) as [[r c1] evs] eqn:Hclose.
  run. rewrite insert_insert_eq. reflexivity.
Qed.

Lemma ClientConn_Close_ID c : ClientConn.ID (ClientConn.Close c).1.2 = ClientConn.ID c.
Proof. unfold ClientConn.Close. by destruct (ClientConn.closed c). Qed.

(** X6. When the read on a client connection fails, [handleClient] cleans up
    completely.  With [OnClientDisconnect] as the close callback: the client
    is removed from the server's table and its channel is closed (a channel
    that is already closed is not closed again); if the client has a
    registered session, the registry entry is removed and the session is torn
    down, after the client channel has been closed; if it has none, nothing
    else happens.  After the teardown of a session that was live, the relay
    of that session returns at its next turn without touching anything. *)
Theorem client_disconnect_cleans_up (cb : Callbacks) (w : World) (client : loc)
    (cc : ClientConn.t) (e : string) (rest : list websocket.ReadResult) (fuel : nat) :
  onClose cb = Some OnClientDisconnect →
  clients w !! client = Some cc →
  websocket.reads (ClientConn.conn cc) = websocket.ReadErr e :: rest →
  let closing := ClientConn.Close (afterRead cc rest) in
  (sessions (router w) !! ClientConn.ID cc = None →
   handleClient cb (S fuel) client w
   = Some (ReadFailed,
           mkWorld (<[client := closing.1.2]> (clients w)) (heap w) (router w)
                   (forget (ClientConn.ID cc) (server w)) (trace w ++ closing.2)))
  ∧ (∀ s v,
       sessions (router w) !! ClientConn.ID cc = Some s →
       heap w !! s = Some v →
       consistent v →
       ∃ w', handleClient cb (S fuel) client w = Some (ReadFailed, w')
         ∧ clients w' = <[client := closing.1.2]> (clients w)
         ∧ server w' = forget (ClientConn.ID cc) (server w)
         ∧ sessions (router w') = delete (ClientConn.ID cc) (sessions (router w))
         ∧ heap w' = <[s := (torn s v).1]> (heap w)
         ∧ trace w' = trace w ++ closing.2 ++ (torn s v).2
         ∧ (BrowserSession.closed v = false →
            ∀ n, routeBrowserToClient (S n) s w' = Some (Returned ExitStop, w')))
  ∧ ClientConn.closed closing.1.2 = true
  ∧ (ClientConn.closed cc = true → closing.2 = [])
  ∧ (ClientConn.closed cc = false → closing.2 = closeEvents (ClientConn.conn cc)).
Proof.
  intros Hcb Hc Hr closing.
  pose proof (handleClient_failed cb fuel client w cc e rest Hc Hr) as Hrun.
  fold closing in Hrun. rewrite Hcb in Hrun. cbn [call1] in Hrun.
  assert (Hc' : ∀ h r sv t,
    clients (mkWorld (<[client := closing.1.2]> (clients w)) h r sv t) !! client
    = Some closing.1.2) by (intros; apply lookup_insert_eq).
  assert (HID : ClientConn.ID closing.1.2 = ClientConn.ID cc).
  { unfold closing. by rewrite ClientConn_Close_ID. }
  split; [|split; [|split; [apply ClientConn_Close_closed|split]]].
  - intros Hnone. rewrite Hrun. unfold bind at 1.
    rewrite (OnClientDisconnect_absent _ _ closing.1.2); [done|apply Hc'|].
    by rewrite HID.
  - intros s v Hreg Hs Hv. eexists. split.
    { rewrite Hrun. unfold bind at 1.
      rewrite (OnClientDisconnect_present _ _ closing.1.2 s v);
        [reflexivity|apply Hc'|by rewrite HID|done|done]. }
    cbn [clients server router sessions heap trace]. rewrite HID.
    do 4 (split; [done|]). split; [by rewrite <- app_assoc|].
    intros Hopen n. rewrite routeBrowserToClient_unfold.
    erewrite relayTurn_stop; [done|apply lookup_insert_eq|].
    by destruct (torn_events s v Hopen) as (_ & _ & ?).
  - intros Hcl. unfold closing, afterRead. unfold ClientConn.Close. cbn. by rewrite Hcl.
  - intros Hcl. unfold closing, afterRead. destruct cc as [i ws cl]. cbn in Hcl. subst cl.
    cbn [ClientConn.ID ClientConn.conn ClientConn.closed].
    by destruct (ClientConn_Close_open i
                   (websocket.mkConn (websocket.id ws) rest (websocket.writes ws)
                      (websocket.closes ws))) as (r & ws' & -> & _).
Qed.

Lemma client_disconnect_cleans_up_witness :
  ∃ w', handleClient (routerCallbacks (inl "unused") (inl "unused")) 1 0
          (liveWorldWith [websocket.ReadErr "EOF"] []) = Some (ReadFailed, w')
    ∧ sessions (router w') = ∅
    ∧ trace w' = closeEvents (quietConn 10) ++ [EvStop 0] ++ closeEvents (engineConn [])
                   ++ [EvLaunchClose 5].
Proof.
  destruct (client_disconnect_cleans_up
              (routerCallbacks (inl "unused") (inl "unused"))
              (liveWorldWith [websocket.ReadErr "EOF"] []) 0
              (ClientConn.mk 1 (websocket.mkConn 10 [websocket.ReadErr "EOF"] [] []) false)
              "EOF" [] 0 eq_refl eq_refl eq_refl) as (_ & H & _).
  destruct (H 0 (liveSession []) eq_refl eq_refl ltac:(done))
    as (w' & Hrun & _ & _ & Hreg & _ & Htr & _).
  exists w'. split; [exact Hrun|]. split.
  - rewrite Hreg. reflexivity.
  - rewrite Htr. reflexivity.
Defined.

(** ** The death of an engine *)

(** X7. When the engine side of a live session fails, the session is torn
    down completely and nothing else is touched.  The relay, on the failed
    receive, closes the client channel and returns; the read on the client
    connection then fails and [handleClient], with [OnClientDisconnect] as
    the close callback, removes the client from the server's table and the
    session from the registry and releases the session (stop signal, engine
    channel, engine process).  The client channel is closed once, by the
    relay; every other session and every other client channel is exactly as
    before. *)
Theorem engine_death_tears_down (cb : Callbacks) (w : World) (s : loc)
    (session : BrowserSession.t) (b b' : Connection.t) (cc : ClientConn.t)
    (err : error) (e : string) (rest : list websocket.ReadResult) (n fuel : nat) :
  onClose cb = Some OnClientDisconnect →
  heap w !! s = Some session →
  BrowserSession.closed session = false →
  BrowserSession.stopChan session = false →
  BrowserSession.BidiConn session = Some b →
  Connection.Receive b = Some (inr err, b') →
  clients w !! BrowserSession.Client session = Some cc →
  ClientConn.closed cc = false →
  websocket.reads (ClientConn.conn cc) = websocket.ReadErr e :: rest →
  sessions (router w) !! ClientConn.ID cc = Some s →
  ∃ w1 w2,
    routeBrowserToClient (S n) s w = Some (Returned (ExitReceive err), w1)
    ∧ handleClient cb (S fuel) (BrowserSession.Client session) w1 = Some (ReadFailed, w2)
    ∧ trace w2 = trace w ++ closeEvents (ClientConn.conn cc) ++ [EvStop s]
                   ++ bidiRelease (BrowserSession.set_BidiConn b' session)
                   ++ browserRelease session
    ∧ sessions (router w2) = delete (ClientConn.ID cc) (sessions (router w))
    ∧ srv_clients (server w2) = delete (ClientConn.ID cc) (srv_clients (server w))
    ∧ (∃ v, heap w2 !! s = Some v ∧ BrowserSession.closed v = true
            ∧ BrowserSession.stopChan v = true)
    ∧ (∃ c, clients w2 !! BrowserSession.Client session = Some c
            ∧ ClientConn.closed c = true)
    ∧ (∀ s', s' ≠ s → heap w2 !! s' = heap w !! s')
    ∧ (∀ c', c' ≠ BrowserSession.Client session → clients w2 !! c' = clients w !! c').
Proof.
  intros Hcb Hs Hlive Hstop Hb Hrecv Hc Hco Hreads Hreg.
  set (client := BrowserSession.Client session) in *.
  destruct cc as [i ws clc]. cbn in Hco, Hreads, Hreg. subst clc.
  destruct (ClientConn_Close_open i ws) as (r & ws' & Hclose & Hid' & Hreads').
  set (cc1 := ClientConn.mk i ws' true).
  set (v1 := BrowserSession.set_BidiConn b' session).
  set (w1 := afterTurn w s session b' cc1 (closeEvents ws)).
  assert (Hrelay : routeBrowserToClient (S n) s w = Some (Returned (ExitReceive err), w1)).
  { rewrite routeBrowserToClient_unfold.
    rewrite (relayTurn_receive_failed _ _ _ _ _ Hs Hb Hc _ _ Hstop Hrecv).
    rewrite Hlive, Hclose. reflexivity. }
  assert (Hc1 : clients w1 !! client = Some cc1) by apply lookup_insert_eq.
  assert (Hr1 : websocket.reads (ClientConn.conn cc1) = websocket.ReadErr e :: rest).
  { cbn. by rewrite Hreads'. }
  assert (Hs1 : heap w1 !! s = Some v1) by apply lookup_insert_eq.
  assert (Hv1 : consistent v1) by (intros _; exact Hstop).
  pose proof (handleClient_failed cb fuel client w1 cc1 e rest Hc1 Hr1) as Hrun.
  rewrite Hcb in Hrun. cbn [call1] in Hrun.
  assert (Hagain : ClientConn.Close (afterRead cc1 rest) = (None, afterRead cc1 rest, []))
    by reflexivity.
  rewrite Hagain in Hrun. cbn [fst snd] in Hrun.
  unfold bind at 1 in Hrun.
  rewrite (OnClientDisconnect_present _ _ (afterRead cc1 rest) s v1) in Hrun;
    [|apply lookup_insert_eq|exact Hreg|exact Hs1|exact Hv1].
  exists w1. eexists. split; [exact Hrelay|]. split; [exact Hrun|].
  destruct (torn_events s v1 Hlive) as (Hev & _ & Hst).
  cbn [trace router sessions server srv_clients forget heap clients w1 afterTurn
       afterRead ClientConn.ID cc1].
  split.
  { rewrite Hev, app_nil_r, <- !app_assoc. reflexivity. }
  split; [done|]. split; [done|].
  split.
  { eexists. split; [apply lookup_insert_eq|]. split; [apply torn_closed|done]. }
  split.
  { eexists. split; [apply lookup_insert_eq|done]. }
  split.
  - intros s' Hne. by rewrite !lookup_insert_ne.
  - intros c' Hne. by rewrite !lookup_insert_ne.
Qed.

Lemma engine_death_tears_down_witness :
  ∃ w1 w2,
    routeBrowserToClient 1 0
      (liveWorldWith [websocket.ReadErr "closed"] [websocket.ReadErr "EOF"])
      = Some (Returned (ExitReceive (ErrWebsocket "EOF")), w1)
    ∧ handleClient (routerCallbacks (inl "unused") (inl "unused")) 1 0 w1
      = Some (ReadFailed, w2)
    ∧ sessions (router w2) = ∅.
Proof.
  destruct (engine_death_tears_down
              (routerCallbacks (inl "unused") (inl "unused"))
              (liveWorldWith [websocket.ReadErr "closed"] [websocket.ReadErr "EOF"]) 0
              (liveSession [websocket.ReadErr "EOF"])
              (Connection.mk (engineConn [websocket.ReadErr "EOF"]) false)
              (Connection.mk (engineConn []) false)
              (ClientConn.mk 1 (websocket.mkConn 10 [websocket.ReadErr "closed"] [] []) false)
              (ErrWebsocket "EOF") "closed" [] 0 0)
    as (w1 & w2 & H1 & H2 & _ & Hreg & _); try reflexivity.
  exists w1, w2. split; [exact H1|]. split; [exact H2|]. rewrite Hreg. reflexivity.
Defined.

(** ** Stopping the server *)

Lemma ClientConn_Close_events c : closingOnly (ClientConn.Close c).2.
Proof.
  destruct c as [i ws [|]]; [constructor|].
  destruct (ClientConn_Close_open i ws) as (r & ws' & -> & _).
  repeat constructor.
Qed.

Lemma ClientConn_Close_twice c :
  (ClientConn.Close (ClientConn.Close c).1.2).1.2 = (ClientConn.Close c).1.2.
Proof. by rewrite ClientConn_Close_again by apply ClientConn_Close_closed. Qed.

Lemma onClient_Close w c cc :
  clients w !! c = Some cc →
  onClient c ClientConn.Close w
  = Some ((ClientConn.Close cc).1.1,
          mkWorld (<[c := (ClientConn.Close cc).1.2]> (clients w)) (heap w) (router w)
                  (server w) (trace w ++ (ClientConn.Close cc).2)).
Proof.
  intros Hc. run. rewrite Hc. by destruct (ClientConn.Close cc) as [[r c1] evs].
Qed.

Lemma closeClients_spec l : ∀ w,
  Forall (λ kv, is_Some (clients w !! kv.2)) l →
  ∃ w' evs,
    closeClients l w = Some (tt, w')
    ∧ trace w' = trace w ++ evs
    ∧ closingOnly evs
    ∧ heap w' = heap w ∧ router w' = router w ∧ server w' = server w
    ∧ (∀ c, clients w' !! c
            = (λ cc, if decide (c ∈ l.*2) then (ClientConn.Close cc).1.2 else cc)
                <$> clients w !! c).
Proof.
  induction l as [|[k c] l IH]; intros w Hpres.
  - exists w, []. cbn. rewrite app_nil_r. repeat (split; [done|]).
    split; [constructor|]. repeat (split; [done|]).
    intros c. by destruct (clients w !! c).
  - apply Forall_cons in Hpres as [[cc Hc] Hpres]. cbn [fst snd] in Hc.
    set (w1 := mkWorld (<[c := (ClientConn.Close cc).1.2]> (clients w)) (heap w)
                 (router w) (server w) (trace w ++ (ClientConn.Close cc).2)).
    destruct (IH w1) as (w' & evs & Hrun & Htr & Hev & Hh & Hr & Hsv & Hcl).
    { eapply Forall_impl; [exact Hpres|]. intros [k0 c0]. unfold w1. cbn [clients fst snd].
      rewrite lookup_insert. by case_decide. }
    exists w', ((ClientConn.Close cc).2 ++ evs). split.
    { cbn [closeClients foldr fst snd]. unfold bind at 1.
      rewrite (onClient_Close _ _ _ Hc). exact Hrun. }
    split; [rewrite Htr; unfold w1; cbn [trace]; by rewrite <- app_assoc|].
    split; [apply Forall_app; split; [apply ClientConn_Close_events|done]|].
    do 3 (split; [done|]).
    intros c0. rewrite Hcl. unfold w1. cbn [clients fmap list_fmap snd].
    destruct (decide (c0 = c)) as [->|Hne].
    + rewrite lookup_insert_eq, Hc. cbn.
      rewrite (decide_True (P := c ∈ c :: l.*2)) by left.
      case_decide; [by rewrite ClientConn_Close_twice|done].
    + rewrite lookup_insert_ne by done. destruct (clients w !! c0) as [cc0|]; [|done].
      cbn. f_equal. destruct (decide (c0 ∈ l.*2)) as [Hin|Hnin].
      * by rewrite decide_True by (by right).
      * rewrite decide_False; [done|]. rewrite elem_of_cons. by intros [?|?].
Qed.

Lemma closeClients_closed l : ∀ w,
  Forall (λ kv, ∃ cc, clients w !! kv.2 = Some cc ∧ ClientConn.closed cc = true) l →
  closeClients l w = Some (tt, w).
Proof.
  induction l as [|[k c] l IH]; intros w Hall; [done|].
  apply Forall_cons in Hall as [(cc & Hc & Hcl) Hall]. cbn [fst snd] in Hc.
  cbn [closeClients foldr fst snd]. unfold bind at 1.
  rewrite (onClient_Close _ _ _ Hc). rewrite (ClientConn_Close_again _ Hcl).
  cbn [fst snd]. rewrite insert_id by done. rewrite app_nil_r, World_eta.
  by apply IH.
Qed.

Lemma Stop_unfold shutdown w :
  Stop shutdown w
  = if httpServer (server w)
    then (closeClients (map_to_list (srv_clients (server w))) ;;; ret shutdown) w
    else Some (None, w).
Proof. unfold Stop. run. by destruct (httpServer (server w)). Qed.

(** X8. [Stop] closes every client the server has stored, and only closes.
    Before [Start] has succeeded, [Stop] does nothing and reports no error.
    After it, on a server whose stored clients exist: [Stop] returns what
    the shutdown of the listener returns; every stored client channel is
    left exactly as one [Close] leaves it (open channels are closed, closed
    ones are not closed again), every other client channel and every session
    and registry entry is untouched; no text frame is sent; and a second
    [Stop] closes nothing. *)
Theorem Stop_closes_every_client (shutdown : option string) (w : World) :
  (httpServer (server w) = false → Stop shutdown w = Some (None, w))
  ∧ (httpServer (server w) = true →
     (∀ k c, srv_clients (server w) !! k = Some c → is_Some (clients w !! c)) →
     ∃ w' evs,
       Stop shutdown w = Some (shutdown, w')
       ∧ trace w' = trace w ++ evs
       ∧ closingOnly evs
       ∧ heap w' = heap w ∧ router w' = router w ∧ server w' = server w
       ∧ (∀ k c, srv_clients (server w) !! k = Some c →
            ∃ cc, clients w !! c = Some cc
                  ∧ clients w' !! c = Some (ClientConn.Close cc).1.2
                  ∧ ClientConn.closed (ClientConn.Close cc).1.2 = true)
       ∧ (∀ c, (∀ k, srv_clients (server w) !! k ≠ Some c) →
            clients w' !! c = clients w !! c)
       ∧ ∀ again, Stop again w' = Some (again, w')).
Proof.
  split.
  { intros Hoff. by rewrite Stop_unfold, Hoff. }
  intros Hon Hpres.
  destruct (closeClients_spec (map_to_list (srv_clients (server w))) w)
    as (w' & evs & Hrun & Htr & Hev & Hh & Hr & Hsv & Hcl).
  { apply Forall_forall. intros [k c] Hkc. apply elem_of_map_to_list in Hkc.
    by eapply Hpres. }
  assert (Hstored : ∀ k c, srv_clients (server w) !! k = Some c →
            ∃ cc, clients w !! c = Some cc
                  ∧ clients w' !! c = Some (ClientConn.Close cc).1.2
                  ∧ ClientConn.closed (ClientConn.Close cc).1.2 = true).
  { intros k c Hkc. destruct (Hpres _ _ Hkc) as [cc Hc]. exists cc.
    split; [done|]. split; [|apply ClientConn_Close_closed].
    rewrite Hcl, Hc. cbn. rewrite decide_True; [done|].
    apply elem_of_registry. by exists k. }
  exists w', evs. split.
  { rewrite Stop_unfold, Hon. unfold bind. by rewrite Hrun. }
  do 5 (split; [done|]). split; [exact Hstored|]. split.
  { intros c Hnot. rewrite Hcl. destruct (clients w !! c) as [cc|]; [|done].
    cbn. rewrite decide_False; [done|]. rewrite elem_of_registry.
    intros (k & Hk). by eapply Hnot. }
  intros again. rewrite Stop_unfold, Hsv, Hon. unfold bind.
  rewrite closeClients_closed; [done|].
  apply Forall_forall. intros [k c] Hkc. apply elem_of_map_to_list in Hkc.
  destruct (Hstored _ _ Hkc) as (cc & _ & Hc' & Hclosed). by eexists.
Qed.

Lemma Stop_closes_every_client_witness :
  ∃ w', Stop None (liveWorld []) = Some (None, w')
    ∧ trace w' = closeEvents (quietConn 10)
    ∧ Stop None w' = Some (None, w').
Proof.
  destruct (Stop_closes_every_client None (liveWorld [])) as [_ H].
  destruct H as (w' & evs & Hrun & Htr & _ & _ & _ & _ & _ & _ & Hagain).
  - reflexivity.
  - intros k c Hkc. destruct (decide (k = 1%Z)) as [->|Hne].
    + injection Hkc as <-. by eexists.
    + unfold liveWorld, liveWorldWith in Hkc. cbn [server srv_clients] in Hkc.
      by rewrite lookup_singleton_ne in Hkc.
  - exists w'. split; [exact Hrun|]. split; [|apply Hagain].
    assert (Hw : Stop None (liveWorld []) = Some (None, w')) by exact Hrun.
    vm_compute in Hw. injection Hw as <-. reflexivity.
Defined.

(** ** A refused client, through the server *)

Lemma accept_admitted conn w :
  accept conn w = Some (fresh (dom (clients w)), admitted w conn).
Proof. reflexivity. Qed.

Lemma refused_shape i ws frame :
  ClientConn.ID (refused (ClientConn.mk i ws false) frame) = i
  ∧ ClientConn.closed (refused (ClientConn.mk i ws false) frame) = true
  ∧ websocket.reads (ClientConn.conn (refused (ClientConn.mk i ws false) frame))
    = websocket.reads ws.
Proof. done. Qed.

(** X9. A client whose session cannot be set up leaves nothing behind.  With
    the router behind the server, when the launch or the dial fails and the
    transport of the refused client then reports a read error,
    [handleWebSocket] returns with: the client admitted under the next
    identifier, sent the error frame and closed exactly once (the deferred
    close of [handleClient] finds the channel closed and does nothing); the
    server's table without the client's entry; no session created and the
    registry untouched.  The identifier stays used up. *)
Theorem refused_client_leaves_nothing (launch : string + browser.LaunchResult)
    (dial : string + websocket.Conn) (pre : list Event) (frame : string)
    (conn : websocket.Conn) (e : string) (rest : list websocket.ReadResult)
    (fuel : nat) (w : World) :
  connectFailure launch dial = Some (pre, frame) →
  websocket.reads conn = websocket.ReadErr e :: rest →
  sessions (router w) !! upcomingID w = None →
  handleWebSocket (routerCallbacks launch dial) (S fuel) (inr conn) w
  = Some (Some (fresh (dom (clients w)), ReadFailed),
          mkWorld (<[fresh (dom (clients w))
                     := afterRead (refused (ClientConn.mk (upcomingID w) conn false) frame) rest]>
                     (clients w))
                  (heap w) (router w)
                  (mkServer (port (server w)) (httpServer (server w)) (upcomingID w)
                     (delete (upcomingID w) (srv_clients (server w))))
                  (trace w ++ [EvLaunch (headless (router w))] ++ pre
                     ++ refusedEvents (ClientConn.mk (upcomingID w) conn false) frame)).
Proof.
  intros Hfail Hreads Hnone.
  set (client := fresh (dom (clients w))).
  set (cc := ClientConn.mk (upcomingID w) conn false).
  destruct (refused_shape (upcomingID w) conn frame) as (Hid & Hclosed & Hr).
  fold cc in Hid, Hclosed, Hr.
  unfold handleWebSocket. unfold bind at 1. rewrite accept_admitted. fold client.
  cbn [routerCallbacks onConnect call1]. unfold bind at 1.
  rewrite (OnClientConnect_failure _ client cc launch dial pre frame);
    [|by (unfold admitted; cbn [clients]; rewrite lookup_insert_eq)|done].
  unfold bind at 1.
  rewrite (handleClient_failed _ fuel client _ (refused cc frame) e rest);
    [|by (cbn [clients admitted]; rewrite lookup_insert_eq)|by rewrite Hr].
  cbn [routerCallbacks onClose call1].
  rewrite ClientConn_Close_again by (by destruct (refused cc frame)).
  cbn [fst snd]. unfold bind at 1.
  erewrite OnClientDisconnect_absent; cycle 1.
  { cbn [clients]. by rewrite lookup_insert_eq. }
  { cbn [router admitted afterRead ClientConn.ID]. by rewrite Hid. }
  unfold ret, forget, admitted.
  cbn [clients heap router server trace port httpServer nextID srv_clients afterRead
       ClientConn.ID].
  rewrite Hid, !insert_insert_eq, delete_insert_eq, app_nil_r. reflexivity.
Qed.

Lemma refused_client_leaves_nothing_witness :
  ∃ w', handleWebSocket (routerCallbacks (inl "no browser") (inl "unused")) 1
          (inr (websocket.mkConn 4 [websocket.ReadErr "closed"] [] [])) (newWorld true)
        = Some (Some (fresh (dom (clients (newWorld true))), ReadFailed), w')
      ∧ srv_clients (server w') = ∅
      ∧ sessions (router w') = ∅
      ∧ nextID (server w') = 1%Z.
Proof.
  eexists. split.
  - apply (refused_client_leaves_nothing (inl "no browser") (inl "unused") []
             (errorFrame "Failed to launch browser: " "no browser")
             (websocket.mkConn 4 [websocket.ReadErr "closed"] [] []) "closed" [] 0
             (newWorld true)); reflexivity.
  - cbn [server srv_clients router sessions nextID newWorld]. by rewrite delete_empty.
Defined.

(** ** Creating the server *)

Lemma default_last_cons {A} (d x : A) (l : list A) :
  default d (last (x :: l)) = default x (last l).
Proof. rewrite last_cons. by destruct (last l). Qed.

Lemma configure_spec l : ∀ s,
  port (foldl (λ s opt, opt s) s (optionOf <$> l)).1 = default (port s.1) (last (portsOf l))
  ∧ onConnect (foldl (λ s opt, opt s) s (optionOf <$> l)).2
    = default (onConnect s.2) (last (connectsOf l))
  ∧ onMessage (foldl (λ s opt, opt s) s (optionOf <$> l)).2
    = default (onMessage s.2) (last (messagesOf l))
  ∧ onClose (foldl (λ s opt, opt s) s (optionOf <$> l)).2
    = default (onClose s.2) (last (closesOf l))
  ∧ httpServer (foldl (λ s opt, opt s) s (optionOf <$> l)).1 = httpServer s.1
  ∧ nextID (foldl (λ s opt, opt s) s (optionOf <$> l)).1 = nextID s.1
  ∧ srv_clients (foldl (λ s opt, opt s) s (optionOf <$> l)).1 = srv_clients s.1.
Proof.
  induction l as [|o l IH]; intros s; [done|].
  cbn [fmap list_fmap foldl].
  destruct (IH (optionOf o s)) as (-> & -> & -> & -> & -> & -> & ->).
  destruct o; cbn [optionOf WithPort WithOnConnect WithOnMessage WithOnClose fst snd port
                   onConnect onMessage onClose httpServer nextID srv_clients
                   portsOf connectsOf messagesOf closesOf omap list_omap];
    by rewrite ?default_last_cons.
Qed.

(** X10. [NewServer] applies its options in order.  The port is the one of
    the last port option, 9515 when there is none; each callback is the one of
    the last option of its kind, and is absent when there is none; options of
    one kind do not disturb the others; and no option starts the server,
    stores a client or moves the identifier counter, so the first client of a
    new server gets identifier 1. *)
Theorem NewServer_applies_options (l : list Setting) (conn : websocket.Conn) (w : World) :
  Port (NewServer (optionOf <$> l)) = default 9515%Z (last (portsOf l))
  ∧ onConnect (NewServer (optionOf <$> l)).2 = default None (last (connectsOf l))
  ∧ onMessage (NewServer (optionOf <$> l)).2 = default None (last (messagesOf l))
  ∧ onClose (NewServer (optionOf <$> l)).2 = default None (last (closesOf l))
  ∧ httpServer (NewServer (optionOf <$> l)).1 = false
  ∧ srv_clients (NewServer (optionOf <$> l)).1 = ∅
  ∧ ∃ c w',
      accept conn (mkWorld (clients w) (heap w) (router w)
                     (NewServer (optionOf <$> l)).1 (trace w))
      = Some (c, w')
      ∧ ClientConn.ID <$> clients w' !! c = Some 1%Z.
Proof.
  destruct (configure_spec l (mkServer 9515 false 0 ∅, mkCallbacks None None None))
    as (Hp & Hc & Hm & Hcl & Hh & Hn & Hs).
  unfold Port, NewServer. do 6 (split; [done|]).
  destruct (accept_spec conn (mkWorld (clients w) (heap w) (router w)
              (foldl (λ s opt, opt s)
                 (mkServer 9515 false 0 ∅, mkCallbacks None None None) (optionOf <$> l)).1
              (trace w))) as (c & w' & Hacc & Hcc & _).
  exists c, w'. split; [exact Hacc|]. rewrite Hcc. cbn [server fmap option_fmap option_map
    ClientConn.ID]. by rewrite Hn.
Qed.

(** ** A closed engine channel *)

(** X11. A closed engine channel is inert.  Once [Connection.Close] has run,
    on a channel in any state: [Send] returns the error "connection closed",
    writes nothing to the transport and leaves the channel as it is;
    [Receive] returns the same error at once, without reading from the
    transport, so it does not block even when the peer stays silent. *)
Theorem closed_connection_is_inert (b : Connection.t) (msg : string) :
  Connection.Send (Connection.Close b).1.2 msg
  = (Some ErrConnectionClosed, (Connection.Close b).1.2, [])
  ∧ Connection.Receive (Connection.Close b).1.2
    = Some (inr ErrConnectionClosed, (Connection.Close b).1.2)
  ∧ Error ErrConnectionClosed = "connection closed".
Proof.
  pose proof (Connection_Close_closed b) as Hclosed.
  unfold Connection.Send, Connection.Receive. by rewrite Hclosed.
Qed.

(** * The tool handlers of the MCP server *)

Lemma Connection_Close_released c :
  launchCloses (Connection.Close c).2 = []
  ∧ (Connection.closed c = false →
     sockCloses (Connection.Close c).2 = [websocket.id (Connection.conn c)]).
Proof.
  destruct c as [ws [|]]; [done|].
  destruct (Connection_Close_open ws) as (r & ws' & -> & _). done.
Qed.

Lemma Handlers_Close_idle h : mcp.idle (mcp.Close h).1.
Proof. done. Qed.

Lemma launchCloses_app t1 t2 : launchCloses (t1 ++ t2) = launchCloses t1 ++ launchCloses t2.
Proof. apply omap_app. Qed.

Lemma sockCloses_app t1 t2 : sockCloses (t1 ++ t2) = sockCloses t1 ++ sockCloses t2.
Proof. apply omap_app. Qed.

Lemma Handlers_Close_counts h :
  mcp.coherent h →
  launchCloses (mcp.Close h).2 = mcp.heldBrowser h
  ∧ sockCloses (mcp.Close h).2 = mcp.heldTransport h.
Proof.
  intros [(Hl & _ & Hc)|(lr & c & Hl & Hc & _ & Hopen)];
    unfold mcp.Close, mcp.heldBrowser, mcp.heldTransport; rewrite Hl, Hc; [done|].
  cbn [snd]. rewrite launchCloses_app, sockCloses_app.
  destruct (Connection_Close_released c) as [-> Hs]. by rewrite (Hs Hopen).
Qed.

(** X12. [Handlers.Close] releases the session and is idempotent.  Whatever
    the handlers held, after [Close] they hold nothing, and the screenshot
    directory is kept; a second [Close] performs no action; the browser that
    was held, and no other, is closed; when a browser and an open connection
    are held, the connection is closed first (close notification, then the
    transport) and the browser after it; and [ensureBrowser] refuses from
    then on. *)
Theorem Handlers_Close_releases (h : mcp.Handlers) :
  mcp.idle (mcp.Close h).1
  ∧ mcp.screenshotDir (mcp.Close h).1 = mcp.screenshotDir h
  ∧ mcp.Close (mcp.Close h).1 = ((mcp.Close h).1, [])
  ∧ launchCloses (mcp.Close h).2 = mcp.heldBrowser h
  ∧ (∀ lr ws, mcp.launchResult h = Some lr →
       mcp.conn h = Some (Connection.mk ws false) →
       (mcp.Close h).2 = closeEvents ws ++ [EvLaunchClose (browser.proc lr)])
  ∧ mcp.ensureBrowser (mcp.Close h).1
    = Some "no browser session. Call browser_launch first".
Proof.
  split; [done|]. split; [done|]. split; [done|]. split.
  { unfold mcp.Close, mcp.heldBrowser. cbn [snd]. rewrite launchCloses_app.
    destruct (mcp.conn h) as [c|];
      [destruct (Connection_Close_released c) as [-> _]|];
      by destruct (mcp.launchResult h). }
  split; [|done].
  intros lr ws Hl Hc. unfold mcp.Close. rewrite Hl, Hc. cbn [snd].
  by destruct (Connection_Close_open ws) as (r & ws' & -> & _).
Qed.

Lemma Handlers_Close_releases_witness :
  (mcp.Close (mcp.mkHandlers (Some demoLaunch) (Some (mcp.NewClient (Connection.mk (quietConn 7) false)))
                (Some (Connection.mk (quietConn 7) false)) "shots")).2
  = closeEvents (quietConn 7) ++ [EvLaunchClose (browser.proc demoLaunch)].
Proof.
  by apply (Handlers_Close_releases
              (mcp.mkHandlers (Some demoLaunch)
                 (Some (mcp.NewClient (Connection.mk (quietConn 7) false)))
                 (Some (Connection.mk (quietConn 7) false)) "shots")).
Defined.

(** X13. [browserLaunch] replaces the session.  Whatever the handlers hold,
    the old session is released first, then the launcher is called with the
    [headless] argument ([false] when the argument is missing or is not a
    boolean).  When the launch and the dial succeed the handlers hold a whole
    new session and [ensureBrowser] accepts; when the dial fails the browser
    just launched is closed; after any failure the handlers hold nothing,
    not even the session they held before.  The screenshot directory is
    kept. *)
Theorem browserLaunch_replaces_session (launch : string + browser.LaunchResult)
    (dial : string + websocket.Conn) (args : mcp.Args) (h : mcp.Handlers) :
  ∃ r h' rest,
    mcp.browserLaunch launch dial args h
    = (r, h', (mcp.Close h).2 ++ EvLaunch (mcp.headlessOf args) :: rest)
    ∧ mcp.screenshotDir h' = mcp.screenshotDir h
    ∧ match launch, dial with
      | inl e, _ =>
          r = inl ("failed to launch browser: " +:+ e) ∧ rest = [] ∧ mcp.idle h'
      | inr lr, inl e =>
          r = inl ("failed to connect to browser: failed to connect to "
                   +:+ browser.WebSocketURL lr +:+ ": " +:+ e)
          ∧ rest = [EvDial (browser.WebSocketURL lr); EvLaunchClose (browser.proc lr)]
          ∧ mcp.idle h'
      | inr lr, inr ws =>
          r = inr (mcp.text ("Browser launched (headless: "
                             +:+ mcp.showBool (mcp.headlessOf args) +:+ ")"))
          ∧ rest = [EvDial (browser.WebSocketURL lr)]
          ∧ mcp.inSession h'
          ∧ mcp.heldBrowser h' = [browser.proc lr]
          ∧ mcp.heldTransport h' = [websocket.id ws]
          ∧ mcp.ensureBrowser h' = None
      end.
Proof.
  unfold mcp.browserLaunch.
  destruct (mcp.Close h) as [h0 ev0] eqn:Hclose.
  assert (Hdir : mcp.screenshotDir h0 = mcp.screenshotDir h)
    by (by injection Hclose as <- _).
  assert (Hidle : mcp.idle h0) by (by injection Hclose as <- _).
  cbn [snd]. destruct launch as [e|lr].
  { eexists _, _, []. split; [reflexivity|]. by split. }
  destruct dial as [e|ws]; cbn [Connection.Connect browser.Close Error].
  - eexists _, _, _. split; [reflexivity|]. by split.
  - eexists _, _, _. split; [reflexivity|]. split; [done|].
    split; [done|]. split; [done|]. split; [|done].
    by exists lr, (Connection.mk ws false).
Qed.

Lemma idle_holds_nothing h :
  mcp.idle h → mcp.heldBrowser h = [] ∧ mcp.heldTransport h = [].
Proof. intros (Hl & _ & Hc). unfold mcp.heldBrowser, mcp.heldTransport. by rewrite Hl, Hc. Qed.

Lemma mcp_step_spec op h :
  mcp.coherent h →
  mcp.coherent (mcp.step op h).1
  ∧ launchCloses (mcp.step op h).2 ++ mcp.heldBrowser (mcp.step op h).1
    = mcp.heldBrowser h ++ mcp.launched [op]
  ∧ sockCloses (mcp.step op h).2 ++ mcp.heldTransport (mcp.step op h).1
    = mcp.heldTransport h ++ mcp.dialed [op].
Proof.
  intros Hco. destruct (Handlers_Close_counts h Hco) as [Hlc Hsc].
  destruct op as [launch dial args|args|]; cbn [mcp.step].
  - unfold mcp.browserLaunch.
    destruct (mcp.Close h) as [h0 ev0] eqn:Hclose. cbn [snd] in Hlc, Hsc.
    assert (Hidle : mcp.idle h0) by (by injection Hclose as <- _).
    destruct launch as [e|lr]; [|destruct dial as [e|ws]];
      cbn [Connection.Connect browser.Close fst snd];
      rewrite !launchCloses_app, !sockCloses_app, ?Hlc, ?Hsc;
      cbn [launchCloses sockCloses omap list_omap mcp.launched mcp.dialed
           mcp.heldBrowser mcp.heldTransport
           mcp.launchResult mcp.conn Connection.conn app].
    + destruct (idle_holds_nothing _ Hidle) as [-> ->]. split; [by left|].
      by rewrite !app_nil_r.
    + destruct (idle_holds_nothing _ Hidle) as [-> ->]. split; [by left|].
      by rewrite !app_nil_r.
    + split; [right; by exists lr, (Connection.mk ws false)|]. by rewrite !app_nil_r.
  - unfold mcp.browserQuit. destruct (mcp.launchResult h) as [lr|] eqn:Hl.
    + destruct (mcp.Close h) as [h0 ev0] eqn:Hclose. cbn [fst snd] in *.
      assert (Hidle : mcp.idle h0) by (by injection Hclose as <- _).
      split; [by left|]. rewrite Hlc, Hsc.
      destruct (idle_holds_nothing _ Hidle) as [-> ->]. done.
    + cbn [fst snd]. split; [done|]. cbn. by rewrite !app_nil_r.
  - split; [by left|]. rewrite Hlc, Hsc.
    destruct (idle_holds_nothing _ (Handlers_Close_idle h)) as [-> ->]. done.
Qed.

Lemma mcp_run_spec ops : ∀ h,
  mcp.coherent h →
  mcp.coherent (mcp.run ops h).1
  ∧ launchCloses (mcp.run ops h).2 ++ mcp.heldBrowser (mcp.run ops h).1
    = mcp.heldBrowser h ++ mcp.launched ops
  ∧ sockCloses (mcp.run ops h).2 ++ mcp.heldTransport (mcp.run ops h).1
    = mcp.heldTransport h ++ mcp.dialed ops.
Proof.
  induction ops as [|op ops IH]; intros h Hco.
  { cbn. by rewrite !app_nil_r. }
  destruct (mcp_step_spec op h Hco) as (Hco1 & Hl1 & Hs1).
  cbn [mcp.run]. destruct (mcp.step op h) as [h1 ev1]. cbn [fst snd] in *.
  destruct (IH h1 Hco1) as (Hco2 & Hl2 & Hs2).
  destruct (mcp.run ops h1) as [h2 ev2]. cbn [fst snd] in *.
  split; [done|]. rewrite launchCloses_app, sockCloses_app.
  assert (Hl : mcp.launched (op :: ops) = mcp.launched [op] ++ mcp.launched ops)
    by apply (omap_app _ [op] ops).
  assert (Hd : mcp.dialed (op :: ops) = mcp.dialed [op] ++ mcp.dialed ops)
    by apply (omap_app _ [op] ops).
  rewrite Hl, Hd, <- !app_assoc, Hl2, Hs2, !app_assoc, Hl1, Hs1. done.
Qed.

(** X14. The handlers never leak a browser or a connection.  After any
    sequence of launches, quits and closes on new handlers, whatever the
    launcher and the dialer answered: the handlers hold a whole session or
    none; the browsers that have been closed, in the order of their closing,
    followed by the one still held, are exactly the browsers the launcher
    handed out, in that order, so each is closed once and only the last can
    be alive; and the same holds of the transports the dialer handed out. *)
Theorem sessions_never_leak (ops : list mcp.Op) (dir : string) :
  mcp.coherent (mcp.run ops (mcp.NewHandlers dir)).1
  ∧ launchCloses (mcp.run ops (mcp.NewHandlers dir)).2
      ++ mcp.heldBrowser (mcp.run ops (mcp.NewHandlers dir)).1
    = mcp.launched ops
  ∧ sockCloses (mcp.run ops (mcp.NewHandlers dir)).2
      ++ mcp.heldTransport (mcp.run ops (mcp.NewHandlers dir)).1
    = mcp.dialed ops.
Proof.
  apply (mcp_run_spec ops (mcp.NewHandlers dir)). by left.
Qed.

(** X15. [browserQuit] ends the session and can be repeated.  On handlers
    that hold a whole session or none it never fails; it leaves the handlers
    without a session; when there was none it reports so and does nothing;
    when there was one it does what [Close] does; and a second quit reports
    that there is no session and performs no action. *)
Theorem browserQuit_ends_session (args args' : mcp.Args) (h : mcp.Handlers) :
  mcp.coherent h →
  ∃ t h' evs,
    mcp.browserQuit args h = (inr (mcp.text t), h', evs)
    ∧ mcp.idle h'
    ∧ (mcp.idle h → t = "No browser session to close" ∧ h' = h ∧ evs = [])
    ∧ (mcp.inSession h → t = "Browser session closed" ∧ (h', evs) = mcp.Close h)
    ∧ mcp.browserQuit args' h' = (inr (mcp.text "No browser session to close"), h', []).
Proof.
  intros [Hidle|Hin]; unfold mcp.browserQuit at 1.
  - destruct (Hidle) as (Hl & _). rewrite Hl. eexists _, h, []. split; [done|].
    split; [done|]. split; [done|]. split.
    + intros (lr & c & Hl' & _). congruence.
    + unfold mcp.browserQuit. by rewrite Hl.
  - destruct (Hin) as (lr & c & Hl & Hc & _). rewrite Hl.
    destruct (mcp.Close h) as [h0 ev0] eqn:Hclose.
    assert (Hidle : mcp.idle h0) by (by injection Hclose as <- _).
    eexists _, h0, ev0. split; [done|]. split; [done|]. split.
    + intros (Hl' & _). congruence.
    + split; [done|]. unfold mcp.browserQuit. by destruct Hidle as (-> & _).
Qed.

Lemma browserQuit_ends_session_witness :
  ∃ h' evs,
    mcp.browserQuit ∅ (mcp.mkHandlers (Some demoLaunch)
                         (Some (mcp.NewClient (Connection.mk (quietConn 7) false)))
                         (Some (Connection.mk (quietConn 7) false)) "shots")
    = (inr (mcp.text "Browser session closed"), h', evs)
    ∧ mcp.idle h'.
Proof.
  destruct (browserQuit_ends_session ∅ ∅
              (mcp.mkHandlers (Some demoLaunch)
                 (Some (mcp.NewClient (Connection.mk (quietConn 7) false)))
                 (Some (Connection.mk (quietConn 7) false)) "shots"))
    as (t & h' & evs & Hq & Hidle & _ & Hin & _).
  - right. by exists demoLaunch, (Connection.mk (quietConn 7) false).
  - exists h', evs. split; [|exact Hidle].
    destruct Hin as [-> _]; [|exact Hq].
    by exists demoLaunch, (Connection.mk (quietConn 7) false).
Defined.

(** * The browsing-context commands of the BiDi client *)

Lemma GetTree_first {Raw : Type} (uT : Raw → string + BrowsingContext.GetTreeResult)
    (c : BrowsingContext.Client Raw) r rs :
  BrowsingContext.replies c = r :: rs →
  ∃ res, BrowsingContext.GetTree uT c = Some (res, BrowsingContext.afterGetTree c)
    ∧ match BrowsingContext.firstContext uT r with
      | Some first =>
          ∃ tree, res = inr tree ∧ head (BrowsingContext.Contexts tree) = Some first
      | None =>
          (∃ err, res = inl err)
          ∨ res = inr (BrowsingContext.mkGetTreeResult [])
      end.
Proof.
  intros Hr. unfold BrowsingContext.GetTree, BrowsingContext.SendCommand,
    BrowsingContext.afterGetTree, BrowsingContext.firstContext.
  rewrite Hr. cbn [tail]. destruct r as [err|raw].
  { eexists. split; [done|]. left. by eexists. }
  destruct (uT raw) as [err|[contexts]].
  { eexists. split; [done|]. left. by eexists. }
  eexists. split; [done|]. destruct contexts as [|first rest]; cbn.
  - by right.
  - by eexists.
Qed.

(** X16. An empty context means the first context of the tree.  When the
    next reply is a tree whose first context has a non-empty identifier,
    [Navigate] and [CaptureScreenshot] with an empty context ask for the tree
    and then do exactly what they do with that identifier given, and
    [GetCurrentURL] returns the URL of that same context. *)
Theorem empty_context_is_first_context {Raw : Type}
    (uT : Raw → string + BrowsingContext.GetTreeResult)
    (uN : Raw → string + BrowsingContext.NavigateResult)
    (uS : Raw → string + BrowsingContext.CaptureScreenshotResult)
    (c : BrowsingContext.Client Raw) (r : string + Raw) (rs : list (string + Raw))
    (first : BrowsingContext.BrowsingContextInfo) (url : string) :
  BrowsingContext.replies c = r :: rs →
  BrowsingContext.firstContext uT r = Some first →
  BrowsingContext.Context first ≠ "" →
  BrowsingContext.Navigate uT uN c "" url
  = BrowsingContext.Navigate uT uN (BrowsingContext.afterGetTree c)
      (BrowsingContext.Context first) url
  ∧ BrowsingContext.CaptureScreenshot uT uS c ""
    = BrowsingContext.CaptureScreenshot uT uS (BrowsingContext.afterGetTree c)
        (BrowsingContext.Context first)
  ∧ BrowsingContext.GetCurrentURL uT c
    = Some (inr (BrowsingContext.URL first), BrowsingContext.afterGetTree c).
Proof.
  intros Hr Hfirst Hne.
  destruct (GetTree_first uT c r rs Hr) as (res & Hget & Hres).
  rewrite Hfirst in Hres. destruct Hres as ([contexts] & -> & Hhead).
  destruct contexts as [|i rest]; [done|]. injection Hhead as ->.
  unfold BrowsingContext.Navigate, BrowsingContext.CaptureScreenshot,
    BrowsingContext.GetCurrentURL.
  rewrite Hget. cbn [BrowsingContext.Contexts].
  rewrite (decide_True (P := "" = "")) by done.
  by rewrite (decide_False (P := BrowsingContext.Context first = "")) by done.
Qed.

Lemma empty_context_is_first_context_witness :
  BrowsingContext.Navigate BrowsingContext.demoTree BrowsingContext.demoNavigate
    (BrowsingContext.mkClient
       [inr (BrowsingContext.RawTree
               [BrowsingContext.mkBrowsingContextInfo "ctx1" "about:blank" [] ""]);
        inr (BrowsingContext.RawNavigate "nav1" "https://example.com/")] [])
    "" "https://example.com/"
  = Some (inr (BrowsingContext.mkNavigateResult "nav1" "https://example.com/"),
          BrowsingContext.mkClient []
            [("browsingContext.getTree", ∅);
             ("browsingContext.navigate",
              {[ "context" := "ctx1"; "url" := "https://example.com/";
                 "wait" := "complete" ]})]).
Proof.
  destruct (empty_context_is_first_context BrowsingContext.demoTree
              BrowsingContext.demoNavigate BrowsingContext.demoScreenshot
              (BrowsingContext.mkClient
                 [inr (BrowsingContext.RawTree
                         [BrowsingContext.mkBrowsingContextInfo "ctx1" "about:blank" [] ""]);
                  inr (BrowsingContext.RawNavigate "nav1" "https://example.com/")] [])
              (inr (BrowsingContext.RawTree
                      [BrowsingContext.mkBrowsingContextInfo "ctx1" "about:blank" [] ""]))
              [inr (BrowsingContext.RawNavigate "nav1" "https://example.com/")]
              (BrowsingContext.mkBrowsingContextInfo "ctx1" "about:blank" [] "")
              "https://example.com/") as [-> _]; done.
Defined.

(** X17. When the context cannot be resolved, no command acts on a page.
    If the reply to [getTree] is an error, cannot be decoded, or is a tree
    without contexts, then [Navigate] and [CaptureScreenshot] with an empty
    context and [GetCurrentURL] all return an error, and each has issued the
    [getTree] command and nothing else: no navigation and no screenshot is
    requested, and one reply has been consumed. *)
Theorem unresolved_context_sends_nothing {Raw : Type}
    (uT : Raw → string + BrowsingContext.GetTreeResult)
    (uN : Raw → string + BrowsingContext.NavigateResult)
    (uS : Raw → string + BrowsingContext.CaptureScreenshotResult)
    (c : BrowsingContext.Client Raw) (r : string + Raw) (rs : list (string + Raw))
    (url : string) :
  BrowsingContext.replies c = r :: rs →
  BrowsingContext.firstContext uT r = None →
  let c' := BrowsingContext.mkClient rs
              (BrowsingContext.sent c ++ [("browsingContext.getTree", ∅)]) in
  (∃ err, BrowsingContext.Navigate uT uN c "" url = Some (inl err, c'))
  ∧ (∃ err, BrowsingContext.CaptureScreenshot uT uS c "" = Some (inl err, c'))
  ∧ (∃ err, BrowsingContext.GetCurrentURL uT c = Some (inl err, c')).
Proof.
  intros Hr Hnone c'.
  destruct (GetTree_first uT c r rs Hr) as (res & Hget & Hres).
  rewrite Hnone in Hres.
  assert (Hc : BrowsingContext.afterGetTree c = c')
    by (unfold BrowsingContext.afterGetTree; by rewrite Hr).
  rewrite Hc in Hget.
  unfold BrowsingContext.Navigate, BrowsingContext.CaptureScreenshot,
    BrowsingContext.GetCurrentURL.
  rewrite Hget, (decide_True (P := "" = "")) by done.
  destruct Hres as [[err ->]| ->]; cbn [BrowsingContext.Contexts];
    (split; [by eexists|split; by eexists]).
Qed.

Lemma unresolved_context_sends_nothing_witness :
  ∃ err,
    BrowsingContext.Navigate BrowsingContext.demoTree BrowsingContext.demoNavigate
      (BrowsingContext.mkClient
         [inr (BrowsingContext.RawTree []);
          inr (BrowsingContext.RawNavigate "nav1" "https://example.com/")] [])
      "" "https://example.com/"
    = Some (inl err,
            BrowsingContext.mkClient
              [inr (BrowsingContext.RawNavigate "nav1" "https://example.com/")]
              [("browsingContext.getTree", ∅)]).
Proof.
  apply (unresolved_context_sends_nothing BrowsingContext.demoTree
           BrowsingContext.demoNavigate BrowsingContext.demoScreenshot
           (BrowsingContext.mkClient
              [inr (BrowsingContext.RawTree []);
               inr (BrowsingContext.RawNavigate "nav1" "https://example.com/")] [])
           (inr (BrowsingContext.RawTree []))
           [inr (BrowsingContext.RawNavigate "nav1" "https://example.com/")]
           "https://example.com/"); reflexivity.
Defined.
